(** * Reconciliation core of the OpenStack source of netbox-sync

    A shallow embedding of [module/sources/openstack/connection.py]
    (class [OpenStackHandler]) and the properties of its matching,
    relation, filter and primary-IP code.

    Conventions of the embedding.
    - Python [str] is [string]; [None]-able values are [option].
    - A Python [dict] that is iterated ([.items()], [sorted], [list(keys())])
      is an association list in insertion order; a [dict] that is only
      looked up is a [gmap].
    - NetBox objects live in the inventory and are referred to by their
      object identity ([oid]); Python's [==] on them is identity.
    - [log.*] calls append a [log_record] to the log that is threaded
      through the handler.
    - Methods of [NetBoxInventory], [NetBoxObject] and [SourceBase] are not
      part of this file of the repository; they are the fields of the class
      [Collaborators] below. *)

From Stdlib Require Import Ascii ZArith QArith.
From stdpp Require Import base tactics option list strings gmap pretty sorting.

Local Open Scope string_scope.
Local Open Scope list_scope.

(* ================================================================== *)
(** * Part I: the embedding                                            *)
(* ================================================================== *)

(** ** Strings: [str.split] and [str.join] for a one-character separator *)

(** [s.split(sep)]: every occurrence of [sep] ends a piece, so the result
    is never empty and [n] separators give [n + 1] pieces. *)
Fixpoint split (sep : ascii) (s : string) : list string :=
  match s with
  | EmptyString => [EmptyString]
  | String c rest =>
      if Ascii.eqb c sep then EmptyString :: split sep rest
      else match split sep rest with
           | [] => [String c EmptyString]
           | piece :: pieces => String c piece :: pieces
           end
  end.

(** [sep.join(pieces)] *)
Fixpoint join (sep : string) (pieces : list string) : string :=
  match pieces with
  | [] => EmptyString
  | [piece] => piece
  | piece :: rest => piece +:+ sep +:+ join sep rest
  end.

(** [s.split(sep)[0]] *)
Definition split_first (sep : ascii) (s : string) : string :=
  default EmptyString (head (split sep s)).

(** ** Logging *)

Inductive log_level := DEBUG3 | DEBUG2 | DEBUG | INFO | WARNING | ERROR.

Record log_record := LogRecord { level : log_level; message : string }.

#[global] Instance log_level_eq_dec : EqDecision log_level.
Proof. solve_decision. Defined.

#[global] Instance log_record_eq_dec : EqDecision log_record.
Proof. solve_decision. Defined.

Definition is_level (l : log_level) (r : log_record) : bool :=
  bool_decide (level r = l).

(** ** Regular expressions

    The compiled patterns of the configuration are used through
    [pattern.match(name)] (truthiness of the result) and [pattern.pattern]
    only. *)
Class RegexObject (R : Type) := {
  re_match : R -> string -> bool;
  re_pattern : R -> string
}.

(** A pattern without metacharacters: [re.match] anchors at the start of the
    string, so such a pattern matches exactly the names it is a prefix of. *)
Definition literal_regex : RegexObject string :=
  {| re_match := fun pat name => String.prefix pat name;
     re_pattern := fun pat => pat |}.

(** ** FilterEngine: [passes_filter] (lines 194-223) *)

Section FilterEngine.
Context {R : Type} `{RegexObject R}.

Definition passes_filter (name : string) (include_filter exclude_filter : option R)
  : bool * list log_record :=
  let excludes :=
    (* second excludes *)
    match exclude_filter with
    | Some exc =>
        if re_match exc name
        then (false, [LogRecord DEBUG ("Object '" +:+ name +:+ "' matched exclude filter '"
                                        +:+ re_pattern exc +:+ "'. Skipping")])
        else (true, [])
    | None => (true, [])
    end in
  (* first includes *)
  match include_filter with
  | Some inc =>
      if negb (re_match inc name)
      then (false, [LogRecord DEBUG ("Object '" +:+ name +:+ "' did not match include filter '"
                                      +:+ re_pattern inc +:+ "'. Skipping")])
      else excludes
  | None => excludes
  end.

End FilterEngine.

(** ** RelationResolver: [get_object_relation] (lines 424-474) *)

(** One entry of a relation setting: [{"object_regex": ..., "assigned_name": ...}]. *)
Record relation_rule (R : Type) := RelationRule {
  object_regex : R;
  assigned_name : string
}.
Arguments RelationRule {R} _ _.
Arguments object_regex {R} _.
Arguments assigned_name {R} _.

(** The function returns a list for a tag relation and a string or [None]
    otherwise. *)
Inductive relation_value :=
| RelList (names : list string)
| RelName (name : option string).

(** [grab(f"{relation}".split("_"), i)] *)
Definition relation_word (relation : string) (i : nat) : option string :=
  split "_" relation !! i.

Definition is_cluster_relation (relation : string) : bool :=
  bool_decide (relation_word relation 0 = Some "cluster").

Definition is_tag_relation (relation : string) : bool :=
  bool_decide (relation_word relation 1 = Some "tag").

(** ["/".join(name.split("/")[1:])] *)
Definition stripped_name (name : string) : string :=
  join "/" (tail (split "/" name)).

Section RelationResolver.
Context {R : Type} `{RegexObject R}.

(** One turn of the loop over the relation's entries; the state is
    [resolved_list] and the log written so far. *)
Definition relation_step (name relation : string)
    (acc : list string * list log_record) (single_relation : relation_rule R)
  : list string * list log_record :=
  let '(resolved_list, lg) := acc in
  let object_regex := object_regex single_relation in
  if re_match object_regex name then
    let resolved_name := assigned_name single_relation in
    (resolved_list ++ [resolved_name],
     lg ++ [LogRecord DEBUG2 ("Found a matching " +:+ relation +:+ " '" +:+ resolved_name
                               +:+ "' (" +:+ re_pattern object_regex +:+ ") for " +:+ name)])
  else
    (* special cluster condition *)
    if is_cluster_relation relation then
      if re_match object_regex (stripped_name name) then
        let resolved_name := assigned_name single_relation in
        (resolved_list ++ [resolved_name],
         lg ++ [LogRecord DEBUG2 ("Found a matching " +:+ relation +:+ " '" +:+ resolved_name
                                   +:+ "' (" +:+ re_pattern object_regex +:+ ") for "
                                   +:+ stripped_name name)])
      else acc
    else acc.

(** The diagnostic of line 471. *)
Definition several_matches_record (name relation : string) (n : nat) (resolved_name : string)
  : log_record :=
  LogRecord DEBUG ("Found " +:+ pretty n +:+ " matches for " +:+ name +:+ " in " +:+ relation
                   +:+ ". Using first on: " +:+ resolved_name).

(** [relations] is the part of [self.settings] that holds the relation
    settings, by name; a name that is not configured gives the empty list. *)
Definition get_object_relation (relations : gmap string (list (relation_rule R)))
    (name relation : string) (fallback : option string)
  : relation_value * list log_record :=
  let '(resolved_list, lg) :=
    fold_left (relation_step name relation) (default [] (relations !! relation)) ([], []) in
  if is_tag_relation relation then (RelList resolved_list, lg)
  else
    match resolved_list with
    | [] => (RelName fallback, lg)
    | [resolved_name] => (RelName (Some resolved_name), lg)
    | resolved_name :: _ =>
        (RelName (Some resolved_name),
         lg ++ [several_matches_record name relation (length resolved_list) resolved_name])
    end.

End RelationResolver.

(** What "the rule matches the name" means to [get_object_relation]: the
    pattern matches the name, or, for a relation whose first word is
    [cluster], it matches the name without its first path segment. *)
Definition rule_matches {R : Type} `{RegexObject R} (name relation : string)
    (single_relation : relation_rule R) : bool :=
  re_match (object_regex single_relation) name
  || (is_cluster_relation relation
      && re_match (object_regex single_relation) (stripped_name name)).

(** ** The inventory *)

(** The two classes of managed objects, [NBDevice] and [NBVM]. *)
Inductive object_type := NBDevice | NBVM.

(** The interface class that goes with each of them. *)
Inductive interface_type := NBInterface | NBVMInterface.

Inductive ip_version := IPv4 | IPv6.

#[global] Instance object_type_eq_dec : EqDecision object_type.
Proof. solve_decision. Defined.

#[global] Instance ip_version_eq_dec : EqDecision ip_version.
Proof. solve_decision. Defined.

(** What [data.primary_ip4] and [data.primary_ip6] of a managed object can
    hold when set: the embedded [dict] NetBox returned (with its ["address"]
    entry, if any), the NetBox id of an IP address (an [int]), or an
    [NBIPAddress] object of the inventory (by identity). *)
Inductive primary_ip_value :=
| PipDict (address : option string)
| PipId (nb_id : Z)
| PipObject (ip : nat).

#[global] Instance primary_ip_value_eq_dec : EqDecision primary_ip_value.
Proof. solve_decision. Defined.

(** An [NBIPAddress] object: identity, NetBox id, [data.address], [is_new]. *)
Record ip_address_object := IPAddressObject {
  ip_oid : nat;
  ip_nb_id : Z;
  ip_address : option string;
  is_new : bool
}.

(** An [NBDevice] or [NBVM] object: identity, name, primary IPs. *)
Record managed_object := ManagedObject {
  oid : nat;
  name_of : string;
  data_primary_ip4 : option primary_ip_value;
  data_primary_ip6 : option primary_ip_value
}.

(** An [NBInterface] or [NBVMInterface] object. [owner] is
    [data.device] or [data.virtual_machine] ([data.{secondary_key}]) when
    that is an [NBDevice] or [NBVM] object, and [None] for any other value. *)
Record interface_object := InterfaceObject {
  if_oid : nat;
  if_name : string;
  mac_address : option string;
  owner : option nat
}.

Record NetBoxInventory := Inventory {
  devices : list managed_object;
  vms : list managed_object;
  interfaces : list interface_object;
  vm_interfaces : list interface_object;
  ip_addresses : list ip_address_object
}.

(** [grab(obj, f"data.primary_ip{ip_version}")] *)
Definition primary_ip (v : ip_version) (obj : managed_object) : option primary_ip_value :=
  match v with IPv4 => data_primary_ip4 obj | IPv6 => data_primary_ip6 obj end.

Definition set_primary_ip_field (v : ip_version) (value : option primary_ip_value)
    (obj : managed_object) : managed_object :=
  match v with
  | IPv4 => ManagedObject (oid obj) (name_of obj) value (data_primary_ip6 obj)
  | IPv6 => ManagedObject (oid obj) (name_of obj) (data_primary_ip4 obj) value
  end.

(** [self.inventory.get_all_items(object_type)] for the two managed classes *)
Definition get_all_items (inv : NetBoxInventory) (t : object_type) : list managed_object :=
  match t with NBDevice => devices inv | NBVM => vms inv end.

Definition set_all_items (inv : NetBoxInventory) (t : object_type)
    (items : list managed_object) : NetBoxInventory :=
  match t with
  | NBDevice => Inventory items (vms inv) (interfaces inv) (vm_interfaces inv) (ip_addresses inv)
  | NBVM => Inventory (devices inv) items (interfaces inv) (vm_interfaces inv) (ip_addresses inv)
  end.

(** [self.inventory.get_all_items(interface_typ)] *)
Definition get_all_interfaces (inv : NetBoxInventory) (t : interface_type)
  : list interface_object :=
  match t with NBInterface => interfaces inv | NBVMInterface => vm_interfaces inv end.

(** Modelled from the spec: [getById(entityType, id)] of the inventory store,
    here for [NBIPAddress]: the object with that NetBox id, if any. *)
Definition get_by_id (inv : NetBoxInventory) (nb_id : Z) : option ip_address_object :=
  List.find (fun ip => bool_decide (ip_nb_id ip = nb_id)) (ip_addresses inv).

(** Modelled from the spec: [unsetAttribute(object, attributeName)] of the
    inventory store, here [devices_vms.unset_attribute(f"primary_ip{v}")]:
    the slot of that object is cleared. Objects are mutated in place, so the
    change is made where the object lives in the inventory. *)
Definition unset_primary_ip (v : ip_version) (obj : managed_object) : managed_object :=
  set_primary_ip_field v None obj.

(** Modelled from the spec: [createOrUpdate] of the inventory store, here
    [device_vm_object.update(data={f"primary_ip{v}": ip_object})]: the slot of
    the object with that identity now holds the IP address object. *)
Definition update_primary_ip (v : ip_version) (entity : nat) (ip_object : ip_address_object)
    (items : list managed_object) : list managed_object :=
  List.map (fun obj => if bool_decide (oid obj = entity)
                       then set_primary_ip_field v (Some (PipObject (ip_oid ip_object))) obj
                       else obj) items.

(** ** ObjectMatcher, tier 3: [get_object_based_on_primary_ip] (lines 364-422) *)

Definition _matches_device_primary_ip (inv : NetBoxInventory)
    (device_primary_ip : option primary_ip_value) (ip_needle : option string) : bool :=
  match device_primary_ip, ip_needle with
  | Some value, Some needle =>
      let ip :=
        match value with
        | PipDict address => address
        | PipId nb_id => get_by_id inv nb_id ≫= ip_address
        | PipObject _ => None
        end in
      match ip with
      | Some ip => bool_decide (split_first "/" ip = needle)
      | None => false
      end
  | _, _ => false
  end.

(** The loop of lines 412-422 over the objects of the requested class. *)
Fixpoint primary_ip_scan (inv : NetBoxInventory) (primary_ip4 primary_ip6 : option string)
    (items : list managed_object) : option managed_object :=
  match items with
  | [] => None
  | device :: rest =>
      if _matches_device_primary_ip inv (data_primary_ip4 device) primary_ip4 then Some device
      else if _matches_device_primary_ip inv (data_primary_ip6 device) primary_ip6 then Some device
      else primary_ip_scan inv primary_ip4 primary_ip6 rest
  end.

Definition get_object_based_on_primary_ip (inv : NetBoxInventory) (t : object_type)
    (primary_ip4 primary_ip6 : option string) : option managed_object :=
  match primary_ip4, primary_ip6 with
  | None, None => None
  | _, _ =>
      let primary_ip4 := split_first "/" <$> primary_ip4 in
      let primary_ip6 := split_first "/" <$> primary_ip6 in
      primary_ip_scan inv primary_ip4 primary_ip6 (get_all_items inv t)
  end.

(** Tier 3 as the specification words it: a scan that compares the primary
    IPv4 only, and, when no object matched, a second scan that compares the
    primary IPv6. Used to compare with the code's scan. *)
Definition primary_ip_two_scans (inv : NetBoxInventory) (t : object_type)
    (primary_ip4 primary_ip6 : option string) : option managed_object :=
  let primary_ip4 := split_first "/" <$> primary_ip4 in
  let primary_ip6 := split_first "/" <$> primary_ip6 in
  match List.find (fun device => _matches_device_primary_ip inv (data_primary_ip4 device) primary_ip4)
                  (get_all_items inv t) with
  | Some device => Some device
  | None =>
      List.find (fun device => _matches_device_primary_ip inv (data_primary_ip6 device) primary_ip6)
                (get_all_items inv t)
  end.

(** ** ObjectMatcher, tier 2: [get_object_based_on_macs] (lines 266-362)

    The result is the object found, by identity. The [debug2] traces of the
    two matchers do not enter any result and are left out. *)

Definition interface_typ (t : object_type) : interface_type :=
  match t with NBDevice => NBInterface | NBVM => NBVMInterface end.

(** [objects_with_matching_macs]: a [dict] from object to number of
    matching interfaces, in insertion order. Lines 321-324 on it: *)
Fixpoint tally_add (obj : nat) (tally : list (nat * nat)) : list (nat * nat) :=
  match tally with
  | [] => [(obj, 1)]
  | (key, count) :: rest =>
      if bool_decide (key = obj) then (key, count + 1) :: rest
      else (key, count) :: tally_add obj rest
  end.

(** The two variables the loop of lines 309-324 assigns. [matching_object]
    is [None] when its value is no [NBDevice] or [NBVM] object, which is all
    the code asks of it after the loop. *)
Record mac_scan := MacScan {
  objects_with_matching_macs : list (nat * nat);
  matching_object : option nat
}.

Definition mac_in_list (mac : option string) (mac_list : list string) : bool :=
  match mac with
  | Some mac => bool_decide (mac ∈ mac_list)
  | None => false
  end.

Definition mac_step (mac_list : list string) (st : mac_scan) (interface : interface_object)
  : mac_scan :=
  if mac_in_list (mac_address interface) mac_list then
    match owner interface with
    | None => (* not isinstance(matching_object, (NBDevice, NBVM)): continue *)
        MacScan (objects_with_matching_macs st) None
    | Some obj => MacScan (tally_add obj (objects_with_matching_macs st)) (Some obj)
    end
  else st.

(** [sorted(objects_with_matching_macs, key=objects_with_matching_macs.get,
    reverse=True)]: descending by count; a stable sort, and [reverse=True]
    keeps the original order of entries with equal counts. *)
Fixpoint insert_desc (x : nat * nat) (l : list (nat * nat)) : list (nat * nat) :=
  match l with
  | [] => [x]
  | y :: rest => if (snd x <? snd y)%nat then y :: insert_desc x rest else x :: y :: rest
  end.

Definition sorted_desc (l : list (nat * nat)) : list (nat * nat) :=
  foldr insert_desc [] l.

(** [first_choice_matches / second_choice_matches]: true division. The
    quotient of two tallies is taken exactly here; Python rounds it to a
    double, which decides [>= 2.0] the same way for tallies below 2^53. *)
Definition matching_ration (first_choice_matches second_choice_matches : nat) : Q :=
  (inject_Z (Z.of_nat first_choice_matches) / inject_Z (Z.of_nat second_choice_matches))%Q.

Definition mac_scan_result (inv : NetBoxInventory) (t : object_type) (mac_list : list string)
  : mac_scan :=
  fold_left (mac_step mac_list) (get_all_interfaces inv (interface_typ t)) (MacScan [] None).

Definition get_object_based_on_macs (inv : NetBoxInventory) (t : object_type)
    (mac_list : list string) : option nat :=
  match mac_list with
  | [] => None
  | _ =>
      let st := mac_scan_result inv t mac_list in
      let objects_with_matching_macs := objects_with_matching_macs st in
      (* try to find object based on amount of matching MAC addresses *)
      let num_devices_witch_matching_macs := length objects_with_matching_macs in
      if bool_decide (num_devices_witch_matching_macs = 1) && bool_decide (is_Some (matching_object st))
      then fst <$> head objects_with_matching_macs
      else if bool_decide (1 < num_devices_witch_matching_macs) then
        (* now select the two top matches *)
        match sorted_desc objects_with_matching_macs with
        | (first_choice, first_choice_matches) :: (second_choice, second_choice_matches) :: _ =>
            (* only pick the first one if the ration exceeds 2 *)
            if Qle_bool 2 (matching_ration first_choice_matches second_choice_matches)
            then Some first_choice
            else None
        | _ => None
        end
      else None
  end.

(** [objects_with_matching_macs.get(obj)], with 0 for [None]. *)
Fixpoint tally_get (obj : nat) (tally : list (nat * nat)) : nat :=
  match tally with
  | [] => 0
  | (key, count) :: rest => if bool_decide (key = obj) then count else tally_get obj rest
  end.

(** The number of interfaces that carry a MAC of the list and are owned by
    the object [obj]: the tally of [obj], whatever the order of the scan. *)
Definition mac_tally (mac_list : list string) (scanned : list interface_object) (obj : nat) : nat :=
  length (List.filter (fun interface => mac_in_list (mac_address interface) mac_list
                                        && bool_decide (owner interface = Some obj)) scanned).

(** Every interface that carries a MAC of the list belongs to an object. *)
Definition matches_are_owned (mac_list : list string) (scanned : list interface_object) : Prop :=
  forall interface, interface ∈ scanned ->
    mac_in_list (mac_address interface) mac_list = true -> is_Some (owner interface).

(** ** PrimaryIPArbiter: lines 654-688 of [add_device_vm_to_inventory] *)

(** The inner loop of lines 665-676 over the objects of one class. *)
Definition unset_on_others (v : ip_version) (ip_object : ip_address_object)
    (device_vm_object : nat) (items : list managed_object) : list managed_object :=
  List.map (fun devices_vms =>
              let this_primary_ip := primary_ip v devices_vms in
              (* we found this exact object *)
              if bool_decide (oid devices_vms = device_vm_object) then devices_vms
              (* device has the same object assigned *)
              else if bool_decide (this_primary_ip = Some (PipObject (ip_oid ip_object)))
                   then unset_primary_ip v devices_vms
                   else devices_vms) items.

(** The outer loop of lines 659-676 over [[NBDevice, NBVM]], which a new IP
    leaves at once ([break]). *)
Fixpoint unset_scan (types : list object_type) (v : ip_version)
    (ip_object : ip_address_object) (device_vm_object : nat) (inv : NetBoxInventory)
  : NetBoxInventory :=
  match types with
  | [] => inv
  | object_type :: rest =>
      (* new IPs don't need to be removed from other devices/VMs *)
      if is_new ip_object then inv
      else unset_scan rest v ip_object device_vm_object
             (set_all_items inv object_type
                (unset_on_others v ip_object device_vm_object (get_all_items inv object_type)))
  end.

(** The object a reference denotes, and [grab(device_vm_object, ...)] on it. *)
Definition all_objects (inv : NetBoxInventory) : list managed_object :=
  devices inv ++ vms inv.

Definition get_object (inv : NetBoxInventory) (o : nat) : option managed_object :=
  List.find (fun obj => bool_decide (oid obj = o)) (all_objects inv).

(** [device_vm_object.update(data={f"primary_ip{v}": ip_object})] (line 688) *)
Definition update_entity_primary_ip (v : ip_version) (device_vm_object : nat)
    (ip_object : ip_address_object) (inv : NetBoxInventory) : NetBoxInventory :=
  Inventory (update_primary_ip v device_vm_object ip_object (devices inv))
            (update_primary_ip v device_vm_object ip_object (vms inv))
            (interfaces inv) (vm_interfaces inv) (ip_addresses inv).

(** Lines 654-688. [set_primary_ip] is the setting [self.settings.set_primary_ip];
    the result is the inventory after the step and what the step logged. *)
Definition arbitrate_primary_ip (set_primary_ip : string) (inv : NetBoxInventory)
    (device_vm_object : nat) (ip_object : ip_address_object) (v : ip_version)
  : NetBoxInventory * list log_record :=
  (* set/update/remove primary IP addresses *)
  let '(inv, set_this_primary_ip) :=
    if bool_decide (set_primary_ip = "always") then
      (unset_scan [NBDevice; NBVM] v ip_object device_vm_object inv, true)
    else if bool_decide (set_primary_ip <> "never")
            && bool_decide (get_object inv device_vm_object ≫= primary_ip v = None)
         then (inv, true)
         else (inv, false) in
  if set_this_primary_ip : bool then
    (update_entity_primary_ip v device_vm_object ip_object inv,
     [LogRecord DEBUG ("Setting IP '" +:+ default "None" (ip_address ip_object)
                       +:+ "' as primary IPv" +:+ (match v with IPv4 => "4" | IPv6 => "6" end)
                       +:+ " for '"
                       +:+ default "" (name_of <$> get_object inv device_vm_object) +:+ "'")])
  else (inv, []).

(** The slot of the object holds the IP address object itself. *)
Definition holds_primary_ip (v : ip_version) (ip : nat) (obj : managed_object) : bool :=
  bool_decide (primary_ip v obj = Some (PipObject ip)).

(** The IP address object a slot value refers to, in each of the forms a
    slot can hold (lines 388-393 and 688): the object itself, the object
    with that NetBox id, or, for an embedded [dict], the object with its
    ["address"]. *)
Definition referenced_ip (inv : NetBoxInventory) (value : primary_ip_value) : option nat :=
  match value with
  | PipObject ip => Some ip
  | PipId nb_id => ip_oid <$> get_by_id inv nb_id
  | PipDict address =>
      address ≫= fun address =>
        ip_oid <$> List.find (fun ip => bool_decide (ip_address ip = Some address))
                             (ip_addresses inv)
  end.

Definition references_primary_ip (inv : NetBoxInventory) (v : ip_version) (ip : nat)
    (obj : managed_object) : bool :=
  bool_decide (primary_ip v obj ≫= referenced_ip inv = Some ip).

(** The managed objects that reference a given IP address object as their
    primary IP of a given version, in any form. *)
Definition referrers (v : ip_version) (ip : nat) (inv : NetBoxInventory) : list nat :=
  oid <$> List.filter (references_primary_ip inv v ip) (all_objects inv).

(** Exclusive ownership of primary IPs: at most one managed object
    references a given IP address object as primary IPv4, and at most one
    as primary IPv6. *)
Definition exclusive_primary_ips (inv : NetBoxInventory) : Prop :=
  forall (v : ip_version) (ip : nat), length (referrers v ip inv) <= 1.

(** The managed objects other than [entity] reference the IP address
    objects of [ips] by holding the object itself, if at all: the form in
    which line 688 assigns a primary IP. *)
Definition others_hold_objects (entity : nat) (ips : list (option ip_address_object))
    (inv : NetBoxInventory) : Prop :=
  forall obj v ip_object,
    obj ∈ all_objects inv -> oid obj <> entity -> Some ip_object ∈ ips ->
    references_primary_ip inv v (ip_oid ip_object) obj = true ->
    holds_primary_ip v (ip_oid ip_object) obj = true.

(** What arbitration under [always] makes of one object. *)
Definition always_outcome (v : ip_version) (ip_object : ip_address_object)
    (entity : nat) (obj : managed_object) : managed_object :=
  if bool_decide (oid obj = entity)
  then set_primary_ip_field v (Some (PipObject (ip_oid ip_object))) obj
  else if negb (is_new ip_object) && holds_primary_ip v (ip_oid ip_object) obj
       then set_primary_ip_field v None obj
       else obj.

(** What setting the slot of the entity, and nothing else, makes of one object. *)
Definition assign_outcome (v : ip_version) (ip_object : ip_address_object)
    (entity : nat) (obj : managed_object) : managed_object :=
  if bool_decide (oid obj = entity)
  then set_primary_ip_field v (Some (PipObject (ip_oid ip_object))) obj
  else obj.

(** ** Python values, dictionaries and exceptions *)

(** The data handed to the inventory ([object_data], interface data) are
    nested [dict]s of strings, numbers, lists and object references. *)
#[warnings="-register-all"]
Inductive value :=
| VNone
| VBool (b : bool)
| VInt (z : Z)
| VStr (s : string)
| VList (items : list value)
| VDict (entries : list (string * value))
| VObject (o : nat).

(** A [dict] with string keys that is iterated: an association list in
    insertion order, the keys distinct. *)
Definition dict (V : Type) : Type := list (string * V).

(** [d.get(key)] *)
Fixpoint dict_get {V} (key : string) (d : dict V) : option V :=
  match d with
  | [] => None
  | (k, v) :: rest => if bool_decide (k = key) then Some v else dict_get key rest
  end.

(** [d[key] = v]: a present key keeps its place, a new one goes last. *)
Fixpoint dict_set {V} (key : string) (v : V) (d : dict V) : dict V :=
  match d with
  | [] => [(key, v)]
  | (k, w) :: rest =>
      if bool_decide (k = key) then (k, v) :: rest else (k, w) :: dict_set key v rest
  end.

(** [{**a, **b}] *)
Definition dict_merge {V} (a b : dict V) : dict V :=
  fold_left (fun acc kv => dict_set (fst kv) (snd kv) acc) b a.

(** [{"name": n}] *)
Definition named (n : string) : value := VDict [("name", VStr n)].

(** [data[key] = v] when an optional value is present (the [if x is not None]
    guards around the assignments). *)
Definition dict_set_some (key : string) (v : option value) (d : dict value) : dict value :=
  match v with Some v => dict_set key v d | None => d end.

Inductive exception :=
| ValueError (what : string)
| KeyError (key : string).

Inductive outcome (A : Type) :=
| Returned (a : A)
| Raised (e : exception).
Arguments Returned {A} _.
Arguments Raised {A} _.

(** ** State and exceptions

    A method is a function from the state it may touch to its outcome and
    the state it leaves. An exception ends the method and keeps the state
    reached. *)
Definition M (S A : Type) : Type := S -> outcome A * S.

#[global] Instance M_ret {S} : MRet (M S) := fun A a s => (Returned a, s).

#[global] Instance M_bind {S} : MBind (M S) := fun A B f m s =>
  match m s with
  | (Returned a, s') => f a s'
  | (Raised e, s') => (Raised e, s')
  end.

Definition raise {S A} (e : exception) : M S A := fun s => (Raised e, s).

Definition get_state {S} : M S S := fun s => (Returned s, s).

Definition put_state {S} (s : S) : M S unit := fun _ => (Returned tt, s).

(** A [for] loop whose body can raise. *)
Fixpoint for_each {S A B} (body : B -> A -> M S B) (items : list A) (acc : B) : M S B :=
  match items with
  | [] => mret acc
  | item :: rest => acc ← body acc item; for_each body rest acc
  end.

(** What [add_device_vm_to_inventory] and the collaborators touch: the
    inventory and the log. *)
Record Store := MkStore {
  inventory : NetBoxInventory;
  log : list log_record
}.

Definition write_log (l : log_level) (msg : string) : M Store unit :=
  fun st => (Returned tt, MkStore (inventory st) (log st ++ [LogRecord l msg])).

(** The result of a function that returns its log beside its value. *)
Definition logged {A} (r : A * list log_record) : M Store A :=
  fun st => (Returned (fst r), MkStore (inventory st) (log st ++ snd r)).

Definition get_inventory : M Store NetBoxInventory :=
  fun st => (Returned (inventory st), st).

Definition put_inventory (inv : NetBoxInventory) : M Store unit :=
  fun st => (Returned tt, MkStore inv (log st)).

(** ** Collaborators

    What this file uses of classes that are not part of it. Each field is
    documented by the call it stands for. *)

(** The result of [ipaddress.ip_interface]: two interfaces are equal when
    version, address and prefix length are. *)
Record IPInterface := MkIPInterface {
  interface_version : ip_version;
  interface_ip : string;
  interface_prefixlen : nat
}.

#[global] Instance IPInterface_eq_dec : EqDecision IPInterface.
Proof. solve_decision. Defined.

(** A hypervisor record of the source. Optional fields are the values
    after [get_string_or_none]; a record always carries a name. *)
Record Hypervisor := MkHypervisor {
  hv_name : string;
  hv_service_host : option string;   (* service_details["host"] *)
  hypervisor_type : option string;
  hypervisor_version : option string;
  hv_status : option string;
  host_ip : string
}.

Class Collaborators := {
  (** [self.inventory.get_by_data(object_type, data=object_data)] *)
  get_by_data : NetBoxInventory -> object_type -> dict value -> option nat;
  (** [self.inventory.add_object(object_type, data=object_data, source=self)] *)
  add_object : NetBoxInventory -> object_type -> dict value -> NetBoxInventory * nat;
  (** [obj.update(data=..., source=self)] for data other than a primary IP *)
  update : NetBoxInventory -> nat -> dict value -> NetBoxInventory;
  (** [self.map_object_interfaces_to_current_interfaces(obj, nic_data)] *)
  map_object_interfaces_to_current_interfaces :
    NetBoxInventory -> nat -> dict (dict value) -> dict nat;
  (** [self.add_update_interface(interface_object, device_object,
      interface_data, interface_ips)], returning the interface object and
      the IP address objects *)
  add_update_interface :
    NetBoxInventory -> option nat -> nat -> dict value -> list string ->
    NetBoxInventory * (option nat * list (option ip_address_object));
  (** [self.return_longest_matching_prefix_for_ip(ip, site_name)], and of
      the prefix found [.data["prefix"].prefixlen] *)
  return_longest_matching_prefix_for_ip :
    NetBoxInventory -> IPInterface -> option string -> option nat;
  (** [self.add_update_custom_field(data)], and of the field found
      [grab(custom_field, "data.name")] *)
  add_update_custom_field : NetBoxInventory -> dict value -> NetBoxInventory * option string;
  (** [version.parse(self.inventory.netbox_api_version) >= version.parse("3.3.0")] *)
  netbox_since_3_3_0 : NetBoxInventory -> bool;
  (** [self.settings.permitted_subnets.permitted(ip, interface_name=...) is True] *)
  permitted : string -> string -> bool;
  (** [ip_interface(text)]; [None] stands for the [ValueError] it raises *)
  ip_interface : string -> option IPInterface;
  (** [normalize_mac_address(text)] *)
  normalize_mac_address : string -> string;
  (** [urllib.parse.unquote(text)] *)
  unquote : string -> string;
  (** [log.level == DEBUG3], for the logger of the module *)
  log_level_is_DEBUG3 : bool;
  (** [f"{object_type}"], the text of a class *)
  object_type_text : object_type -> string;
  (** [obj.get_display_name(including_second_key=True)] *)
  get_display_name : NetBoxInventory -> nat -> string;
  (** [dump(obj.service_details.to_dict())], which prints; [Some e] is the
      text of the exception it raised *)
  dump_service_details : Hypervisor -> option string
}.

(** ** The handler: settings, source records, state *)

(** [self.settings], as far as the methods below read it. *)
Record Settings (R : Type) := MkSettings {
  strip_host_domain_name : bool;
  strip_vm_domain_name : bool;
  set_vm_name_to_uuid : bool;
  skip_vm_platform : bool;
  skip_vm_comments : bool;
  host_include_filter : option R;
  host_exclude_filter : option R;
  vm_include_filter : option R;
  vm_exclude_filter : option R;
  relations : gmap string (list (relation_rule R));
  set_primary_ip : string
}.
Arguments MkSettings {R}.
Arguments strip_host_domain_name {R}.
Arguments strip_vm_domain_name {R}.
Arguments set_vm_name_to_uuid {R}.
Arguments skip_vm_platform {R}.
Arguments skip_vm_comments {R}.
Arguments host_include_filter {R}.
Arguments host_exclude_filter {R}.
Arguments vm_include_filter {R}.
Arguments vm_exclude_filter {R}.
Arguments relations {R}.
Arguments set_primary_ip {R}.

(** One entry of [server.addresses[network]]. *)
Record Address := MkAddress {
  addr : string;
  version : Z;
  mac_addr : string                  (* ["OS-EXT-IPS-MAC:mac_addr"] *)
}.

(** A server record of the source; [addresses] in the order [.items()]
    gives the networks. *)
Record Server := MkServer {
  sv_name : string;
  sv_id : string;
  sv_status : option string;
  availability_zone : option string;
  flavor_original_name : option string;
  flavor_vcpus : Z;
  flavor_ram : Z;
  attached_volumes : list string;    (* the ["id"] of each *)
  addresses : dict (list Address)
}.

Record Volume := MkVolume { vol_id : string; vol_size : Z }.

(** The attributes of [self] the methods read and write. The processed-name
    registries, the permitted clusters, the volume map and the object cache
    are only looked up by key. *)
Record OpenStackHandler (R : Type) := MkHandler {
  settings : Settings R;
  source_name : string;                           (* self.name *)
  site_name : string;                             (* self.site_name *)
  permitted_clusters : gmap string string;
  cluster_host_map : dict (list string);
  volume_map : gmap string Z;
  processed_host_names : gmap string (list string);
  processed_vm_names : gmap string (list string);
  object_cache : gmap string (gmap string nat);
  store : Store                                   (* self.inventory and the log *)
}.
Arguments MkHandler {R}.
Arguments settings {R}.
Arguments source_name {R}.
Arguments site_name {R}.
Arguments permitted_clusters {R}.
Arguments cluster_host_map {R}.
Arguments volume_map {R}.
Arguments processed_host_names {R}.
Arguments processed_vm_names {R}.
Arguments object_cache {R}.
Arguments store {R}.

Definition with_store {R} (self : OpenStackHandler R) (st : Store) : OpenStackHandler R :=
  MkHandler (settings self) (source_name self) (site_name self) (permitted_clusters self)
            (cluster_host_map self) (volume_map self) (processed_host_names self)
            (processed_vm_names self) (object_cache self) st.

Definition with_processed_host_names {R} (self : OpenStackHandler R)
    (names : gmap string (list string)) : OpenStackHandler R :=
  MkHandler (settings self) (source_name self) (site_name self) (permitted_clusters self)
            (cluster_host_map self) (volume_map self) names
            (processed_vm_names self) (object_cache self) (store self).

Definition with_processed_vm_names {R} (self : OpenStackHandler R)
    (names : gmap string (list string)) : OpenStackHandler R :=
  MkHandler (settings self) (source_name self) (site_name self) (permitted_clusters self)
            (cluster_host_map self) (volume_map self) (processed_host_names self)
            names (object_cache self) (store self).

Definition with_volume_map {R} (self : OpenStackHandler R)
    (volumes : gmap string Z) : OpenStackHandler R :=
  MkHandler (settings self) (source_name self) (site_name self) (permitted_clusters self)
            (cluster_host_map self) volumes (processed_host_names self)
            (processed_vm_names self) (object_cache self) (store self).

(** A method that touches the inventory and the log only, run on [self]. *)
Definition on_store {R A} (m : M Store A) : M (OpenStackHandler R) A :=
  fun self => let '(r, st) := m (store self) in (r, with_store self st).

(** [registry[key].append(name)], after [registry[key] = list()] for a new key
    (lines 876-880 and 1023-1027). *)
Definition registry_append (key name : string) (registry : gmap string (list string))
  : gmap string (list string) :=
  <[key := default [] (registry !! key) ++ [name]]> registry.

(** [name in registry.get(key, list())] *)
Definition registry_has (key name : string) (registry : gmap string (list string)) : bool :=
  bool_decide (name ∈ default [] (registry !! key)).

(** [get_cluster_for_host] (lines 476-480) *)
Definition get_cluster_for_host (cluster_host_map : dict (list string))
    (hostname : option string) : option string :=
  fst <$> List.find (fun entry => match hostname with
                                  | Some hostname => bool_decide (hostname ∈ snd entry)
                                  | None => false
                                  end) cluster_host_map.

(** [obj_type.__class__.__name__] of lines 699 and 715: the argument is a
    class, so this is the name of its metaclass, the same for every class. *)
Definition vm_class_name : string := "type".

(** [get_object_from_cache] (lines 708-722) *)
Definition get_object_from_cache (cache : gmap string (gmap string nat)) (key : string)
  : option nat :=
  cache !! vm_class_name ≫= fun objects => objects !! key.

(** ** The handler: [get_site_name] and [add_device_vm_to_inventory] *)

(** The classes [get_site_name] accepts; for any other it raises. *)
Inductive site_object_type := SiteNBCluster | SiteNBDevice.

(** The relations read below are named by constants, so whether the result
    of [get_object_relation] is a list or a name is known at each call. *)
Definition as_name (v : relation_value) : option string :=
  match v with RelName n => n | RelList _ => None end.

Definition as_list (v : relation_value) : list string :=
  match v with RelList l => l | RelName _ => [] end.

(** [x.get("mac_address")] of an interface [dict], [None] when absent. *)
Definition mac_of (interface_data : dict value) : option string :=
  match dict_get "mac_address" interface_data with
  | Some (VStr mac) => Some mac
  | _ => None
  end.

(** [object_data.get(object_type.primary_key)]; the primary key of both
    classes is ["name"], which every [object_data] built below has. *)
Definition object_name_of (object_data : dict value) : string :=
  match dict_get "name" object_data with
  | Some (VStr n) => n
  | _ => ""
  end.

Definition type_name (t : object_type) : string :=
  match t with NBDevice => "device" | NBVM => "virtual machine" end.

Section Handler.
Context {R : Type} `{RegexObject R} `{Collaborators}.

(** [get_site_name] (lines 225-264), with the log it writes. The call
    [self.get_site_name(NBCluster, cluster_name)] of line 255 is
    [cluster_site cluster_name]. *)
Definition get_site_name (settings : Settings R) (default_site : string)
    (object_type : site_object_type) (object_name cluster_name : string)
  : string * list log_record :=
  let cluster_site (object_name : string) : string * list log_record :=
    let trying := LogRecord DEBUG2 ("Trying to find site name for cluster '" +:+ object_name +:+ "'") in
    let '(site_name, lg) :=
      get_object_relation (relations settings) object_name "cluster_site_relation" None in
    match as_name site_name with
    | Some site_name => (site_name, trying :: lg)
    | None =>
        (* set default site name *)
        (default_site,
         trying :: lg ++ [LogRecord DEBUG ("No site relation for '" +:+ object_name
                                           +:+ "' found, using default site '" +:+ default_site +:+ "'")])
    end in
  match object_type with
  | SiteNBCluster => cluster_site object_name
  | SiteNBDevice =>
      let trying := LogRecord DEBUG2 ("Trying to find site name for device '" +:+ object_name +:+ "'") in
      let '(site_name, lg) :=
        get_object_relation (relations settings) object_name "host_site_relation" None in
      match as_name site_name with
      | Some site_name => (site_name, trying :: lg)
      | None =>
          let '(site_name, lg_cluster) := cluster_site cluster_name in
          (site_name,
           trying :: lg ++ lg_cluster
           ++ [LogRecord DEBUG2 ("Found a matching cluster site for " +:+ object_name
                                 +:+ ", using site '" +:+ site_name +:+ "'")])
      end
  end.

(** Lines 643-688: the IP address objects of one interface. *)
Definition set_primary_ips (settings : Settings R) (device_vm_object : nat)
    (primary_ipv4_object primary_ipv6_object : option IPInterface)
    (ip_address_objects : list (option ip_address_object)) : M Store unit :=
  for_each (fun _ ip_object =>
    match ip_object with
    | None => mret tt
    | Some ip_object =>
        match ip_address ip_object ≫= ip_interface with
        | None => raise (ValueError (default "None" (ip_address ip_object)))
        | Some ip_interface_object =>
            (* continue if address is not a primary IP *)
            if bool_decide (Some ip_interface_object = primary_ipv4_object
                            \/ Some ip_interface_object = primary_ipv6_object)
            then
              inv ← get_inventory;
              let '(inv, lg) :=
                arbitrate_primary_ip (set_primary_ip settings) inv device_vm_object ip_object
                                     (interface_version ip_interface_object) in
              put_inventory inv;; logged (tt, lg)
            else mret tt
        end
    end) ip_address_objects tt.

(** Lines 636-688: the loop over the interfaces. *)
Definition add_interfaces (settings : Settings R) (device_vm_object : nat)
    (nic_object_dict : dict nat) (nic_data : dict (dict value)) (nic_ips : dict (list string))
    (primary_ipv4_object primary_ipv6_object : option IPInterface) : M Store unit :=
  for_each (fun _ nic =>
    let '(int_name, int_data) := nic in
    (* add/update interface with retrieved data *)
    inv ← get_inventory;
    let '(inv, (nic_object, ip_address_objects)) :=
      add_update_interface inv (dict_get int_name nic_object_dict) device_vm_object int_data
                           (default [] (dict_get int_name nic_ips)) in
    put_inventory inv;;
    (* add all interface IPs *)
    set_primary_ips settings device_vm_object primary_ipv4_object primary_ipv6_object
                    ip_address_objects) nic_data tt.

(** Lines 624-634: a primary IP that does not parse is logged and dropped. *)
Definition parse_primary_ip (family : string) (p_ip : option string) : M Store (option IPInterface) :=
  match p_ip with
  | None => mret None
  | Some text =>
      match ip_interface text with
      | Some parsed => mret (Some parsed)
      | None =>
          write_log ERROR ("Primary " +:+ family +:+ " (" +:+ text +:+ ") does not appear to be "
                           +:+ "a valid IP address (needs included suffix).");;
          mret None
      end
  end.

(** [add_device_vm_to_inventory] (lines 482-690). [pnic_data] is read for
    [NBDevice] only. What [pprint.pprint] prints at level [DEBUG3] goes to
    the standard output, not to the log. *)
Definition add_device_vm_to_inventory (settings : Settings R) (object_type : object_type)
    (object_data : dict value) (pnic_data vnic_data : dict (dict value))
    (nic_ips : dict (list string)) (p_ipv4 p_ipv6 : option string) : M Store unit :=
  (if log_level_is_DEBUG3 then
     write_log DEBUG3 "function: add_device_vm_to_inventory";;
     write_log DEBUG3 ("Object type " +:+ object_type_text object_type)
   else mret tt);;
  (* check existing Devices for matches *)
  write_log DEBUG2 ("Trying to find a " +:+ type_name object_type
                    +:+ " based on the collected name, cluster, IP and MAC addresses");;
  inv ← get_inventory;
  device_vm_object ←
    match get_by_data inv object_type object_data with
    | Some found =>
        write_log DEBUG2 ("Found a exact matching " +:+ type_name object_type +:+ " object: "
                          +:+ get_display_name inv found);;
        mret (Some found)
    | None =>
        (* keep searching if no exact match was found *)
        write_log DEBUG2 ("No exact match found. Trying to find " +:+ type_name object_type
                          +:+ " based on MAC addresses");;
        (* on VMs vnic data is used, on physical devices pnic data is used *)
        let mac_source_data := if bool_decide (object_type = NBVM) then vnic_data else pnic_data in
        let nic_macs := omap (fun x => mac_of (snd x)) mac_source_data in
        mret (get_object_based_on_macs inv object_type nic_macs)
    end;
  device_vm_object ←
    match device_vm_object with
    | Some found =>
        write_log DEBUG2 ("Found a matching " +:+ type_name object_type +:+ " object: "
                          +:+ get_display_name inv found);;
        mret (Some found)
    | None =>
        (* keep looking for devices with the same primary IP *)
        write_log DEBUG2 ("No match found. Trying to find " +:+ type_name object_type
                          +:+ " based on primary IP addresses");;
        mret (oid <$> get_object_based_on_primary_ip inv object_type p_ipv4 p_ipv6)
    end;
  let object_name := object_name_of object_data in
  device_vm_object ←
    match device_vm_object with
    | None =>
        write_log DEBUG ("No existing " +:+ type_name object_type +:+ " object for " +:+ object_name
                         +:+ ". Creating a new " +:+ type_name object_type +:+ ".");;
        let '(inv, created) := add_object inv object_type object_data in
        put_inventory inv;; mret created
    | Some found => put_inventory (update inv found object_data);; mret found
    end;
  (* update role according to config settings *)
  role_name ← logged (get_object_relation (relations settings) object_name
                        (match object_type with
                         | NBDevice => "host_role_relation"
                         | NBVM => "vm_role_relation"
                         end) None);
  let role_name := as_name role_name in
  inv ← get_inventory;
  match object_type with
  | NBDevice =>
      put_inventory (update inv device_vm_object
                       [("device_role", named (default "Server" role_name))])
  | NBVM =>
      match role_name with
      | Some role_name => put_inventory (update inv device_vm_object [("role", named role_name)])
      | None => mret tt
      end
  end;;
  (* compile all nic data into one dictionary *)
  let nic_data :=
    match object_type with
    | NBVM => vnic_data
    | NBDevice => dict_merge pnic_data vnic_data
    end in
  (* map interfaces of existing object with discovered interfaces *)
  inv ← get_inventory;
  let nic_object_dict := map_object_interfaces_to_current_interfaces inv device_vm_object nic_data in
  (match dict_get "status" object_data, nic_ips with
   | Some (VStr "active"), [] => write_log DEBUG ("No IP addresses for '" +:+ object_name +:+ "' found!")
   | _, _ => mret tt
   end);;
  primary_ipv4_object ← parse_primary_ip "IPv4" p_ipv4;
  primary_ipv6_object ← parse_primary_ip "IPv6" p_ipv6;
  add_interfaces settings device_vm_object nic_object_dict nic_data nic_ips
                 primary_ipv4_object primary_ipv6_object.

End Handler.

(** ** The handler: [add_host], [add_volume], [add_virtual_machine] *)

(** The local variables of the loop over [obj.addresses] (lines 1098-1134). *)
Record vm_locals := VmLocals {
  vm_primary_ip4 : option string;
  vm_primary_ip6 : option string;
  vm_nic_dict : dict (dict value);
  vm_nic_ips : dict (list string);      (* nic_ips *)
  vm_count : nat                        (* count *)
}.

Section Orchestrator.
Context {R : Type} `{RegexObject R} `{Collaborators}.

Definition modify_self (f : OpenStackHandler R -> OpenStackHandler R)
  : M (OpenStackHandler R) unit :=
  fun self => (Returned tt, f self).

(** [f"{ip_addr}/{prefix}"] when a prefix was found (lines 947-951 and
    1109-1116); the [sites] are tried in order. *)
Definition with_prefix_length (inv : NetBoxInventory) (ip_addr : string) (parsed : IPInterface)
    (sites : list (option string)) : string :=
  let matched_prefix :=
    List.fold_left (fun found site =>
                      match found with
                      | Some prefix => Some prefix
                      | None => return_longest_matching_prefix_for_ip inv parsed site
                      end) sites None in
  match matched_prefix with
  | Some prefix => ip_addr +:+ "/" +:+ pretty prefix
  | None => ip_addr
  end.

(** Lines 882-963 of [add_host]: from the name filter on, the method reads
    [self] and touches the inventory and the log only. *)
Definition host_pipeline (self : OpenStackHandler R) (obj : Hypervisor)
    (name site_name : string) (nb_cluster_object : option nat) : M Store unit :=
  (* filter hosts by name *)
  passes ← logged (passes_filter name (host_include_filter (settings self))
                                 (host_exclude_filter (settings self)));
  if negb passes then mret tt else
  (* collect all necessary data *)
  let manufacturer := "Generic Vendor" in
  let model := "Generic Model" in
  let product_name := hypervisor_type obj in
  let product_version := hypervisor_version obj in
  let platform := default "None" product_name +:+ " " +:+ default "None" product_version in
  (* get status *)
  let status := if bool_decide (hv_status obj = Some "enabled") then "active" else "offline" in
  (* get host_tenant_relation *)
  tenant_name ← logged (get_object_relation (relations (settings self)) name
                                            "host_tenant_relation" None);
  let tenant_name := as_name tenant_name in
  (* get host_tag_relation *)
  host_tags ← logged (get_object_relation (relations (settings self)) name
                                          "host_tag_relation" None);
  let host_tags := as_list host_tags in
  (* prepare host data model *)
  let host_data : dict value :=
    [("name", VStr name);
     ("device_type", VDict [("model", VStr model); ("manufacturer", named manufacturer)]);
     ("site", named site_name);
     ("cluster", from_option VObject VNone nb_cluster_object);
     ("status", VStr status)] in
  (* add data if present *)
  let host_data := dict_set "platform" (named platform) host_data in
  let host_data := dict_set_some "tenant" (named <$> tenant_name) host_data in
  let host_data :=
    match host_tags with
    | [] => host_data
    | _ => dict_set "tags" (VList (VStr <$> host_tags)) host_data
    end in
  let pnic_data : dict value :=
    [("name", VStr "eth0"); ("device", VNone); ("enabled", VBool true); ("type", VStr "10gbase-t")] in
  let pnic_data_dict : dict (dict value) := [("eth0", pnic_data)] in
  let ip_addr := host_ip obj in
  match ip_interface ip_addr with
  | None => raise (ValueError ip_addr)
  | Some parsed =>
      inv ← get_inventory;
      let ip_addr := with_prefix_length inv ip_addr parsed [None] in
      let vnic_ips : dict (list string) := [("eth0", [ip_addr])] in
      let host_primary_ip4 := Some ip_addr in
      let host_primary_ip6 := None in
      (* add host to inventory *)
      add_device_vm_to_inventory (settings self) NBDevice host_data pnic_data_dict []
                                 vnic_ips host_primary_ip4 host_primary_ip6
  end.

(** Lines 854-859 of [add_host]: what is logged at level [DEBUG3] once the
    cluster of the host is known. *)
Definition cluster_data_log (obj : Hypervisor) : list log_record :=
  if log_level_is_DEBUG3 then
    LogRecord INFO "Cluster data"
    :: match dump_service_details obj with
       | Some e => [LogRecord ERROR e]
       | None => []
       end
  else [].

(** [add_host] (lines 815-965) *)
Definition add_host (obj : Hypervisor) : M (OpenStackHandler R) unit :=
  self ← get_state;
  let name := hv_name obj in
  let name := if strip_host_domain_name (settings self) then split_first "." name else name in
  (* parse data *)
  on_store (write_log DEBUG ("Parsing Openstack host: " +:+ name));;
  (* manage site and cluster *)
  let short_name := hv_service_host obj in
  match get_cluster_for_host (cluster_host_map self) short_name with
  | None =>
      on_store (write_log ERROR ("Requesting cluster for host '" +:+ name +:+ "' failed. Skipping."))
  | Some cluster_name =>
      on_store (logged (tt, cluster_data_log obj));;
      match permitted_clusters self !! cluster_name with
      | None =>
          on_store (write_log DEBUG ("Host '" +:+ name
                                     +:+ "' is not part of a permitted cluster. Skipping"))
      | Some _ =>
          (* get cluster object *)
          let nb_cluster_object := get_object_from_cache (object_cache self) cluster_name in
          (* get a site for this host *)
          site_name ← on_store (logged (get_site_name (settings self) (site_name self)
                                                      SiteNBDevice name cluster_name));
          if registry_has site_name name (processed_host_names self) then
            on_store (write_log WARNING
                        ("Host '" +:+ name +:+ "' for site '" +:+ site_name
                         +:+ "' already parsed. Make sure to use unique host names. Skipping"))
          else
            (* add host to processed list *)
            modify_self (fun self => with_processed_host_names self
                           (registry_append site_name name (processed_host_names self)));;
            on_store (host_pipeline self obj name site_name nb_cluster_object)
      end
  end.

(** [add_volume] (lines 967-975) *)
Definition add_volume (obj : Volume) : M (OpenStackHandler R) unit :=
  modify_self (fun self => with_volume_map self (<[vol_id obj := vol_size obj]> (volume_map self))).

(** Lines 1107-1134: one address of one network. *)
Definition address_step (name site_name network : string) (loc : vm_locals) (address : Address)
  : M Store vm_locals :=
  let ip_addr := addr address in
  match ip_interface ip_addr with
  | None => raise (ValueError ip_addr)
  | Some parsed =>
      inv ← get_inventory;
      let ip_addr := with_prefix_length inv ip_addr parsed [Some site_name; None] in
      let nic_ips :=
        dict_set network (default [] (dict_get network (vm_nic_ips loc)) ++ [ip_addr])
                 (vm_nic_ips loc) in
      let vm_primary_ip4 :=
        if bool_decide (version address = 4%Z) then Some ip_addr else vm_primary_ip4 loc in
      let vm_primary_ip6 :=
        if bool_decide (version address = 6%Z) then Some ip_addr else vm_primary_ip6 loc in
      let full_name := unquote ("vNIC" +:+ pretty (vm_count loc) +:+ " (" +:+ network +:+ ")") in
      let vm_nic_data : dict value :=
        [("name", VStr full_name);
         ("virtual_machine", VNone);
         ("mac_address", VStr (normalize_mac_address (mac_addr address)));
         ("description", VStr full_name);
         ("enabled", VBool true)] in
      if permitted ip_addr full_name then
        mret (VmLocals vm_primary_ip4 vm_primary_ip6
                       (dict_set network vm_nic_data (vm_nic_dict loc)) nic_ips (vm_count loc))
      else
        write_log DEBUG ("Virtual machine '" +:+ name +:+ "' address '" +:+ ip_addr
                         +:+ "' is not valid to add. Skipping");;
        mret (VmLocals vm_primary_ip4 vm_primary_ip6 (vm_nic_dict loc) nic_ips (vm_count loc))
  end.

(** Lines 1104-1134: one network with its addresses. *)
Definition network_step (name site_name : string) (loc : vm_locals)
    (entry : string * list Address) : M Store vm_locals :=
  let '(network, addresses) := entry in
  let loc := VmLocals (vm_primary_ip4 loc) (vm_primary_ip6 loc) (vm_nic_dict loc)
                      (dict_set network [] (vm_nic_ips loc)) (vm_count loc + 1) in
  for_each (address_step name site_name network) addresses loc.

(** Lines 1098-1134 *)
Definition collect_addresses (name site_name : string) (addresses : dict (list Address))
  : M Store vm_locals :=
  for_each (network_step name site_name) addresses (VmLocals None None [] [] 0).

(** Lines 1046-1050: [disk += int(size)] over the attached volumes. *)
Definition attached_disk (volume_map : gmap string Z) (volumes : list string) : M Store Z :=
  for_each (fun disk volid =>
              match volume_map !! volid with
              | Some size => mret (disk + size)%Z
              | None => raise (KeyError volid)
              end) volumes 0%Z.

(** Lines 1029-1138 of [add_virtual_machine]: from the name filter on, the
    method reads [self] and touches the inventory and the log only. *)
Definition vm_pipeline (self : OpenStackHandler R) (obj : Server)
    (name status cluster_name : string) (nb_cluster_object : option nat) : M Store unit :=
  (* filter VMs by name *)
  passes ← logged (passes_filter name (vm_include_filter (settings self))
                                 (vm_exclude_filter (settings self)));
  if negb passes then mret tt else
  site_name ← logged (get_site_name (settings self) (site_name self)
                                    SiteNBCluster cluster_name "");
  (* first check against vm_platform_relation *)
  platform ←
    (if skip_vm_platform (settings self) then mret None
     else match flavor_original_name obj with
          | None => mret None
          | Some platform =>
              platform ← logged (get_object_relation (relations (settings self)) platform
                                                     "vm_platform_relation" (Some platform));
              mret (as_name platform)
          end);
  disk ← attached_disk (volume_map self) (attached_volumes obj);
  let annotation :=
    if skip_vm_comments (settings self) then None
    else if set_vm_name_to_uuid (settings self) then None else Some (sv_id obj) in
  (* assign vm_tenant_relation *)
  tenant_name ← logged (get_object_relation (relations (settings self)) name
                                            "vm_tenant_relation" None);
  let tenant_name := as_name tenant_name in
  let cpu := if bool_decide (flavor_vcpus obj = 0%Z) then 1%Z else flavor_vcpus obj in
  let vm_data : dict value :=
    [("name", VStr name);
     ("cluster", from_option VObject VNone nb_cluster_object);
     ("status", VStr status);
     ("memory", VInt (flavor_ram obj));
     ("vcpus", VInt cpu);
     ("disk", VInt disk)] in
  inv ← get_inventory;
  let vm_data := if netbox_since_3_3_0 inv then dict_set "site" (named site_name) vm_data else vm_data in
  let vm_data := dict_set_some "platform" (named <$> platform) vm_data in
  let vm_data := dict_set_some "comments" (VStr <$> annotation) vm_data in
  let vm_data := dict_set_some "tenant" (named <$> tenant_name) vm_data in
  vm_data ←
    (if set_vm_name_to_uuid (settings self) then
       let '(inv, custom_field_name) :=
         add_update_custom_field inv
           [("name", VStr "openstack_vm_name");
            ("label", VStr "name");
            ("content_types", VStr "virtualization.virtualmachine");
            ("type", VStr "text");
            ("description", VStr ("Openstack '" +:+ source_name self
                                  +:+ "' synced object attribute 'name'"))] in
       put_inventory inv;;
       mret (dict_set "custom_fields"
               (VDict [(default "None" custom_field_name, VStr (sv_name obj))]) vm_data)
     else mret vm_data);
  loc ← collect_addresses name site_name (addresses obj);
  (* add VM to inventory; pnic_data keeps its default, which NBVM never reads *)
  add_device_vm_to_inventory (settings self) NBVM vm_data [] (vm_nic_dict loc)
                             (vm_nic_ips loc) (vm_primary_ip4 loc) (vm_primary_ip6 loc).

(** [add_virtual_machine] (lines 977-1140) *)
Definition add_virtual_machine (obj : Server) : M (OpenStackHandler R) unit :=
  self ← get_state;
  let name := sv_name obj in
  let name := if strip_vm_domain_name (settings self) then split_first "." name else name in
  let name := if set_vm_name_to_uuid (settings self) then sv_id obj else name in
  on_store (write_log DEBUG ("Parsing OpenStack VM: " +:+ name));;
  (* get VM power state *)
  let status := if bool_decide (sv_status obj = Some "ACTIVE") then "active" else "offline" in
  let cluster_name := availability_zone obj in
  (* honor strip_host_domain_name *)
  let cluster_name :=
    if strip_host_domain_name (settings self) then split_first "." <$> cluster_name
    else cluster_name in
  (* check VM cluster *)
  match cluster_name with
  | None =>
      on_store (write_log ERROR ("Requesting cluster for Virtual Machine '" +:+ name
                                 +:+ "' failed. Skipping."))
  | Some cluster_name =>
      match permitted_clusters self !! cluster_name with
      | None =>
          on_store (write_log DEBUG ("Virtual machine '" +:+ name
                                     +:+ "' is not part of a permitted cluster. Skipping"))
      | Some _ =>
          let nb_cluster_object := get_object_from_cache (object_cache self) cluster_name in
          if registry_has cluster_name name (processed_vm_names self) then
            on_store (write_log WARNING
                        ("Virtual machine '" +:+ name +:+ "' for cluster '" +:+ cluster_name
                         +:+ "' already parsed. Make sure to use unique VM names. Skipping"))
          else
            (* add host to processed list *)
            modify_self (fun self => with_processed_vm_names self
                           (registry_append cluster_name name (processed_vm_names self)));;
            on_store (vm_pipeline self obj name status cluster_name nb_cluster_object)
      end
  end.

End Orchestrator.

(** ** Names and scopes of source records

    What [add_host] and [add_virtual_machine] compute before they look at
    the processed-name registries: the name of the record, and the scope its
    name must be unique in, when the record belongs to a permitted cluster. *)

Section Scopes.
Context {R : Type} `{RegexObject R}.

Definition host_name (self : OpenStackHandler R) (obj : Hypervisor) : string :=
  if strip_host_domain_name (settings self) then split_first "." (hv_name obj) else hv_name obj.

(** The permitted cluster of a host (lines 847-863). *)
Definition host_cluster (self : OpenStackHandler R) (obj : Hypervisor) : option string :=
  cluster_name ← get_cluster_for_host (cluster_host_map self) (hv_service_host obj);
  _ ← permitted_clusters self !! cluster_name;
  Some cluster_name.

(** The site of a host of a permitted cluster (line 869). *)
Definition host_scope (self : OpenStackHandler R) (obj : Hypervisor) : option string :=
  (fun cluster_name =>
     fst (get_site_name (settings self) (site_name self) SiteNBDevice
                        (host_name self obj) cluster_name)) <$> host_cluster self obj.

Definition vm_name (self : OpenStackHandler R) (obj : Server) : string :=
  if set_vm_name_to_uuid (settings self) then sv_id obj
  else if strip_vm_domain_name (settings self) then split_first "." (sv_name obj)
       else sv_name obj.

(** The permitted cluster of a server (lines 1001-1014). *)
Definition vm_scope (self : OpenStackHandler R) (obj : Server) : option string :=
  cluster_name ← (if strip_host_domain_name (settings self)
                  then split_first "." <$> availability_zone obj
                  else availability_zone obj);
  _ ← permitted_clusters self !! cluster_name;
  Some cluster_name.

(** [self] with more log and the same inventory. *)
Definition with_more_log (self : OpenStackHandler R) (lg : list log_record) : OpenStackHandler R :=
  with_store self (MkStore (inventory (store self)) (log (store self) ++ lg)).

End Scopes.

(** ** The declared addresses of a server *)

Section DeclaredAddresses.
Context `{Collaborators}.

(** An address as lines 1108-1116 write it: with the length of the longest
    matching prefix, of the site first, when there is one. *)
Definition formatted_address (inv : NetBoxInventory) (site_name : string) (address : Address)
  : string :=
  match ip_interface (addr address) with
  | Some parsed => with_prefix_length inv (addr address) parsed [Some site_name; None]
  | None => addr address
  end.

(** [ip_interface] accepts the address. *)
Definition parses (address : Address) : Prop := is_Some (ip_interface (addr address)).

(** All addresses of a server, in the order the two loops visit them. *)
Definition declared_addresses (addresses : dict (list Address)) : list Address :=
  concat (snd <$> addresses).

(** The last address of an IP version among [declared]. *)
Definition last_of_version (v : Z) (inv : NetBoxInventory) (site_name : string)
    (declared : list Address) : option string :=
  last (formatted_address inv site_name
          <$> List.filter (fun address => bool_decide (version address = v)) declared).

(** What lines 1106-1118 make of [nic_ips], one network after the other:
    every address of the network, whatever the subnet policy says. *)
Definition nic_ips_after (inv : NetBoxInventory) (site : string)
    (nic_ips : dict (list string)) (entry : string * list Address) : dict (list string) :=
  dict_set (fst entry) (formatted_address inv site <$> snd entry) nic_ips.

(** The interface name of the [count]-th network. *)
Definition vnic_name (count : nat) (network : string) : string :=
  unquote ("vNIC" +:+ pretty count +:+ " (" +:+ network +:+ ")").

End DeclaredAddresses.

(** ** Sample inventories for the examples of Part II *)

Module Samples.

(** Two devices: the first is known by its primary IPv6 only, the second by
    its primary IPv4 only (both as NetBox returned them, embedded). *)
Definition web01 : managed_object :=
  ManagedObject 1 "web01" None (Some (PipDict (Some "2001:db8::1/64"))).
Definition web02 : managed_object :=
  ManagedObject 2 "web02" (Some (PipDict (Some "10.0.0.5/24"))) None.
Definition two_devices : NetBoxInventory := Inventory [web01; web02] [] [] [] [].

(** The IP address object 7, known to NetBox already, is the primary IPv4
    of device [db01]; the VM [db02] has no primary IPv4 yet. *)
Definition ip7 : ip_address_object := IPAddressObject 7 70 (Some "192.0.2.7/24") false.
Definition db01 : managed_object := ManagedObject 1 "db01" (Some (PipObject 7)) None.
Definition db02 : managed_object := ManagedObject 2 "db02" None None.
Definition one_owner : NetBoxInventory := Inventory [db01] [db02] [] [] [ip7].
(** The same with [db01] as NetBox returned it: its primary IPv4 is the
    NetBox id of the IP address 7. *)
Definition owner_by_id : NetBoxInventory :=
  Inventory [ManagedObject 1 "db01" (Some (PipId 70)) None] [db02] [] [] [ip7].

(** Both hold a primary IPv4, different ones; [ip8] is a candidate for [db01]. *)
Definition ip8 : ip_address_object := IPAddressObject 8 80 (Some "192.0.2.8/24") false.
Definition vm8 : managed_object := ManagedObject 2 "db02" (Some (PipObject 8)) None.
Definition both_set : NetBoxInventory := Inventory [db01] [vm8] [] [] [ip7; ip8].

(** Relation settings: two tag rules and two tenant rules match names that
    start with [db]; the cluster rule matches [az1]. *)
Definition sample_relations : gmap string (list (relation_rule string)) :=
  {[ "host_tag_relation" := [RelationRule "db" "database"; RelationRule "web" "frontend";
                             RelationRule "db0" "primary"];
     "host_tenant_relation" := [RelationRule "web" "shop"; RelationRule "db" "dba";
                                RelationRule "db0" "ops"];
     "cluster_site_relation" := [RelationRule "az1" "Berlin"];
     "cluster_tag_relation" := [RelationRule "region" "regional"; RelationRule "az1" "zone-1"] ]}.

(** Interfaces for the MAC tier. Device 1 owns [eth0]; [eth1] carries a
    MAC of the same host but its [device] is not an object of the
    inventory. *)
Definition eth0 : interface_object := InterfaceObject 11 "eth0" (Some "AA:BB:CC:DD:EE:01") (Some 1).
Definition eth1 : interface_object := InterfaceObject 12 "eth1" (Some "AA:BB:CC:DD:EE:02") None.
Definition host_macs : list string := ["AA:BB:CC:DD:EE:01"; "AA:BB:CC:DD:EE:02"].
Definition owner_then_orphan : NetBoxInventory := Inventory [] [] [eth0; eth1] [] [].
Definition orphan_then_owner : NetBoxInventory := Inventory [] [] [eth1; eth0] [] [].

(** [n] interfaces of object [obj] with the MAC [mac]. *)
Definition interfaces_of (obj n : nat) (mac : string) : list interface_object :=
  (fun i => InterfaceObject (100 * obj + i) ("eth" +:+ pretty i) (Some mac) (Some obj)) <$> seq 0 n.

(** Tallies (10, 4) and (10, 6), the smaller owner scanned first. *)
Definition tallies_10_4 : NetBoxInventory :=
  Inventory [] [] (interfaces_of 2 4 "AA:BB:CC:DD:EE:01" ++ interfaces_of 1 10 "AA:BB:CC:DD:EE:01") [] [].
Definition tallies_10_6 : NetBoxInventory :=
  Inventory [] [] (interfaces_of 2 6 "AA:BB:CC:DD:EE:01" ++ interfaces_of 1 10 "AA:BB:CC:DD:EE:01") [] [].

(** *** A small inventory store

    Modelled from the spec: the inventory-store and source-base
    collaborators ([getByAttributes], [createOrUpdate], interface and IP
    reconciliation), for the examples only. Objects are matched by name;
    [add_update_interface] creates or reuses the interface and attaches every
    address it is given, reusing the IP address object that has the address
    and creating a new one otherwise. *)

Definition fresh_oid (inv : NetBoxInventory) : nat :=
  S (max_list ((oid <$> all_objects inv)
               ++ (if_oid <$> interfaces inv ++ vm_interfaces inv)
               ++ (ip_oid <$> ip_addresses inv))).

Definition small_get_by_data (inv : NetBoxInventory) (t : object_type) (data : dict value)
  : option nat :=
  oid <$> List.find (fun obj => bool_decide (name_of obj = object_name_of data))
                    (get_all_items inv t).

Definition small_add_object (inv : NetBoxInventory) (t : object_type) (data : dict value)
  : NetBoxInventory * nat :=
  let o := fresh_oid inv in
  (set_all_items inv t (get_all_items inv t ++ [ManagedObject o (object_name_of data) None None]), o).

Definition small_map_interfaces (inv : NetBoxInventory) (o : nat) (nic_data : dict (dict value))
  : dict nat :=
  omap (fun nic =>
          (fun i => (fst nic, if_oid i)) <$>
          List.find (fun i => bool_decide (owner i = Some o)
                              && bool_decide (if_name i = object_name_of (snd nic)))
                    (interfaces inv ++ vm_interfaces inv)) nic_data.

(** The IP address object for one address: the one the inventory has, or a
    new one. *)
Definition small_attach (inv : NetBoxInventory) (address : string)
  : NetBoxInventory * ip_address_object :=
  match List.find (fun ip => bool_decide (ip_address ip = Some address)) (ip_addresses inv) with
  | Some ip => (inv, ip)
  | None =>
      let ip := IPAddressObject (fresh_oid inv) 0 (Some address) true in
      (Inventory (devices inv) (vms inv) (interfaces inv) (vm_interfaces inv)
                 (ip_addresses inv ++ [ip]), ip)
  end.

Definition small_add_update_interface (inv : NetBoxInventory) (interface : option nat)
    (device : nat) (interface_data : dict value) (interface_ips : list string)
  : NetBoxInventory * (option nat * list (option ip_address_object)) :=
  let '(inv, interface) :=
    match interface with
    | Some i => (inv, i)
    | None =>
        let i := fresh_oid inv in
        let created :=
          InterfaceObject i (object_name_of interface_data) (mac_of interface_data) (Some device) in
        if bool_decide (device ∈ oid <$> vms inv)
        then (Inventory (devices inv) (vms inv) (interfaces inv) (vm_interfaces inv ++ [created])
                        (ip_addresses inv), i)
        else (Inventory (devices inv) (vms inv) (interfaces inv ++ [created]) (vm_interfaces inv)
                        (ip_addresses inv), i)
    end in
  let '(inv, ips) :=
    fold_left (fun acc address =>
                 let '(inv, ip) := small_attach (fst acc) address in
                 (inv, snd acc ++ [Some ip])) interface_ips (inv, []) in
  (inv, (Some interface, ips)).

(** Decimal digits of a prefix length. *)
Definition digit_of (c : ascii) : option nat :=
  let n := nat_of_ascii c in
  if bool_decide (48 <= n <= 57) then Some (n - 48) else None.

Fixpoint number_of (digits : list ascii) (acc : nat) : option nat :=
  match digits with
  | [] => Some acc
  | c :: rest => digit_of c ≫= fun d => number_of rest (10 * acc + d)
  end.

Definition has_colon (s : string) : bool :=
  bool_decide (":"%char ∈ String.list_ascii_of_string s).

(** Addresses as ["a.b.c.d"], ["a.b.c.d/len"] or their IPv6 likes; a text
    with a colon is an IPv6 address. *)
Definition small_ip_interface (text : string) : option IPInterface :=
  match split "/" text with
  | [ip] =>
      if bool_decide (ip = "") then None
      else Some (if has_colon ip then MkIPInterface IPv6 ip 128 else MkIPInterface IPv4 ip 32)
  | [ip; len] =>
      if bool_decide (ip = "") || bool_decide (len = "") then None
      else (fun n => MkIPInterface (if has_colon ip then IPv6 else IPv4) ip n)
             <$> number_of (String.list_ascii_of_string len) 0
  | _ => None
  end.

(** The only prefix known is 10.0.0.0/24, in every site; the subnet policy
    rejects 192.168.0.0/16. *)
Definition small_collaborators : Collaborators :=
  {| get_by_data := small_get_by_data;
     add_object := small_add_object;
     update := fun inv _ _ => inv;
     map_object_interfaces_to_current_interfaces := small_map_interfaces;
     add_update_interface := small_add_update_interface;
     return_longest_matching_prefix_for_ip :=
       fun _ parsed _ => if String.prefix "10.0.0." (interface_ip parsed) then Some 24 else None;
     add_update_custom_field := fun inv _ => (inv, Some "openstack_vm_name");
     netbox_since_3_3_0 := fun _ => true;
     permitted := fun ip _ => negb (String.prefix "192.168." ip);
     ip_interface := small_ip_interface;
     normalize_mac_address := fun mac => mac;
     unquote := fun text => text;
     log_level_is_DEBUG3 := false;
     object_type_text := type_name;
     get_display_name := fun inv o => default "" (name_of <$> get_object inv o);
     dump_service_details := fun _ => None |}.

(** The same at log level [DEBUG3], with a [dump] that fails. *)
Definition verbose_collaborators : Collaborators :=
  {| get_by_data := small_get_by_data;
     add_object := small_add_object;
     update := fun inv _ _ => inv;
     map_object_interfaces_to_current_interfaces := small_map_interfaces;
     add_update_interface := small_add_update_interface;
     return_longest_matching_prefix_for_ip :=
       fun _ parsed _ => if String.prefix "10.0.0." (interface_ip parsed) then Some 24 else None;
     add_update_custom_field := fun inv _ => (inv, Some "openstack_vm_name");
     netbox_since_3_3_0 := fun _ => true;
     permitted := fun ip _ => negb (String.prefix "192.168." ip);
     ip_interface := small_ip_interface;
     normalize_mac_address := fun mac => mac;
     unquote := fun text => text;
     log_level_is_DEBUG3 := true;
     object_type_text := type_name;
     get_display_name := fun inv o => default "" (name_of <$> get_object inv o);
     dump_service_details := fun _ => Some "'dict' object has no attribute 'to_dict'" |}.

(** A handler after [add_cluster] has seen the availability zone [nova],
    with hosts [cmp1] and [cmp2]; names that start with [test] are excluded. *)
Definition sample_settings (policy : string) : Settings string :=
  {| strip_host_domain_name := true;
     strip_vm_domain_name := false;
     set_vm_name_to_uuid := false;
     skip_vm_platform := true;
     skip_vm_comments := true;
     host_include_filter := None;
     host_exclude_filter := Some "test";
     vm_include_filter := None;
     vm_exclude_filter := Some "test";
     relations := ∅;
     set_primary_ip := policy |}.

Definition sample_handler (policy : string) : OpenStackHandler string :=
  {| settings := sample_settings policy;
     source_name := "lab";
     site_name := "OpenStack: lab";
     permitted_clusters := {["nova" := "OpenStack: lab"]};
     cluster_host_map := [("nova", ["cmp1"; "cmp2"; "test9"])];
     volume_map := ∅;
     processed_host_names := ∅;
     processed_vm_names := ∅;
     object_cache := ∅;
     store := MkStore (Inventory [] [] [] [] []) [] |}.

Definition lab : OpenStackHandler string := sample_handler "always".

Definition cmp1 : Hypervisor :=
  MkHypervisor "cmp1.lab.example" (Some "cmp1") (Some "QEMU") (Some "6002000") (Some "enabled")
               "10.0.0.11".
(** Another record with the name [cmp1] after the domain is stripped. *)
Definition cmp1_again : Hypervisor :=
  MkHypervisor "cmp1.other.example" (Some "cmp2") (Some "QEMU") (Some "6002000") (Some "enabled")
               "10.0.0.12".
(** A host the exclude filter rejects. *)
Definition test9 : Hypervisor :=
  MkHypervisor "test9.lab.example" (Some "test9") (Some "QEMU") (Some "6002000") (Some "enabled")
               "10.0.0.19".

(** A server with one network that carries a permitted fixed address and a
    floating address the subnet policy rejects. *)
Definition app1 : Server :=
  MkServer "app1" "6f1c" (Some "ACTIVE") (Some "nova") (Some "m1.small") 2 4096 []
           [("private", [MkAddress "10.0.0.5" 4 "FA:16:3E:00:00:01";
                         MkAddress "192.168.7.9" 4 "FA:16:3E:00:00:01"])].
(** The same addresses of a server [test1], which the exclude filter rejects. *)
Definition test1 : Server :=
  MkServer "test1" "77aa" (Some "ACTIVE") (Some "nova") (Some "m1.small") 2 4096 []
           [("private", [MkAddress "10.0.0.6" 4 "FA:16:3E:00:00:02"])].

End Samples.

(** ** What the matchers compare *)

(** The address of a stored primary IP that [_matches_device_primary_ip]
    compares (lines 386-393): the ["address"] of the embedded [dict], or the
    [data.address] of the IP address with that NetBox id; a slot that holds
    an [NBIPAddress] object gives none. *)
Definition stored_address (inv : NetBoxInventory) (device_primary_ip : option primary_ip_value)
  : option string :=
  match device_primary_ip with
  | Some (PipDict address) => address
  | Some (PipId nb_id) => get_by_id inv nb_id ≫= ip_address
  | Some (PipObject _) => None
  | None => None
  end.

(** ** Invariants of the handler *)

(** A processed-name registry holds a name at most once in each scope. *)
Definition registry_distinct (registry : gmap string (list string)) : Prop :=
  forall key names, registry !! key = Some names -> NoDup names.

(** [disk] of lines 1046-1050 when every attached volume is known: the sum
    of the sizes the volume map has for them. *)
Definition volumes_size (volume_map : gmap string Z) (volumes : list string) : Z :=
  foldr (fun volid total => (default 0 (volume_map !! volid) + total)%Z) 0%Z volumes.

(** The first attached volume the volume map does not know. *)
Definition unknown_volume (volume_map : gmap string Z) (volumes : list string) : option string :=
  List.find (fun volid => bool_decide (volume_map !! volid = None)) volumes.

(** Everything of the handler but the inventory, the log and the two
    registries. *)
Definition same_configuration {R} (self self' : OpenStackHandler R) : Prop :=
  settings self' = settings self /\ source_name self' = source_name self
  /\ site_name self' = site_name self
  /\ permitted_clusters self' = permitted_clusters self
  /\ cluster_host_map self' = cluster_host_map self
  /\ volume_map self' = volume_map self
  /\ object_cache self' = object_cache self.

(** The first declared address [ip_interface] does not accept. *)
Definition unparsable_address `{Collaborators} (declared : list Address) : option Address :=
  List.find (fun address => bool_decide (ip_interface (addr address) = None)) declared.

(** ** The interfaces of a server *)

Section ServerInterfaces.
Context `{Collaborators}.

(** [vm_nic_data] of lines 1124-1130, for an address of the [count]-th
    network. *)
Definition vm_nic_data_of (count : nat) (network : string) (address : Address) : dict value :=
  [("name", VStr (vnic_name count network));
   ("virtual_machine", VNone);
   ("mac_address", VStr (normalize_mac_address (mac_addr address)));
   ("description", VStr (vnic_name count network));
   ("enabled", VBool true)].

(** The addresses of the [count]-th network that the subnet policy permits
    (line 1131), asked with the address as formatted and the interface name. *)
Definition permitted_addresses (inv : NetBoxInventory) (site_name : string) (count : nat)
    (network : string) (addresses : list Address) : list Address :=
  List.filter (fun address => permitted (formatted_address inv site_name address)
                                        (vnic_name count network)) addresses.

End ServerInterfaces.

(** The interfaces that carry a MAC of the list, in the order of the scan. *)
Definition matching_interfaces (mac_list : list string) (scanned : list interface_object)
  : list interface_object :=
  List.filter (fun interface => mac_in_list (mac_address interface) mac_list) scanned.

(** ** The handler: the object cache, [add_cluster] and the loops of [apply] *)

(** [add_object_to_cache] (lines 692-706). The first test,
    [None in [type, key, netbox_object]], asks about the builtin [type],
    which is never [None]: a key and an object are all that is needed. *)
Definition add_object_to_cache (cache : gmap string (gmap string nat))
    (key : option string) (netbox_object : option nat) : gmap string (gmap string nat) :=
  match key, netbox_object with
  | Some key, Some netbox_object =>
      let cache :=
        match cache !! vm_class_name with
        | None => <[vm_class_name := ∅]> cache
        | Some _ => cache
        end in
      <[vm_class_name := <[key := netbox_object]> (default ∅ (cache !! vm_class_name))]> cache
  | _, _ => cache
  end.

(** An [NBCluster] object, as far as [add_cluster] looks at it. *)
Record cluster_object := ClusterObject {
  cluster_oid : nat;
  cluster_name : option string;            (* grab(c, "data.name") *)
  cluster_site_name : option string;       (* c.get_site_name() *)
  cluster_group : option (option string);  (* data.group when not None: its data.name *)
  cluster_tenant : option string;          (* grab(c, "data.tenant.data.name") *)
  cluster_nb_reference : string            (* c.get_nb_reference(), as printed *)
}.

(** An availability zone record of the source: its name after
    [get_string_or_none], and the hosts [obj.hosts] gives when iterated. *)
Record AvailabilityZone := MkAvailabilityZone {
  az_name : option string;
  az_hosts : list string
}.

(** [self.settings], as far as [apply] and [add_cluster] read more of it. *)
Record SourceSettings (R : Type) := MkSourceSettings {
  auth_url : string;
  group_name : string;
  cluster_include_filter : option R;
  cluster_exclude_filter : option R
}.
Arguments MkSourceSettings {R}.
Arguments auth_url {R}.
Arguments group_name {R}.
Arguments cluster_include_filter {R}.
Arguments cluster_exclude_filter {R}.

(** The part of the inventory that holds cluster groups and clusters, with
    the methods of [NetBoxInventory] and [NetBoxObject] used on it. *)
Class ClusterStore (I : Type) := {
  (** [self.inventory.get_by_data(NBClusterGroup, data={"name": group_name})]:
      the group found, and [grab(group, "data.name")] of it *)
  get_cluster_group : I -> string -> option (nat * option string);
  (** [self.inventory.get_all_items(NBCluster)] *)
  get_all_clusters : I -> list cluster_object;
  (** [cluster_object.update(data=data, source=self)] *)
  update_cluster : I -> nat -> dict value -> I;
  (** [self.inventory.add_update_object(NBCluster, data=data, source=self)] *)
  add_update_cluster : I -> dict value -> I * option nat;
  (** [self.inventory.add_update_object(NBClusterGroup, data={"name": ...}, source=self)] *)
  add_update_cluster_group : I -> string -> I
}.

Definition with_object_cache {R} (self : OpenStackHandler R)
    (cache : gmap string (gmap string nat)) : OpenStackHandler R :=
  MkHandler (settings self) (source_name self) (site_name self) (permitted_clusters self)
            (cluster_host_map self) (volume_map self) (processed_host_names self)
            (processed_vm_names self) cache (store self).

Definition with_cluster_host_map {R} (self : OpenStackHandler R)
    (hosts : dict (list string)) : OpenStackHandler R :=
  MkHandler (settings self) (source_name self) (site_name self) (permitted_clusters self)
            hosts (volume_map self) (processed_host_names self)
            (processed_vm_names self) (object_cache self) (store self).

Definition with_permitted_clusters {R} (self : OpenStackHandler R)
    (permitted : gmap string string) : OpenStackHandler R :=
  MkHandler (settings self) (source_name self) (site_name self) permitted
            (cluster_host_map self) (volume_map self) (processed_host_names self)
            (processed_vm_names self) (object_cache self) (store self).

(** The tests of lines 773, 778 and 784 on a candidate with the name. *)
Definition site_matches (site_name : string) (cluster_candidate : cluster_object) : bool :=
  bool_decide (cluster_site_name cluster_candidate = Some site_name).

Definition group_matches (group_name : option string) (cluster_candidate : cluster_object) : bool :=
  match cluster_group cluster_candidate with
  | Some name_of_group => bool_decide (name_of_group = group_name)
  | None => false
  end.

Definition tenant_matches (tenant_name : option string) (cluster_candidate : cluster_object) : bool :=
  match tenant_name with
  | Some tenant_name => bool_decide (cluster_tenant cluster_candidate = Some tenant_name)
  | None => false
  end.

(** The test of line 769: the candidate has the name. *)
Definition has_name (name : string) (cluster_candidate : cluster_object) : bool :=
  bool_decide (cluster_name cluster_candidate = Some name).

(** The loop of lines 768-795: [cluster_object] and
    [fallback_cluster_object] when it ends, and the log. *)
Fixpoint cluster_scan (name site_name : string) (group_name tenant_name : option string)
    (candidates : list cluster_object) (fallback_cluster_object : option cluster_object)
  : option cluster_object * option cluster_object * list log_record :=
  match candidates with
  | [] => (None, fallback_cluster_object, [])
  | cluster_candidate :: rest =>
      if negb (bool_decide (cluster_name cluster_candidate = Some name))
      then cluster_scan name site_name group_name tenant_name rest fallback_cluster_object
      (* try to find a cluster with matching site *)
      else if site_matches site_name cluster_candidate
      then (Some cluster_candidate, fallback_cluster_object,
            [LogRecord DEBUG2 "Found an existing cluster where 'name' and 'site' are matching"])
      else if group_matches group_name cluster_candidate
      then (Some cluster_candidate, fallback_cluster_object,
            [LogRecord DEBUG2 "Found an existing cluster where 'name' and 'cluster group' are matching"])
      else if tenant_matches tenant_name cluster_candidate
      then (Some cluster_candidate, fallback_cluster_object,
            [LogRecord DEBUG2 "Found an existing cluster where 'name' and 'tenant' are matching"])
      else
        (* if only the name matches we choose the first cluster returned from netbox *)
        cluster_scan name site_name group_name tenant_name rest
          (match fallback_cluster_object with
           | None => Some cluster_candidate
           | Some first => Some first
           end)
  end.

(** Lines 766-800: the existing cluster to update, if any. *)
Definition select_cluster (name site_name : string) (group_name tenant_name : option string)
    (candidates : list cluster_object) : option cluster_object * list log_record :=
  let '(cluster_object, fallback_cluster_object, lg) :=
    cluster_scan name site_name group_name tenant_name candidates None in
  match cluster_object, fallback_cluster_object with
  | None, Some fallback_cluster_object =>
      (Some fallback_cluster_object,
       lg ++ [LogRecord DEBUG2 ("Found an existing cluster where 'name' matches (NetBox id: "
                                +:+ cluster_nb_reference fallback_cluster_object +:+ ")")])
  | _, _ => (cluster_object, lg)
  end.

(** [self.cluster_host_map[name].append(host)] *)
Definition host_map_append (name host : string) (cluster_host_map : dict (list string))
  : dict (list string) :=
  dict_set name (default [] (dict_get name cluster_host_map) ++ [host]) cluster_host_map.

Section Clusters.
Context {R : Type} `{RegexObject R} `{Collaborators} {I : Type} `{ClusterStore I}.

(** A method of the handler, run while the cluster part of the inventory is
    at hand. *)
Definition on_handler {A} (m : M (OpenStackHandler R) A) : M (OpenStackHandler R * I) A :=
  fun s => let '(r, self) := m (fst s) in (r, (self, snd s)).

Definition get_cluster_inventory : M (OpenStackHandler R * I) I :=
  fun s => (Returned (snd s), s).

Definition put_cluster_inventory (inv : I) : M (OpenStackHandler R * I) unit :=
  fun s => (Returned tt, (fst s, inv)).

(** [add_cluster] (lines 724-813) *)
Definition add_cluster (source_settings : SourceSettings R) (obj : AvailabilityZone)
  : M (OpenStackHandler R * I) unit :=
  let name := az_name obj in
  inv ← get_cluster_inventory;
  let group := get_cluster_group inv (group_name source_settings) in
  match name, group with
  | Some name, Some (group, group_name) =>
      self ← on_handler get_state;
      on_handler (on_store (write_log DEBUG ("Parsing OpenStack AZ: " +:+ name)));;
      passes ← on_handler (on_store (logged (passes_filter name
                                               (cluster_include_filter source_settings)
                                               (cluster_exclude_filter source_settings))));
      if negb passes then mret tt else
      site_name ← on_handler (on_store (logged (get_site_name (settings self) (site_name self)
                                                              SiteNBCluster name "")));
      let data : dict value :=
        [("name", VStr name);
         ("type", named "Openstack");
         ("group", VObject group);
         ("site", named site_name)] in
      tenant_name ← on_handler (on_store (logged (get_object_relation (relations (settings self)) name
                                                    "cluster_tenant_relation" None)));
      let tenant_name := as_name tenant_name in
      let data := dict_set_some "tenant" (named <$> tenant_name) data in
      (* try to find cluster including cluster group *)
      on_handler (on_store (write_log DEBUG2 "Trying to find a matching existing cluster"));;
      cluster_object ← on_handler (on_store (logged (select_cluster name site_name group_name
                                                       tenant_name (get_all_clusters inv))));
      cluster_object ←
        match cluster_object with
        | Some cluster_object =>
            put_cluster_inventory (update_cluster inv (cluster_oid cluster_object) data);;
            mret (Some (cluster_oid cluster_object))
        | None =>
            let '(inv, cluster_object) := add_update_cluster inv data in
            put_cluster_inventory inv;; mret cluster_object
        end;
      on_handler (modify_self (fun self =>
        with_object_cache self (add_object_to_cache (object_cache self) (Some name) cluster_object)));;
      on_handler (modify_self (fun self =>
        with_cluster_host_map self (dict_set name [] (cluster_host_map self))));;
      for_each (fun _ host =>
                  on_handler (modify_self (fun self =>
                    with_cluster_host_map self (host_map_append name host (cluster_host_map self)))))
               (az_hosts obj) tt;;
      on_handler (modify_self (fun self =>
        with_permitted_clusters self (<[name := site_name]> (permitted_clusters self))))
  | _, _ => mret tt
  end.

(** Lines 156-190 of [apply]: everything but the closing call of
    [update_basic_data], which touches tags, sites and device roles only.
    The four sequences are what the session gives for availability zones,
    hypervisors, volumes and servers. *)
Definition apply_records (source_settings : SourceSettings R)
    (availability_zones : list AvailabilityZone) (hypervisors : list Hypervisor)
    (volumes : list Volume) (servers : list Server) : M (OpenStackHandler R * I) unit :=
  on_handler (on_store (write_log INFO ("Query data from OpenStack: '"
                                        +:+ auth_url source_settings +:+ "'")));;
  inv ← get_cluster_inventory;
  put_cluster_inventory (add_update_cluster_group inv (group_name source_settings));;
  for_each (fun _ availability_zone => add_cluster source_settings availability_zone)
           availability_zones tt;;
  for_each (fun _ hypervisor => on_handler (add_host hypervisor)) hypervisors tt;;
  for_each (fun _ volume => on_handler (add_volume volume)) volumes tt;;
  for_each (fun _ server => on_handler (add_virtual_machine server)) servers tt.

End Clusters.

(** The data [add_cluster] hands to the inventory (lines 753-762). *)
Definition cluster_data (name : string) (group : nat) (site_name : string)
    (tenant_name : option string) : dict value :=
  dict_set_some "tenant" (named <$> tenant_name)
    [("name", VStr name); ("type", named "Openstack"); ("group", VObject group);
     ("site", named site_name)].

(** The handler as [__init__] leaves it (lines 71-100), for a source that is
    enabled and connected: the maps and registries are empty. *)
Definition initial_handler {R} (settings : Settings R) (name : string) (inv : NetBoxInventory)
  : OpenStackHandler R :=
  {| settings := settings;
     source_name := name;
     site_name := "OpenStack: " +:+ name;
     permitted_clusters := ∅;
     cluster_host_map := [];
     volume_map := ∅;
     processed_host_names := ∅;
     processed_vm_names := ∅;
     object_cache := ∅;
     store := MkStore inv [] |}.

(** Every cluster the host map knows is a permitted cluster. *)
Definition clusters_consistent {R} (self : OpenStackHandler R) : Prop :=
  forall cluster, cluster ∈ (cluster_host_map self).*1 ->
                  is_Some (permitted_clusters self !! cluster).

(** Every permitted cluster has a name that passes the cluster filter. *)
Definition permitted_pass_the_filter {R} `{RegexObject R} (source_settings : SourceSettings R)
    (self : OpenStackHandler R) : Prop :=
  forall cluster site, permitted_clusters self !! cluster = Some site ->
    fst (passes_filter cluster (cluster_include_filter source_settings)
                       (cluster_exclude_filter source_settings)) = true.

(** The processed-name registries hold each name once, the host map knows
    permitted clusters only, and the permitted clusters pass the filter. *)
Definition run_invariant {R} `{RegexObject R} (source_settings : SourceSettings R)
    (self : OpenStackHandler R) : Prop :=
  clusters_consistent self /\ permitted_pass_the_filter source_settings self
  /\ registry_distinct (processed_host_names self)
  /\ registry_distinct (processed_vm_names self).

(** ** More sample records for the examples of Part II *)

Module RunSamples.

(** A host of the cluster [nova] whose [host_ip] is no IP address. *)
Definition cmp3 : Hypervisor :=
  MkHypervisor "cmp3.lab.example" (Some "cmp2") (Some "QEMU") (Some "6002000") (Some "enabled")
               "n/a/unknown".

(** A host that no cluster lists. *)
Definition stray : Hypervisor :=
  MkHypervisor "stray.lab.example" (Some "stray") None None (Some "disabled") "10.0.0.99".

(** A server with an attached volume, and a flavor without vCPUs. *)
Definition app2 : Server :=
  MkServer "app2" "9a1b" (Some "ACTIVE") (Some "nova") (Some "m1.small") 0 4096 ["vol-1"]
           [("private", [MkAddress "10.0.0.7" 4 "FA:16:3E:00:00:07"])].

(** A server with an address that is no IP address. *)
Definition app3 : Server :=
  MkServer "app3" "5c2d" (Some "SHUTOFF") (Some "nova") None 1 2048 []
           [("private", [MkAddress "10.0.0.8" 4 "FA:16:3E:00:00:08";
                         MkAddress "n/a/unknown" 4 "FA:16:3E:00:00:08"])].

(** Another server named [app1] in the availability zone [nova]. *)
Definition app1_again : Server :=
  MkServer "app1" "8d4e" (Some "SHUTOFF") (Some "nova") None 1 1024 [] [].

(** A server of the availability zone [test-az]. *)
Definition app4 : Server :=
  MkServer "app4" "7e3f" (Some "ACTIVE") (Some "test-az") None 1 2048 [] [].

(** Two networks: the addresses of [public] are all rejected by the subnet
    policy, [private] has a permitted address after a rejected one. *)
Definition two_networks : dict (list Address) :=
  [("public", [MkAddress "192.168.1.4" 4 "FA:16:3E:00:00:0A"]);
   ("private", [MkAddress "192.168.7.9" 4 "FA:16:3E:00:00:0B";
                MkAddress "10.0.0.9" 4 "FA:16:3E:00:00:0C"])].

Definition vol1 : Volume := MkVolume "vol-1" 20.

(** The handler [lab] after [add_volume] has seen [vol1]. *)
Definition lab_with_volume : OpenStackHandler string :=
  with_volume_map Samples.lab (<["vol-1" := 20%Z]> (volume_map Samples.lab)).

(** The other settings of the source: availability zones whose name starts
    with [test] are excluded. *)
Definition source_settings : SourceSettings string :=
  {| auth_url := "https://keystone.lab.example:5000/v3";
     group_name := "OpenStack";
     cluster_include_filter := None;
     cluster_exclude_filter := Some "test" |}.

Definition nova : AvailabilityZone := MkAvailabilityZone (Some "nova") ["cmp1"; "cmp2"].
Definition test_az : AvailabilityZone := MkAvailabilityZone (Some "test-az") ["cmp9"].

(** Modelled from the spec: the inventory store for cluster groups and
    clusters, for the examples only. The clusters are a list; the cluster
    group is always found, as object 900; an update leaves the clusters as
    they are, and a new cluster is put last, in the default site. *)
Definition sample_cluster_store : ClusterStore (list cluster_object) :=
  {| get_cluster_group := fun _ name_of_group => Some (900, Some name_of_group);
     get_all_clusters := fun clusters => clusters;
     update_cluster := fun clusters _ _ => clusters;
     add_update_cluster := fun clusters data =>
       let o := 901 + length clusters in
       (clusters ++ [ClusterObject o (Some (object_name_of data)) (Some "OpenStack: lab")
                                   (Some (Some "OpenStack")) None (pretty o)],
        Some o);
     add_update_cluster_group := fun clusters _ => clusters |}.

(** The handler [lab] with a host map that lists [stray] under a cluster
    that is not permitted. *)
Definition lab_with_old_cluster : OpenStackHandler string :=
  with_cluster_host_map Samples.lab [("old", ["stray"])].

(** The handler as [__init__] leaves it. *)
Definition fresh_lab : OpenStackHandler string :=
  initial_handler (Samples.sample_settings "always") "lab" (Inventory [] [] [] [] []).

(** Three clusters named [nova]: the first matches on the name only, the
    second also on the cluster group, the third also on the site. *)
Definition nova_clusters : list cluster_object :=
  [ClusterObject 1 (Some "nova") (Some "Paris") None None "1";
   ClusterObject 2 (Some "nova") (Some "Paris") (Some (Some "OpenStack")) None "2";
   ClusterObject 3 (Some "nova") (Some "Berlin") None None "3"].

End RunSamples.

(* ================================================================== *)
(** * Part II: properties                                              *)
(* ================================================================== *)

(** ** FilterEngine *)

Section FilterEngineProperties.
Context {R : Type} `{RegexObject R}.

(** C9. [passes_filter] rejects a name that a configured include pattern
    does not match; otherwise it rejects a name that a configured exclude
    pattern matches; in every other case, and so whenever a pattern is
    absent, that check lets the name pass. *)
Theorem passes_filter_decision (name : string) (include_filter exclude_filter : option R) :
  (forall inc, include_filter = Some inc -> re_match inc name = false ->
     fst (passes_filter name include_filter exclude_filter) = false) /\
  (forall exc, (forall inc, include_filter = Some inc -> re_match inc name = true) ->
     exclude_filter = Some exc -> re_match exc name = true ->
     fst (passes_filter name include_filter exclude_filter) = false) /\
  ((forall inc, include_filter = Some inc -> re_match inc name = true) ->
   (forall exc, exclude_filter = Some exc -> re_match exc name = false) ->
     fst (passes_filter name include_filter exclude_filter) = true) /\
  fst (passes_filter name None None) = true /\
  (forall exc, fst (passes_filter name None (Some exc)) = negb (re_match exc name)) /\
  (forall inc, fst (passes_filter name (Some inc) None) = re_match inc name).
Proof.
  unfold passes_filter.
  repeat split.
  - intros inc -> Hno. by rewrite Hno.
  - intros exc Hinc -> Hyes.
    destruct include_filter as [inc|]; [rewrite (Hinc inc eq_refl)|]; simpl; by rewrite Hyes.
  - intros Hinc Hexc.
    destruct include_filter as [inc|]; [rewrite (Hinc inc eq_refl)|]; simpl;
      (destruct exclude_filter as [exc|]; [by rewrite (Hexc exc eq_refl)|done]).
  - intros exc. by destruct (re_match exc name).
  - intros inc. by destruct (re_match inc name).
Qed.

End FilterEngineProperties.

Section FilterSamples.
#[local] Existing Instance literal_regex.

(** With literal patterns: an include pattern [web] and an exclude pattern
    [web-test]. *)
Example passes_filter_samples :
  let passes name := fst (passes_filter name (Some "web") (Some "web-test")) in
  passes "web01" = true /\ passes "db01" = false /\ passes "web-test7" = false
  /\ fst (passes_filter "db01" None (Some "web-test")) = true
  /\ fst (passes_filter "db01" None None) = true.
Proof. repeat split; reflexivity. Qed.

End FilterSamples.

(** ** RelationResolver *)

Section RelationResolverProperties.
Context {R : Type} `{RegexObject R}.

Implicit Types (rules : list (relation_rule R)) (lg : list log_record).

Lemma rule_matches_plain (name relation : string) (rule : relation_rule R) :
  is_cluster_relation relation = false ->
  rule_matches name relation rule = re_match (object_regex rule) name.
Proof. unfold rule_matches. intros ->. by rewrite andb_false_l, orb_false_r. Qed.

Lemma relation_step_resolved name relation resolved lg rule :
  fst (relation_step name relation (resolved, lg) rule) =
  resolved ++ (if rule_matches name relation rule then [assigned_name rule] else []).
Proof.
  unfold relation_step, rule_matches.
  destruct (re_match (object_regex rule) name); simpl; [done|].
  destruct (is_cluster_relation relation); simpl; [|by rewrite app_nil_r].
  destruct (re_match _ (stripped_name name)); simpl; [done|by rewrite app_nil_r].
Qed.

Lemma relation_step_log name relation resolved lg rule :
  exists more, snd (relation_step name relation (resolved, lg) rule) = lg ++ more
               /\ Forall (fun r => level r = DEBUG2) more.
Proof.
  unfold relation_step.
  destruct (re_match (object_regex rule) name); simpl.
  { eexists; split; [done|]. by repeat constructor. }
  destruct (is_cluster_relation relation); simpl.
  2: { exists []. by rewrite app_nil_r. }
  destruct (re_match _ (stripped_name name)); simpl.
  { eexists; split; [done|]. by repeat constructor. }
  exists []. by rewrite app_nil_r.
Qed.

Lemma relation_loop_resolved name relation rules resolved lg :
  fst (fold_left (relation_step name relation) rules (resolved, lg)) =
  resolved ++ (assigned_name <$> List.filter (rule_matches name relation) rules).
Proof.
  revert resolved lg.
  induction rules as [|rule rules IH]; intros resolved lg; cbn [fold_left].
  { simpl. by rewrite app_nil_r. }
  pose proof (relation_step_resolved name relation resolved lg rule) as Hstep.
  destruct (relation_step name relation (resolved, lg) rule) as [resolved' lg'].
  simpl in Hstep. rewrite IH, Hstep. cbn [List.filter].
  destruct (rule_matches name relation rule); simpl.
  - by rewrite <- app_assoc.
  - by rewrite app_nil_r.
Qed.

Lemma relation_loop_log name relation rules resolved lg :
  exists more, snd (fold_left (relation_step name relation) rules (resolved, lg)) = lg ++ more
               /\ Forall (fun r => level r = DEBUG2) more.
Proof.
  revert resolved lg.
  induction rules as [|rule rules IH]; intros resolved lg; cbn [fold_left].
  { exists []. simpl. by rewrite app_nil_r. }
  destruct (relation_step_log name relation resolved lg rule) as (m1 & Hm1 & Hall1).
  destruct (relation_step name relation (resolved, lg) rule) as [resolved' lg'].
  simpl in Hm1. subst lg'.
  destruct (IH resolved' (lg ++ m1)) as (m2 & Hm2 & Hall2).
  exists (m1 ++ m2). rewrite Hm2, <- app_assoc. split; [done|].
  by apply Forall_app.
Qed.

Lemma filter_level_DEBUG2 lg :
  Forall (fun r => level r = DEBUG2) lg -> List.filter (is_level DEBUG) lg = [].
Proof.
  induction 1 as [|r lg Hr _ IH]; [done|].
  simpl. unfold is_level at 1. rewrite Hr.
  by rewrite bool_decide_eq_false_2.
Qed.

(** What is returned and logged, from the rules that match. *)
Lemma get_object_relation_returns
    (relations : gmap string (list (relation_rule R)))
    (name relation : string) (fallback : option string) :
  let rules := default [] (relations !! relation) in
  let matched := assigned_name <$> List.filter (rule_matches name relation) rules in
  let result := get_object_relation relations name relation fallback in
  (is_tag_relation relation = true -> fst result = RelList matched) /\
  (is_tag_relation relation = false ->
     fst result =
       RelName (match List.find (rule_matches name relation) rules with
                | Some rule => Some (assigned_name rule)
                | None => fallback
                end)) /\
  List.filter (is_level DEBUG) (snd result) =
    (if negb (is_tag_relation relation) && bool_decide (1 < length matched)
     then [several_matches_record name relation (length matched) (default "" (head matched))]
     else []).
Proof.
  intros rules matched result. subst result. unfold get_object_relation.
  fold rules.
  pose proof (relation_loop_resolved name relation rules [] []) as Hres.
  destruct (relation_loop_log name relation rules [] []) as (lg & Hlg & Hall).
  destruct (fold_left (relation_step name relation) rules ([], [])) as [resolved_list lg'].
  simpl in Hres, Hlg. subst resolved_list lg'. fold matched.
  assert (Hfind : head matched = assigned_name <$> List.find (rule_matches name relation) rules).
  { subst matched. clear. induction rules as [|rule rules IH]; [done|].
    simpl. by destruct (rule_matches name relation rule). }
  pose proof (filter_level_DEBUG2 lg Hall) as Hnone.
  destruct (is_tag_relation relation); simpl.
  { repeat split; [done..|]. done. }
  split; [done|].
  destruct matched as [|first [|second rest]]; simpl in *.
  - split; [|done]. intros _.
    destruct (List.find _ rules); [done|done].
  - split; [|done]. intros _.
    destruct (List.find _ rules); simpl in Hfind; by simplify_eq.
  - split.
    + intros _. destruct (List.find _ rules); simpl in Hfind; by simplify_eq.
    + rewrite List.filter_app, Hnone. done.
Qed.

(** C6 (as the code has it). With [matched] the assigned values of the
    rules that match, in configured order: a tag relation returns all of [matched]; any other
    relation returns the value of the first rule that matches, and the
    fallback when none does; the "several matches" diagnostic is written
    exactly when a relation that is not a tag relation has more than one
    match. A rule matches when its pattern matches the name; for a relation
    whose first word is [cluster], and only for such, also when it matches
    the name without its first path segment. *)
Theorem get_object_relation_result
    (relations : gmap string (list (relation_rule R)))
    (name relation : string) (fallback : option string) :
  let rules := default [] (relations !! relation) in
  let matched := assigned_name <$> List.filter (rule_matches name relation) rules in
  let result := get_object_relation relations name relation fallback in
  (is_tag_relation relation = true -> fst result = RelList matched) /\
  (is_tag_relation relation = false ->
     fst result =
       RelName (match List.find (rule_matches name relation) rules with
                | Some rule => Some (assigned_name rule)
                | None => fallback
                end)) /\
  List.filter (is_level DEBUG) (snd result) =
    (if negb (is_tag_relation relation) && bool_decide (1 < length matched)
     then [several_matches_record name relation (length matched) (default "" (head matched))]
     else []) /\
  (forall rule, re_match (object_regex rule) name = true -> rule_matches name relation rule = true) /\
  (is_cluster_relation relation = false ->
     forall rule, rule_matches name relation rule = re_match (object_regex rule) name).
Proof.
  intros rules matched result.
  destruct (get_object_relation_returns relations name relation fallback) as (Htag & Hname & Hlog).
  repeat split; [exact Htag|exact Hname|exact Hlog| |].
  - intros rule Hrule. unfold rule_matches. by rewrite Hrule.
  - intros Hplain rule. by apply rule_matches_plain.
Qed.

End RelationResolverProperties.

Section RelationSamples.
#[local] Existing Instance literal_regex.

(** The special cluster condition is tried rule by rule. Of the two rules
    of [cluster_tag_relation] only the first has a pattern that matches the
    name [region/az1]; the second matches the name without its first path
    segment, and its value is returned as well, although another rule
    matched the full name. *)
Lemma cluster_relation_matches_stripped_name :
  is_tag_relation "cluster_tag_relation" = true
  /\ assigned_name <$> List.filter (fun rule => re_match (object_regex rule) "region/az1")
                                  (default [] (Samples.sample_relations !! "cluster_tag_relation"))
     = ["regional"]
  /\ fst (get_object_relation Samples.sample_relations
                              "region/az1" "cluster_tag_relation" None)
     = RelList ["regional"; "zone-1"].
Proof. repeat split; by vm_compute. Qed.

(** C6 (as the claim states it) fails for a relation whose first word is
    [cluster]. Of the rules [az1 -> Berlin] and [region -> Paris] of
    [cluster_site_relation], only the second has a pattern that matches the
    name [region/az1], yet [Berlin] is returned, with the diagnostic of two
    matches; and no pattern matches the name [eu/az1], yet [Berlin] is
    returned, not the fallback. *)
Lemma cluster_relation_departs_from_the_rules_that_match_the_name :
  let rules := [RelationRule "az1" "Berlin"; RelationRule "region" "Paris"] in
  let relations : gmap string (list (relation_rule string)) :=
    {[ "cluster_site_relation" := rules ]} in
  is_tag_relation "cluster_site_relation" = false
  /\ List.filter (fun rule => re_match (object_regex rule) "region/az1") rules
     = [RelationRule "region" "Paris"]
  /\ fst (get_object_relation relations "region/az1" "cluster_site_relation" None)
     = RelName (Some "Berlin")
  /\ List.filter (is_level DEBUG)
       (snd (get_object_relation relations "region/az1" "cluster_site_relation" None))
     = [several_matches_record "region/az1" "cluster_site_relation" 2 "Berlin"]
  /\ List.filter (fun rule => re_match (object_regex rule) "eu/az1") rules = []
  /\ fst (get_object_relation relations "eu/az1" "cluster_site_relation" (Some "Default"))
     = RelName (Some "Berlin")
  /\ ~ (forall (name : string) (fallback : option string),
          fst (get_object_relation relations name "cluster_site_relation" fallback)
          = RelName match List.find (fun rule => re_match (object_regex rule) name) rules with
                    | Some rule => Some (assigned_name rule)
                    | None => fallback
                    end).
Proof.
  cbv zeta. repeat split; try by vm_compute.
  intros Hclaim. specialize (Hclaim "eu/az1" (Some "Default")). by vm_compute in Hclaim.
Qed.

(** The examples of the specification: two matching tag rules give two
    tags; two matching tenant rules give the first configured one and the
    diagnostic; no match gives the fallback; a cluster relation also tries
    the name without its first path segment. *)
Example get_object_relation_samples :
  let resolve := get_object_relation Samples.sample_relations in
  fst (resolve "db01" "host_tag_relation" None) = RelList ["database"; "primary"]
  /\ fst (resolve "db01" "host_tenant_relation" None) = RelName (Some "dba")
  /\ List.filter (is_level DEBUG) (snd (resolve "db01" "host_tenant_relation" None))
     = [several_matches_record "db01" "host_tenant_relation" 2 "dba"]
  /\ resolve "mail01" "host_tenant_relation" (Some "nobody") = (RelName (Some "nobody"), [])
  /\ fst (resolve "region/az1" "cluster_site_relation" None) = RelName (Some "Berlin")
  /\ fst (resolve "region/az1" "host_tenant_relation" None) = RelName None.
Proof. repeat split; by vm_compute. Qed.

End RelationSamples.

(** ** ObjectMatcher, tier 3 *)

Section PrimaryIPMatching.
Implicit Types (inv : NetBoxInventory) (items : list managed_object).

Lemma _matches_no_needle inv value : _matches_device_primary_ip inv value None = false.
Proof. by destruct value. Qed.

Lemma primary_ip_scan_find inv p4 p6 items :
  primary_ip_scan inv p4 p6 items =
  List.find (fun device => _matches_device_primary_ip inv (data_primary_ip4 device) p4
                           || _matches_device_primary_ip inv (data_primary_ip6 device) p6) items.
Proof.
  induction items as [|device rest IH]; [done|].
  simpl. destruct (_matches_device_primary_ip inv (data_primary_ip4 device) p4); [done|].
  destruct (_matches_device_primary_ip inv (data_primary_ip6 device) p6); [done|].
  apply IH.
Qed.

Lemma find_orb_left {A} (f g : A -> bool) (l : list A) (x : A) :
  List.find (fun a => f a || g a) l = Some x -> f x = true -> List.find f l = Some x.
Proof.
  induction l as [|a l IH]; [done|]. simpl.
  destruct (f a) eqn:Hf; simpl; [done|].
  destruct (g a); simpl; [|done].
  intros [= ->] Hx. congruence.
Qed.

Lemma find_orb_none {A} (f g : A -> bool) (l : list A) :
  List.find (fun a => f a || g a) l = None <->
  List.find f l = None /\ List.find g l = None.
Proof.
  induction l as [|a l IH]; [done|]. simpl.
  destruct (f a), (g a); simpl; try (split; [done | by intros [? ?]]).
  apply IH.
Qed.

(** C3 (as the code has it). Tier 3 is one scan in inventory order: the
    first object whose primary IPv4 or whose primary IPv6 has the address of
    the corresponding given address is returned, the IPv4 being compared
    first on each object. It agrees with the two scans of the specification
    whenever the object found matches on its IPv4, and both find nothing on
    the same inputs. *)
Theorem get_object_based_on_primary_ip_single_scan inv t (p4 p6 : option string) :
  let needle4 := split_first "/" <$> p4 in
  let needle6 := split_first "/" <$> p6 in
  get_object_based_on_primary_ip inv t p4 p6 =
    List.find (fun device =>
                 _matches_device_primary_ip inv (data_primary_ip4 device) needle4
                 || _matches_device_primary_ip inv (data_primary_ip6 device) needle6)
              (get_all_items inv t) /\
  (forall device,
     get_object_based_on_primary_ip inv t p4 p6 = Some device ->
     _matches_device_primary_ip inv (data_primary_ip4 device) needle4 = true ->
     primary_ip_two_scans inv t p4 p6 = Some device) /\
  (get_object_based_on_primary_ip inv t p4 p6 = None <->
   primary_ip_two_scans inv t p4 p6 = None).
Proof.
  intros needle4 needle6.
  assert (Hfind : get_object_based_on_primary_ip inv t p4 p6 =
    List.find (fun device =>
                 _matches_device_primary_ip inv (data_primary_ip4 device) needle4
                 || _matches_device_primary_ip inv (data_primary_ip6 device) needle6)
              (get_all_items inv t)).
  { unfold get_object_based_on_primary_ip.
    destruct p4 as [p4|], p6 as [p6|]; try apply primary_ip_scan_find.
    subst needle4 needle6. simpl.
    induction (get_all_items inv t) as [|device rest IH]; [done|].
    simpl. by rewrite !_matches_no_needle. }
  split; [exact Hfind|]. rewrite Hfind. unfold primary_ip_two_scans.
  fold needle4 needle6. split.
  - intros device Hd H4. by rewrite (find_orb_left _ _ _ _ Hd H4).
  - rewrite find_orb_none. split.
    + intros [-> ->]. done.
    + destruct (List.find (fun device =>
                   _matches_device_primary_ip inv (data_primary_ip4 device) needle4)
                 (get_all_items inv t)) eqn:H4; [done|by intros ->].
Qed.

(** C3 (as the claim states it) fails: the first device matches on its
    IPv6 only and the second on its IPv4; the code returns the first, two
    scans would return the second. *)
Lemma earlier_ipv6_match_precedes_ipv4_match :
  get_object_based_on_primary_ip Samples.two_devices NBDevice
    (Some "10.0.0.5/24") (Some "2001:db8::1/64") = Some Samples.web01 /\
  primary_ip_two_scans Samples.two_devices NBDevice
    (Some "10.0.0.5/24") (Some "2001:db8::1/64") = Some Samples.web02.
Proof. split; reflexivity. Qed.

End PrimaryIPMatching.

(** ** PrimaryIPArbiter *)

Lemma filter_ext_bool {A} (f g : A -> bool) (l : list A) :
  (forall a, f a = g a) -> List.filter f l = List.filter g l.
Proof. intros Hfg. induction l as [|a l IH]; [done|]. simpl. by rewrite Hfg, IH. Qed.

Section PrimaryIPArbiter.
Implicit Types (inv : NetBoxInventory) (items objs : list managed_object)
  (ip_object : ip_address_object) (v : ip_version) (entity : nat).

Lemma oid_set_primary_ip_field v value obj : oid (set_primary_ip_field v value obj) = oid obj.
Proof. by destruct v. Qed.

Lemma primary_ip_set_same v value obj : primary_ip v (set_primary_ip_field v value obj) = value.
Proof. by destruct v. Qed.

Lemma primary_ip_set_other v v' value obj :
  v <> v' -> primary_ip v' (set_primary_ip_field v value obj) = primary_ip v' obj.
Proof. by destruct v, v'. Qed.

Lemma unset_scan_new v ip_object entity inv types :
  is_new ip_object = true -> unset_scan types v ip_object entity inv = inv.
Proof. intros Hnew. destruct types; simpl; [done|by rewrite Hnew]. Qed.

Lemma unset_scan_old v ip_object entity inv :
  is_new ip_object = false ->
  unset_scan [NBDevice; NBVM] v ip_object entity inv =
  Inventory (unset_on_others v ip_object entity (devices inv))
            (unset_on_others v ip_object entity (vms inv))
            (interfaces inv) (vm_interfaces inv) (ip_addresses inv).
Proof. intros Hnew. simpl. by rewrite Hnew. Qed.

Lemma update_after_unset v ip_object entity items :
  is_new ip_object = false ->
  update_primary_ip v entity ip_object (unset_on_others v ip_object entity items) =
  always_outcome v ip_object entity <$> items.
Proof.
  intros Hnew. unfold update_primary_ip, unset_on_others.
  rewrite List.map_map. apply List.map_ext. intros obj.
  unfold always_outcome, holds_primary_ip, unset_primary_ip. rewrite Hnew. simpl.
  destruct (decide (oid obj = entity)) as [Heq|Hne].
  - rewrite (bool_decide_eq_true_2 (oid obj = entity) Heq).
    by rewrite (bool_decide_eq_true_2 (oid obj = entity) Heq).
  - rewrite (bool_decide_eq_false_2 (oid obj = entity) Hne).
    destruct (bool_decide (primary_ip v obj = _)).
    + rewrite oid_set_primary_ip_field.
      by rewrite (bool_decide_eq_false_2 (oid obj = entity) Hne).
    + by rewrite (bool_decide_eq_false_2 (oid obj = entity) Hne).
Qed.

Lemma update_is_assign v ip_object entity items :
  update_primary_ip v entity ip_object items = assign_outcome v ip_object entity <$> items.
Proof. done. Qed.

Lemma always_outcome_new v ip_object entity obj :
  is_new ip_object = true ->
  always_outcome v ip_object entity obj = assign_outcome v ip_object entity obj.
Proof. intros Hnew. unfold always_outcome, assign_outcome. by rewrite Hnew. Qed.

(** The inventory after arbitration under [always]. *)
Lemma arbitrate_always inv entity ip_object v :
  fst (arbitrate_primary_ip "always" inv entity ip_object v) =
  Inventory (always_outcome v ip_object entity <$> devices inv)
            (always_outcome v ip_object entity <$> vms inv)
            (interfaces inv) (vm_interfaces inv) (ip_addresses inv).
Proof.
  unfold arbitrate_primary_ip. rewrite bool_decide_eq_true_2 by done. cbn [fst].
  destruct (is_new ip_object) eqn:Hnew.
  - rewrite unset_scan_new by done. unfold update_entity_primary_ip.
    rewrite !update_is_assign. f_equal; apply List.map_ext; intros obj;
      by rewrite always_outcome_new.
  - rewrite unset_scan_old by done. unfold update_entity_primary_ip.
    cbn [devices vms interfaces vm_interfaces ip_addresses].
    by rewrite !update_after_unset.
Qed.

(** The inventory after arbitration under a policy that is neither [always]
    nor [never]. *)
Lemma arbitrate_when_undefined policy inv entity ip_object v :
  policy <> "always" -> policy <> "never" ->
  fst (arbitrate_primary_ip policy inv entity ip_object v) =
  match get_object inv entity ≫= primary_ip v with
  | None => Inventory (assign_outcome v ip_object entity <$> devices inv)
                      (assign_outcome v ip_object entity <$> vms inv)
                      (interfaces inv) (vm_interfaces inv) (ip_addresses inv)
  | Some _ => inv
  end.
Proof.
  intros Ha Hn. unfold arbitrate_primary_ip.
  rewrite (bool_decide_eq_false_2 _ Ha), (bool_decide_eq_true_2 _ Hn). simpl.
  by destruct (get_object inv entity ≫= primary_ip v).
Qed.

Lemma arbitrate_never inv entity ip_object v :
  arbitrate_primary_ip "never" inv entity ip_object v = (inv, []).
Proof. done. Qed.

(** C2. Arbitration by policy. Under [never] nothing changes. Under
    [when-undefined] the slot of the entity is set to the IP object when it
    is unset, and nothing changes when it is set. Under [always] every
    managed object of either class other than the entity that holds the IP
    object in that slot loses it, unless the IP object is new, and the slot
    of the entity holds the IP object afterwards. Interfaces and IP
    addresses are never touched. *)
Theorem primary_ip_arbitration_by_policy (policy : string) inv entity ip_object v :
  let after := fst (arbitrate_primary_ip policy inv entity ip_object v) in
  let slot := get_object inv entity ≫= primary_ip v in
  (policy = "never" -> after = inv) /\
  (policy = "when-undefined" ->
     (slot <> None -> after = inv) /\
     (slot = None ->
        forall t, get_all_items after t = assign_outcome v ip_object entity <$> get_all_items inv t)) /\
  (policy = "always" ->
     forall t, get_all_items after t = always_outcome v ip_object entity <$> get_all_items inv t) /\
  interfaces after = interfaces inv /\
  vm_interfaces after = vm_interfaces inv /\
  ip_addresses after = ip_addresses inv.
Proof.
  intros after slot. subst after.
  split; [by intros ->|].
  split.
  { intros ->. rewrite arbitrate_when_undefined by done. fold slot.
    split; intros Hslot.
    - by destruct slot.
    - rewrite Hslot. by intros []. }
  split.
  { intros ->. rewrite arbitrate_always. by intros []. }
  destruct (decide (policy = "always")) as [->|Ha]; [by rewrite arbitrate_always|].
  destruct (decide (policy = "never")) as [->|Hn]; [done|].
  rewrite arbitrate_when_undefined by done.
  by destruct (get_object inv entity ≫= primary_ip v).
Qed.

(** The examples of the specification. [always]: the device [db01] holds
    the IP object 7 and the VM [db02] is now assigned it: [db01] loses it,
    [db02] has it. [when-undefined]: a primary IPv4 that is set is kept.
    [never]: nothing changes. *)
Example arbitration_samples :
  fst (arbitrate_primary_ip "always" Samples.one_owner 2 Samples.ip7 IPv4)
  = Inventory [ManagedObject 1 "db01" None None] [ManagedObject 2 "db02" (Some (PipObject 7)) None]
              [] [] [Samples.ip7]
  /\ fst (arbitrate_primary_ip "when-undefined" Samples.both_set 1 Samples.ip8 IPv4)
     = Samples.both_set
  /\ fst (arbitrate_primary_ip "always" Samples.both_set 1 Samples.ip8 IPv4)
     = Inventory [ManagedObject 1 "db01" (Some (PipObject 8)) None]
                 [ManagedObject 2 "db02" None None] [] [] [Samples.ip7; Samples.ip8]
  /\ fst (arbitrate_primary_ip "never" Samples.one_owner 2 Samples.ip7 IPv4) = Samples.one_owner.
Proof. repeat split; reflexivity. Qed.

(** *** Exclusive ownership *)

Lemma referenced_ip_same_addresses inv inv' value :
  ip_addresses inv' = ip_addresses inv -> referenced_ip inv' value = referenced_ip inv value.
Proof. intros Hips. destruct value; simpl; unfold get_by_id; by rewrite ?Hips. Qed.

Lemma references_same_addresses inv inv' v (ip : nat) obj :
  ip_addresses inv' = ip_addresses inv ->
  references_primary_ip inv' v ip obj = references_primary_ip inv v ip obj.
Proof.
  intros Hips. unfold references_primary_ip.
  destruct (primary_ip v obj) as [value|]; [|done]. simpl.
  by rewrite (referenced_ip_same_addresses inv inv').
Qed.

(** To hold the object is one way to reference it. *)
Lemma holds_references inv v (ip : nat) obj :
  holds_primary_ip v ip obj = true -> references_primary_ip inv v ip obj = true.
Proof.
  unfold holds_primary_ip, references_primary_ip. intros Hheld%bool_decide_eq_true.
  rewrite Hheld. by apply bool_decide_eq_true.
Qed.

Lemma selected_after_map_shrink (f : managed_object -> managed_object)
    (p : managed_object -> bool) objs :
  (forall obj, p (f obj) = true -> p obj = true) ->
  length (List.filter p (f <$> objs)) <= length (List.filter p objs).
Proof.
  intros Hp. induction objs as [|obj objs IH]; [done|].
  rewrite fmap_cons. cbn [List.filter].
  destruct (p (f obj)) eqn:Hafter.
  - rewrite (Hp _ Hafter). cbn [length]. lia.
  - destruct (p obj); cbn [length]; lia.
Qed.

Lemma selected_after_map_absent (f : managed_object -> managed_object)
    (p : managed_object -> bool) entity objs :
  (forall obj, obj ∈ objs -> p (f obj) = true -> oid obj = entity) ->
  entity ∉ oid <$> objs ->
  List.filter p (f <$> objs) = [].
Proof.
  intros Hsingle Habsent.
  induction objs as [|obj objs IH]; [done|].
  rewrite fmap_cons. cbn [List.filter].
  rewrite fmap_cons, not_elem_of_cons in Habsent. destruct Habsent as [Hne Habsent].
  destruct (p (f obj)) eqn:Hafter.
  - exfalso. apply Hne. symmetry. apply Hsingle; [left|done].
  - apply IH; [|done]. intros obj' Hin. apply Hsingle. by right.
Qed.

Lemma selected_after_map_single (f : managed_object -> managed_object)
    (p : managed_object -> bool) entity objs :
  (forall obj, obj ∈ objs -> p (f obj) = true -> oid obj = entity) ->
  NoDup (oid <$> objs) ->
  length (List.filter p (f <$> objs)) <= 1.
Proof.
  intros Hsingle Hnodup.
  induction objs as [|obj objs IH]; [simpl; lia|].
  rewrite fmap_cons, NoDup_cons in Hnodup. destruct Hnodup as [Hfresh Hnodup].
  assert (Hrest : forall obj', obj' ∈ objs -> p (f obj') = true -> oid obj' = entity).
  { intros obj' Hin. apply Hsingle. by right. }
  rewrite fmap_cons. cbn [List.filter].
  destruct (p (f obj)) eqn:Hafter.
  - assert (oid obj = entity) as Hentity by (apply Hsingle; [left|done]).
    subst entity.
    rewrite (selected_after_map_absent f p (oid obj) objs Hrest Hfresh). simpl. lia.
  - by apply IH.
Qed.

(** A step that rewrites every managed object with [f] keeps the ownership
    exclusive when afterwards the entity alone references the IP object
    [ip] in slot [v], and no other reference is new. *)
Lemma exclusive_after_map (f : managed_object -> managed_object) v (ip : nat) entity
    inv after :
  devices after = f <$> devices inv ->
  vms after = f <$> vms inv ->
  ip_addresses after = ip_addresses inv ->
  (forall v' ip' obj, (v', ip') <> (v, ip) ->
     references_primary_ip inv v' ip' (f obj) = true ->
     references_primary_ip inv v' ip' obj = true) ->
  (forall obj, obj ∈ all_objects inv ->
     references_primary_ip inv v ip (f obj) = true -> oid obj = entity) ->
  NoDup (oid <$> all_objects inv) ->
  exclusive_primary_ips inv ->
  exclusive_primary_ips after.
Proof.
  intros Hdev Hvm Hips Hother Hsingle Hnodup Hexcl v' ip'.
  assert (Hall : all_objects after = f <$> all_objects inv).
  { unfold all_objects. by rewrite Hdev, Hvm, fmap_app. }
  unfold referrers. rewrite Hall, length_fmap.
  erewrite (filter_ext_bool (references_primary_ip after v' ip'));
    [|intros obj; by apply references_same_addresses].
  destruct (decide ((v', ip') = (v, ip))) as [[= -> ->]|Hne].
  - by apply (selected_after_map_single f _ entity).
  - etrans; [apply selected_after_map_shrink; intros obj; by apply Hother|].
    specialize (Hexcl v' ip'). unfold referrers in Hexcl. by rewrite length_fmap in Hexcl.
Qed.

Lemma always_outcome_oid v ip_object entity obj :
  oid (always_outcome v ip_object entity obj) = oid obj.
Proof.
  unfold always_outcome. repeat case_match; by rewrite ?oid_set_primary_ip_field.
Qed.

Lemma assign_outcome_oid v ip_object entity obj :
  oid (assign_outcome v ip_object entity obj) = oid obj.
Proof.
  unfold assign_outcome. repeat case_match; by rewrite ?oid_set_primary_ip_field.
Qed.

Lemma references_after_set inv v v' (ip ip' : nat) obj :
  (v', ip') <> (v, ip) ->
  references_primary_ip inv v' ip' (set_primary_ip_field v (Some (PipObject ip)) obj) = true ->
  references_primary_ip inv v' ip' obj = true.
Proof.
  intros Hne. unfold references_primary_ip.
  destruct (decide (v = v')) as [->|Hv].
  - rewrite primary_ip_set_same. simpl. intros Heq%bool_decide_eq_true. naive_solver.
  - by rewrite primary_ip_set_other.
Qed.

Lemma references_after_unset inv v v' (ip' : nat) obj :
  references_primary_ip inv v' ip' (set_primary_ip_field v None obj) = true ->
  references_primary_ip inv v' ip' obj = true.
Proof.
  unfold references_primary_ip.
  destruct (decide (v = v')) as [->|Hv].
  - rewrite primary_ip_set_same. by intros Heq%bool_decide_eq_true.
  - by rewrite primary_ip_set_other.
Qed.

(** No reference is new but the one of the entity to the IP object. *)
Lemma always_outcome_references inv v v' ip_object (ip' : nat) entity obj :
  (v', ip') <> (v, ip_oid ip_object) ->
  references_primary_ip inv v' ip' (always_outcome v ip_object entity obj) = true ->
  references_primary_ip inv v' ip' obj = true.
Proof.
  intros Hne. unfold always_outcome.
  repeat case_match; [by apply references_after_set|by apply references_after_unset|done].
Qed.

Lemma assign_outcome_references inv v v' ip_object (ip' : nat) entity obj :
  (v', ip') <> (v, ip_oid ip_object) ->
  references_primary_ip inv v' ip' (assign_outcome v ip_object entity obj) = true ->
  references_primary_ip inv v' ip' obj = true.
Proof.
  intros Hne. unfold assign_outcome. case_match; [by apply references_after_set|done].
Qed.

(** Under [always], an object other than the entity that referenced the IP
    object by holding it references it no more. *)
Lemma always_outcome_clears inv v ip_object entity obj :
  is_new ip_object = false ->
  oid obj <> entity ->
  (references_primary_ip inv v (ip_oid ip_object) obj = true ->
   holds_primary_ip v (ip_oid ip_object) obj = true) ->
  references_primary_ip inv v (ip_oid ip_object) (always_outcome v ip_object entity obj) = false.
Proof.
  intros Hold Hoid Hheld. unfold always_outcome.
  rewrite (bool_decide_eq_false_2 _ Hoid), Hold. simpl.
  destruct (holds_primary_ip v (ip_oid ip_object) obj) eqn:Hholds.
  - unfold references_primary_ip. rewrite primary_ip_set_same. by apply bool_decide_eq_false.
  - destruct (references_primary_ip inv v (ip_oid ip_object) obj); [|done].
    by specialize (Hheld eq_refl).
Qed.

Lemma arbitrate_keeps_exclusive (policy : string) inv entity ip_object v :
  NoDup (oid <$> all_objects inv) ->
  exclusive_primary_ips inv ->
  (policy = "never"
   \/ (policy = "always" /\ is_new ip_object = false
       /\ forall obj, obj ∈ all_objects inv -> oid obj <> entity ->
            references_primary_ip inv v (ip_oid ip_object) obj = true ->
            holds_primary_ip v (ip_oid ip_object) obj = true)
   \/ (forall obj, obj ∈ all_objects inv ->
         references_primary_ip inv v (ip_oid ip_object) obj = true -> oid obj = entity)) ->
  exclusive_primary_ips (fst (arbitrate_primary_ip policy inv entity ip_object v)).
Proof.
  intros Hnodup Hexcl Hcase.
  destruct (decide (policy = "never")) as [->|Hn]; [done|].
  destruct (decide (policy = "always")) as [->|Ha].
  - rewrite arbitrate_always.
    eapply (exclusive_after_map (always_outcome v ip_object entity) v (ip_oid ip_object) entity);
      [done|done|done| | |done|done].
    + intros v' ip' obj. apply always_outcome_references.
    + intros obj Hin Hafter.
      destruct (decide (oid obj = entity)) as [Hoid|Hoid]; [done|].
      destruct Hcase as [?|[(_ & Hold & Hheld)|Hcase]]; [done| |].
      * rewrite always_outcome_clears in Hafter; [done..|]. by apply Hheld.
      * apply Hcase; [done|]. revert Hafter. unfold always_outcome.
        rewrite (bool_decide_eq_false_2 _ Hoid).
        destruct (negb (is_new ip_object) && holds_primary_ip v (ip_oid ip_object) obj) eqn:Hclear;
          [|done].
        apply andb_true_iff in Hclear as [_ Hholds]. intros _. by apply holds_references.
  - rewrite arbitrate_when_undefined by done.
    destruct (get_object inv entity ≫= primary_ip v); [done|].
    destruct Hcase as [?|[[? _]|Hcase]]; [done|done|].
    eapply (exclusive_after_map (assign_outcome v ip_object entity) v (ip_oid ip_object) entity);
      [done|done|done| | |done|done].
    + intros v' ip' obj. apply assign_outcome_references.
    + intros obj Hin. unfold assign_outcome.
      case_bool_decide as Hoid; [done|]. by apply Hcase.
Qed.

(** C1 (as the code has it). Arbitration keeps the ownership of primary IPs
    exclusive, whatever the form of the references, under [never]; under
    [always] for an IP object that is not new, when the other managed
    objects that reference it hold the object itself; and under any policy
    when no managed object other than the entity references the IP object
    in that slot beforehand. *)
Theorem arbitration_keeps_exclusive_primary_ips (policy : string) inv entity ip_object v :
  NoDup (oid <$> all_objects inv) ->
  exclusive_primary_ips inv ->
  (policy = "never"
   \/ (policy = "always" /\ is_new ip_object = false
       /\ forall obj, obj ∈ all_objects inv -> oid obj <> entity ->
            references_primary_ip inv v (ip_oid ip_object) obj = true ->
            holds_primary_ip v (ip_oid ip_object) obj = true)
   \/ (forall obj, obj ∈ all_objects inv ->
         references_primary_ip inv v (ip_oid ip_object) obj = true -> oid obj = entity)) ->
  exclusive_primary_ips (fst (arbitrate_primary_ip policy inv entity ip_object v)).
Proof. apply arbitrate_keeps_exclusive. Qed.

Lemma one_owner_exclusive : exclusive_primary_ips Samples.one_owner.
Proof.
  intros v ip. unfold referrers, references_primary_ip. destruct v; simpl.
  - case_bool_decide; simpl; lia.
  - lia.
Qed.

Lemma one_owner_NoDup : NoDup (oid <$> all_objects Samples.one_owner).
Proof. apply (bool_decide_unpack _). by vm_compute. Qed.

(** The other objects of [one_owner] that reference the IP object 7 hold it. *)
Lemma one_owner_holds_objects (entity : nat) v :
  forall obj, obj ∈ all_objects Samples.one_owner -> oid obj <> entity ->
    references_primary_ip Samples.one_owner v 7 obj = true ->
    holds_primary_ip v 7 obj = true.
Proof.
  intros obj Hin _. unfold all_objects in Hin. simpl in Hin.
  apply elem_of_cons in Hin as [->|Hin]; [by destruct v|].
  apply list_elem_of_singleton in Hin as ->. by destruct v.
Qed.

(** Under [always] the VM [db02] takes the IP object 7 over from [db01]. *)
Lemma arbitration_keeps_exclusive_primary_ips_witness :
  referrers IPv4 7 Samples.one_owner = [1]
  /\ referrers IPv4 7 (fst (arbitrate_primary_ip "always" Samples.one_owner 2 Samples.ip7 IPv4))
     = [2]
  /\ exclusive_primary_ips (fst (arbitrate_primary_ip "always" Samples.one_owner 2 Samples.ip7 IPv4)).
Proof.
  split; [reflexivity|]. split; [reflexivity|].
  apply (arbitration_keeps_exclusive_primary_ips "always" Samples.one_owner 2 Samples.ip7 IPv4).
  - exact one_owner_NoDup.
  - exact one_owner_exclusive.
  - right; left. split; [reflexivity|]. split; [reflexivity|].
    exact (one_owner_holds_objects 2 IPv4).
Defined.

(** C1 (as the claim states it) fails under [when-undefined]: the VM [db02]
    has no primary IPv4, so it is given the IP object 7, which the device
    [db01] keeps: two owners. *)
Lemma when_undefined_shares_primary_ip :
  exclusive_primary_ips Samples.one_owner /\
  referrers IPv4 7
    (fst (arbitrate_primary_ip "when-undefined" Samples.one_owner 2 Samples.ip7 IPv4))
    = [1; 2] /\
  ~ exclusive_primary_ips
      (fst (arbitrate_primary_ip "when-undefined" Samples.one_owner 2 Samples.ip7 IPv4)).
Proof.
  split; [exact one_owner_exclusive|]. split; [reflexivity|].
  intros Hexcl. specialize (Hexcl IPv4 7). vm_compute in Hexcl. lia.
Qed.

(** Under [always] the device [db01], which references the IP address 7 by
    its NetBox id, keeps the reference when the VM [db02] is given the IP
    object: line 675 compares the slot with the object only. *)
Example always_keeps_a_reference_by_id :
  exclusive_primary_ips Samples.owner_by_id /\
  fst (arbitrate_primary_ip "always" Samples.owner_by_id 2 Samples.ip7 IPv4)
  = Inventory [ManagedObject 1 "db01" (Some (PipId 70)) None]
              [ManagedObject 2 "db02" (Some (PipObject 7)) None] [] [] [Samples.ip7] /\
  referrers IPv4 7 (fst (arbitrate_primary_ip "always" Samples.owner_by_id 2 Samples.ip7 IPv4))
  = [1; 2].
Proof.
  split; [|split; reflexivity].
  intros v ip. unfold referrers, references_primary_ip. destruct v; simpl.
  - case_bool_decide; simpl; lia.
  - lia.
Qed.

End PrimaryIPArbiter.

(** ** ObjectMatcher, tier 2 *)

Section MacMatching.
Implicit Types (inv : NetBoxInventory) (tally : list (nat * nat)).

(** *** The tally *)

Lemma tally_get_add obj other tally :
  tally_get other (tally_add obj tally)
  = if bool_decide (other = obj) then tally_get other tally + 1 else tally_get other tally.
Proof.
  induction tally as [|[key count] tally IH]; simpl.
  - repeat case_bool_decide; by simplify_eq.
  - repeat (case_bool_decide; simpl; simplify_eq); try done; try lia.
Qed.

Lemma tally_add_keys obj tally :
  (tally_add obj tally).*1 = if bool_decide (obj ∈ tally.*1) then tally.*1 else tally.*1 ++ [obj].
Proof.
  induction tally as [|[key count] tally IH]; [done|]. cbn [tally_add].
  destruct (decide (key = obj)) as [->|Hkey].
  - rewrite (bool_decide_eq_true_2 (obj = obj)) by done.
    rewrite bool_decide_eq_true_2; [done|]. rewrite fmap_cons. by left.
  - rewrite (bool_decide_eq_false_2 (key = obj)) by done.
    rewrite !fmap_cons, IH. cbn [fst].
    destruct (decide (obj ∈ tally.*1)) as [Hin|Hout].
    + rewrite (bool_decide_eq_true_2 (obj ∈ tally.*1)) by done.
      rewrite bool_decide_eq_true_2; [done|]. by right.
    + rewrite (bool_decide_eq_false_2 (obj ∈ tally.*1)) by done.
      rewrite bool_decide_eq_false_2; [done|].
      rewrite not_elem_of_cons. by split.
Qed.

Lemma tally_add_NoDup obj tally : NoDup tally.*1 -> NoDup (tally_add obj tally).*1.
Proof.
  intros Hnodup. rewrite tally_add_keys. case_bool_decide as Hin; [done|].
  apply NoDup_app. repeat split; [done| |apply NoDup_singleton].
  intros key Hkey ->%list_elem_of_singleton. done.
Qed.

Lemma tally_add_positive obj tally :
  Forall (fun entry => 0 < snd entry) tally ->
  Forall (fun entry => 0 < snd entry) (tally_add obj tally).
Proof.
  induction 1 as [|[key count] tally Hpos Htail IH]; simpl.
  - repeat constructor.
  - case_bool_decide; constructor; simpl in *; first [lia|done].
Qed.

Lemma tally_get_elem obj count tally :
  NoDup tally.*1 -> (obj, count) ∈ tally -> tally_get obj tally = count.
Proof.
  induction tally as [|[key c] tally IH]; intros Hnodup Hin; [by apply elem_of_nil in Hin|].
  rewrite fmap_cons, NoDup_cons in Hnodup. destruct Hnodup as [Hfresh Hnodup].
  apply elem_of_cons in Hin as [[= -> ->]|Hin]; simpl.
  - by rewrite bool_decide_eq_true_2.
  - rewrite bool_decide_eq_false_2; [by apply IH|].
    intros ->. apply Hfresh. apply list_elem_of_fmap. by exists (obj, count).
Qed.

Lemma tally_elem_get obj tally :
  0 < tally_get obj tally -> (obj, tally_get obj tally) ∈ tally.
Proof.
  induction tally as [|[key c] tally IH]; simpl; [lia|].
  case_bool_decide as Hkey; [subst; left|]. intros Hpos. right. by apply IH.
Qed.

(** *** The scan *)

Lemma mac_tally_cons mac_list interface scanned obj :
  mac_tally mac_list (interface :: scanned) obj
  = (if mac_in_list (mac_address interface) mac_list && bool_decide (owner interface = Some obj)
     then 1 else 0) + mac_tally mac_list scanned obj.
Proof. unfold mac_tally. simpl. by destruct (_ && _). Qed.

(** The state the loop of lines 309-324 ends in, from any state it may
    have reached. *)
Lemma mac_scan_invariant mac_list scanned (st : mac_scan) (counted : nat -> nat) :
  matches_are_owned mac_list scanned ->
  NoDup (objects_with_matching_macs st).*1 ->
  Forall (fun entry => 0 < snd entry) (objects_with_matching_macs st) ->
  (forall obj, tally_get obj (objects_with_matching_macs st) = counted obj) ->
  (objects_with_matching_macs st <> [] -> is_Some (matching_object st)) ->
  let final := fold_left (mac_step mac_list) scanned st in
  NoDup (objects_with_matching_macs final).*1
  /\ Forall (fun entry => 0 < snd entry) (objects_with_matching_macs final)
  /\ (forall obj, tally_get obj (objects_with_matching_macs final)
                  = counted obj + mac_tally mac_list scanned obj)
  /\ (objects_with_matching_macs final <> [] -> is_Some (matching_object final)).
Proof.
  revert st counted.
  induction scanned as [|interface scanned IH]; intros st counted Howned Hnodup Hpos Hget Hlast.
  { simpl. repeat split; [done..| |done]. intros obj. rewrite Hget. unfold mac_tally. simpl. lia. }
  assert (Hrest : matches_are_owned mac_list scanned).
  { intros i Hi. apply Howned. by right. }
  cbn [fold_left].
  destruct (mac_in_list (mac_address interface) mac_list) eqn:Hmac.
  - destruct (Howned interface) as [obj Hobj]; [left|done|].
    assert (Hstep : mac_step mac_list st interface
                    = MacScan (tally_add obj (objects_with_matching_macs st)) (Some obj)).
    { unfold mac_step. by rewrite Hmac, Hobj. }
    rewrite Hstep.
    destruct (IH (MacScan (tally_add obj (objects_with_matching_macs st)) (Some obj))
                 (fun o => counted o + (if bool_decide (o = obj) then 1 else 0)) Hrest)
      as (Hn & Hp & Hg & Hl); cbn [objects_with_matching_macs matching_object].
    + by apply tally_add_NoDup.
    + by apply tally_add_positive.
    + intros o. rewrite tally_get_add, Hget. case_bool_decide; lia.
    + by eexists.
    + repeat split; [done..| |done]. intros o. rewrite Hg, mac_tally_cons, Hmac, Hobj.
      cbn [andb].
      destruct (decide (o = obj)) as [->|Hne].
      * rewrite !bool_decide_eq_true_2 by done. lia.
      * rewrite (bool_decide_eq_false_2 (o = obj)) by done.
        rewrite bool_decide_eq_false_2 by congruence. lia.
  - assert (Hstep : mac_step mac_list st interface = st).
    { unfold mac_step. by rewrite Hmac. }
    rewrite Hstep.
    destruct (IH st counted Hrest Hnodup Hpos Hget Hlast) as (Hn & Hp & Hg & Hl).
    repeat split; [done..| |done]. intros o. rewrite Hg, mac_tally_cons, Hmac. simpl. lia.
Qed.

(** *** The two top matches *)

Lemma insert_desc_perm x l : insert_desc x l ≡ₚ x :: l.
Proof.
  induction l as [|y l IH]; [done|]. simpl.
  destruct (_ <? _)%nat; [|done]. rewrite IH. apply Permutation_swap.
Qed.

Lemma sorted_desc_perm l : sorted_desc l ≡ₚ l.
Proof.
  induction l as [|x l IH]; [done|]. simpl. rewrite insert_desc_perm. by f_equiv.
Qed.

Lemma insert_desc_sorted x l :
  StronglySorted (fun a b => snd b <= snd a) l ->
  StronglySorted (fun a b => snd b <= snd a) (insert_desc x l).
Proof.
  induction 1 as [|y l Hsorted IH Hall]; simpl; [by repeat constructor|].
  destruct (snd x <? snd y)%nat eqn:Hlt.
  - apply Nat.ltb_lt in Hlt. constructor; [done|].
    rewrite insert_desc_perm. constructor; [lia|done].
  - apply Nat.ltb_ge in Hlt. constructor; [by constructor|].
    constructor; [done|]. eapply Forall_impl; [exact Hall|]. simpl. intros; lia.
Qed.

Lemma sorted_desc_sorted l : StronglySorted (fun a b => snd b <= snd a) (sorted_desc l).
Proof.
  induction l as [|x l IH]; simpl; [constructor|]. by apply insert_desc_sorted.
Qed.

(** The ratio test of line 354 on two tallies. *)
Lemma matching_ration_ge_2 (first_choice_matches second_choice_matches : nat) :
  0 < second_choice_matches ->
  Qle_bool 2 (matching_ration first_choice_matches second_choice_matches) = true
  <-> 2 * second_choice_matches <= first_choice_matches.
Proof.
  intros Hpos. unfold matching_ration. rewrite Qle_bool_iff.
  assert (Hq : (0 < inject_Z (Z.of_nat second_choice_matches))%Q).
  { change 0%Q with (inject_Z 0). rewrite <- Zlt_Qlt. lia. }
  split.
  - intros Hle. apply (Qmult_le_compat_r _ _ (inject_Z (Z.of_nat second_choice_matches))) in Hle;
      [|by apply Qlt_le_weak].
    rewrite Qmult_comm, (Qmult_comm (_ / _)), Qmult_div_r in Hle
      by (intros Heq; rewrite Heq in Hq; by apply Qlt_irrefl in Hq).
    change 2%Q with (inject_Z 2) in Hle. rewrite <- inject_Z_mult, <- Zle_Qle in Hle. lia.
  - intros Hle. apply Qle_shift_div_l; [done|].
    change 2%Q with (inject_Z 2). rewrite <- inject_Z_mult, <- Zle_Qle. lia.
Qed.

(** What the scan ends in, from the start. *)
Lemma mac_scan_result_tally inv t mac_list :
  matches_are_owned mac_list (get_all_interfaces inv (interface_typ t)) ->
  let final := mac_scan_result inv t mac_list in
  let tally := mac_tally mac_list (get_all_interfaces inv (interface_typ t)) in
  NoDup (objects_with_matching_macs final).*1
  /\ (forall obj count, (obj, count) ∈ objects_with_matching_macs final
                        -> count = tally obj /\ 0 < count)
  /\ (forall obj, 0 < tally obj -> (obj, tally obj) ∈ objects_with_matching_macs final)
  /\ (objects_with_matching_macs final <> [] -> is_Some (matching_object final)).
Proof.
  intros Howned final tally.
  destruct (mac_scan_invariant mac_list (get_all_interfaces inv (interface_typ t))
              (MacScan [] None) (fun _ => 0) Howned) as (Hnodup & Hpos & Hget & Hlast);
    [constructor|constructor|done|done|].
  fold (mac_scan_result inv t mac_list) in Hnodup, Hpos, Hget, Hlast. fold final in Hnodup, Hpos, Hget, Hlast.
  repeat split; [done| | | |done].
  - rewrite <- (tally_get_elem obj count (objects_with_matching_macs final)) by done.
    by rewrite Hget.
  - rewrite Forall_forall in Hpos. by apply (Hpos (obj, count)).
  - intros obj Hobj. specialize (Hget obj). simpl in Hget. fold tally in Hget.
    rewrite <- Hget. apply tally_elem_get. by rewrite Hget.
Qed.

(** C4, where the code agrees with it: when every interface that carries
    one of the MACs belongs to an object, the object returned is the one
    whose tally is not zero and at least twice every other tally. So a
    single tallied owner is returned, of several owners the top one is
    returned exactly when its tally is at least twice the second tally, and
    nothing is returned otherwise; the tallies do not depend on the order
    of the scan. *)
Theorem macs_find_the_dominant_owner inv t (mac_list : list string) (obj : nat) :
  mac_list <> [] ->
  matches_are_owned mac_list (get_all_interfaces inv (interface_typ t)) ->
  let tally := mac_tally mac_list (get_all_interfaces inv (interface_typ t)) in
  get_object_based_on_macs inv t mac_list = Some obj
  <-> 0 < tally obj /\ forall other, other <> obj -> 2 * tally other <= tally obj.
Proof.
  intros Hmacs Howned tally.
  destruct (mac_scan_result_tally inv t mac_list Howned) as (Hnodup & Hin & Hall & Hlast).
  fold tally in Hin, Hall.
  unfold get_object_based_on_macs. destruct mac_list as [|mac mac_list]; [done|].
  set (final := mac_scan_result inv t (mac :: mac_list)) in *.
  cbv zeta.
  pose proof (sorted_desc_perm (objects_with_matching_macs final)) as Hperm.
  pose proof (sorted_desc_sorted (objects_with_matching_macs final)) as Hsorted.
  destruct (objects_with_matching_macs final) as [|[top c1] [|[second c2] rest]] eqn:Htally.
  - (* nothing tallied *)
    simpl. split; [done|]. intros [Hpos _]. apply Hall in Hpos. by apply elem_of_nil in Hpos.
  - (* one owner *)
    destruct Hlast as [last Hlast]; [done|]. rewrite Hlast.
    rewrite (bool_decide_eq_true_2 (length [(top, c1)] = 1)) by done.
    rewrite (bool_decide_eq_true_2 (is_Some (Some last))) by by eexists.
    simpl. destruct (Hin top c1) as [Hc1 Hpos1]; [left|].
    split.
    + intros [= <-]. split; [lia|]. intros other Hother.
      destruct (decide (0 < tally other)) as [Hpos|]; [|lia].
      apply Hall, list_elem_of_singleton in Hpos. by simplify_eq.
    + intros [Hpos _]. apply Hall, list_elem_of_singleton in Hpos. by simplify_eq.
  - (* two or more owners *)
    rewrite (bool_decide_eq_false_2 (length ((top, c1) :: (second, c2) :: rest) = 1))
      by (simpl; lia).
    rewrite (bool_decide_eq_true_2 (1 < length ((top, c1) :: (second, c2) :: rest)))
      by (simpl; lia).
    cbn [andb].
    destruct (sorted_desc ((top, c1) :: (second, c2) :: rest))
      as [|[first_choice m1] [|[second_choice m2] others]] eqn:Hsort.
    { by apply Permutation_nil_l in Hperm. }
    { apply Permutation_length in Hperm. simpl in Hperm. lia. }
    assert (Hfirst : m1 = tally first_choice /\ 0 < m1).
    { apply Hin. rewrite <- Hperm. left. }
    assert (Hsecond : m2 = tally second_choice /\ 0 < m2).
    { apply Hin. rewrite <- Hperm. right; left. }
    assert (Hdistinct : first_choice <> second_choice).
    { assert (Hn : NoDup ((first_choice, m1) :: (second_choice, m2) :: others).*1)
        by by rewrite Hperm.
      rewrite !fmap_cons, !NoDup_cons in Hn. destruct Hn as [Hn _].
      intros ->. apply Hn. left. }
    apply StronglySorted_cons in Hsorted as [Hbelow1 Hsorted].
    apply StronglySorted_cons in Hsorted as [Hbelow2 _].
    rewrite Forall_cons in Hbelow1. destruct Hbelow1 as [Hle12 Hbelow1]. simpl in Hle12.
    assert (Hothers : forall other, other <> first_choice -> tally other <= m2).
    { intros other Hother.
      destruct (decide (0 < tally other)) as [Hpos|]; [|lia].
      apply Hall in Hpos. rewrite <- Hperm in Hpos.
      apply elem_of_cons in Hpos as [?|Hpos]; [by simplify_eq|].
      apply elem_of_cons in Hpos as [?|Hpos]; [by simplify_eq|].
      rewrite Forall_forall in Hbelow2. by apply (Hbelow2 (other, tally other)). }
    destruct (Qle_bool 2 (matching_ration m1 m2)) eqn:Hratio.
    + apply matching_ration_ge_2 in Hratio; [|lia]. split.
      * intros [= <-]. split; [lia|]. intros other Hother.
        specialize (Hothers other Hother). lia.
      * intros [Hpos Hdominant]. f_equal.
        destruct (decide (first_choice = obj)) as [|Hne]; [done|].
        specialize (Hdominant first_choice Hne). specialize (Hothers obj ltac:(done)). lia.
    + split; [done|]. intros [Hpos Hdominant]. exfalso.
      assert (Hno : ~ 2 * m2 <= m1).
      { intros Hle. apply matching_ration_ge_2 in Hle; [|lia]. congruence. }
      destruct (decide (first_choice = obj)) as [<-|Hne].
      * specialize (Hdominant second_choice ltac:(done)). lia.
      * specialize (Hdominant first_choice Hne). specialize (Hothers obj ltac:(done)). lia.
Qed.

Lemma matches_are_owned_Forall (mac_list : list string) (scanned : list interface_object) :
  Forall (fun interface => is_Some (owner interface)) scanned ->
  matches_are_owned mac_list scanned.
Proof. rewrite Forall_forall. intros Hall interface Hin _. by apply Hall. Qed.

(** With tallies (10, 4): device 1 is found, and its tally is at least
    twice any other. *)
Lemma macs_find_the_dominant_owner_witness :
  Samples.host_macs <> []
  /\ matches_are_owned Samples.host_macs
       (get_all_interfaces Samples.tallies_10_4 (interface_typ NBDevice))
  /\ mac_tally Samples.host_macs (interfaces Samples.tallies_10_4) 1 = 10
  /\ mac_tally Samples.host_macs (interfaces Samples.tallies_10_4) 2 = 4
  /\ forall other, other <> 1 ->
       2 * mac_tally Samples.host_macs (interfaces Samples.tallies_10_4) other <= 10.
Proof.
  assert (Howned : matches_are_owned Samples.host_macs
                     (get_all_interfaces Samples.tallies_10_4 (interface_typ NBDevice))).
  { apply matches_are_owned_Forall. apply (bool_decide_unpack _). by vm_compute. }
  split; [done|]. split; [exact Howned|]. split; [reflexivity|]. split; [reflexivity|].
  apply (proj1 (macs_find_the_dominant_owner Samples.tallies_10_4 NBDevice Samples.host_macs 1
                  ltac:(done) Howned)).
  reflexivity.
Defined.

(** The examples of the specification: tallies (10, 4) give the top owner,
    tallies (10, 6) give none. *)
Example macs_10_4 :
  objects_with_matching_macs (mac_scan_result Samples.tallies_10_4 NBDevice Samples.host_macs)
    = [(2, 4); (1, 10)]
  /\ get_object_based_on_macs Samples.tallies_10_4 NBDevice Samples.host_macs = Some 1.
Proof. split; reflexivity. Qed.

Example macs_10_6 :
  objects_with_matching_macs (mac_scan_result Samples.tallies_10_6 NBDevice Samples.host_macs)
    = [(2, 6); (1, 10)]
  /\ get_object_based_on_macs Samples.tallies_10_6 NBDevice Samples.host_macs = None.
Proof. split; reflexivity. Qed.

(** C4, where the code departs from it. Device 1 is the only object with a
    tally, yet it is not returned when the last interface with a matching
    MAC has no owner object: the test of line 329 reads [matching_object],
    the owner of the last matching interface, and not the tallied object.
    Scanned in the other order, the same interfaces give device 1. *)
Lemma single_owner_depends_on_scan_order :
  objects_with_matching_macs (mac_scan_result Samples.owner_then_orphan NBDevice Samples.host_macs)
    = [(1, 1)]
  /\ get_object_based_on_macs Samples.owner_then_orphan NBDevice Samples.host_macs = None
  /\ objects_with_matching_macs (mac_scan_result Samples.orphan_then_owner NBDevice Samples.host_macs)
    = [(1, 1)]
  /\ get_object_based_on_macs Samples.orphan_then_owner NBDevice Samples.host_macs = Some 1.
Proof. repeat split; reflexivity. Qed.

End MacMatching.

(** ** The processed-name registries *)

#[local] Arguments get_site_name : simpl never.
#[local] Arguments host_pipeline : simpl never.
#[local] Arguments vm_pipeline : simpl never.

Section Registries.
Context {R : Type} `{RegexObject R} `{Collaborators}.
Implicit Types (self : OpenStackHandler R) (registry : gmap string (list string)).

Lemma registry_has_append key name registry :
  registry_has key name (registry_append key name registry) = true.
Proof.
  unfold registry_has, registry_append. rewrite lookup_insert_eq. simpl.
  apply bool_decide_eq_true_2. set_solver.
Qed.

(** Two handler states are compared field by field, the logs up to the
    bracketing of [++]. *)
Ltac handler_eq :=
  unfold with_more_log, with_store, with_processed_host_names, with_processed_vm_names;
  cbn [store inventory log settings source_name site_name permitted_clusters cluster_host_map
       volume_map processed_host_names processed_vm_names object_cache fst snd];
  rewrite <- ?app_assoc; cbn [app]; rewrite <- ?app_assoc; try reflexivity.

Lemma with_more_log_app self lg1 lg2 :
  with_more_log (with_more_log self lg1) lg2 = with_more_log self (lg1 ++ lg2).
Proof. handler_eq. Qed.

(** [add_host], step by step. *)
Lemma add_host_run self obj :
  add_host obj self =
  let name := host_name self obj in
  let parsing := LogRecord DEBUG ("Parsing Openstack host: " +:+ name) in
  match get_cluster_for_host (cluster_host_map self) (hv_service_host obj) with
  | None =>
      (Returned tt,
       with_more_log self
         [parsing;
          LogRecord ERROR ("Requesting cluster for host '" +:+ name +:+ "' failed. Skipping.")])
  | Some cluster_name =>
      match permitted_clusters self !! cluster_name with
      | None =>
          (Returned tt,
           with_more_log self
             (parsing :: cluster_data_log obj
              ++ [LogRecord DEBUG ("Host '" +:+ name
                                   +:+ "' is not part of a permitted cluster. Skipping")]))
      | Some _ =>
          let site := get_site_name (settings self) (site_name self) SiteNBDevice name cluster_name in
          if registry_has (fst site) name (processed_host_names self) then
            (Returned tt,
             with_more_log self
               ((parsing :: cluster_data_log obj ++ snd site)
                ++ [LogRecord WARNING
                      ("Host '" +:+ name +:+ "' for site '" +:+ fst site
                       +:+ "' already parsed. Make sure to use unique host names. Skipping")]))
          else
            on_store (host_pipeline self obj name (fst site)
                                    (get_object_from_cache (object_cache self) cluster_name))
                     (with_processed_host_names
                        (with_more_log self (parsing :: cluster_data_log obj ++ snd site))
                        (registry_append (fst site) name (processed_host_names self)))
      end
  end.
Proof.
  unfold add_host, host_name.
  cbv [mbind M_bind get_state on_store write_log logged modify_self mret M_ret].
  destruct (get_cluster_for_host _ _) as [cluster_name|]; [|by handler_eq].
  cbn [fst snd].
  destruct (permitted_clusters self !! cluster_name); [|by handler_eq].
  cbn [fst snd].
  destruct (registry_has _ _ _); by handler_eq.
Qed.

(** A duplicate host: nothing but the log changes, and the last record is
    the warning. *)
Lemma add_host_duplicate self obj site :
  host_scope self obj = Some site ->
  registry_has site (host_name self obj) (processed_host_names self) = true ->
  exists lg msg,
    add_host obj self = (Returned tt, with_more_log self (lg ++ [LogRecord WARNING msg])).
Proof.
  unfold host_scope, host_cluster. intros Hscope Hdup.
  rewrite add_host_run. cbv zeta.
  destruct (get_cluster_for_host _ _) as [cluster_name|]; simpl in Hscope; [|done].
  destruct (permitted_clusters self !! cluster_name); simpl in Hscope; [|done].
  injection Hscope as Hsite. rewrite Hsite, Hdup.
  by eexists _, _.
Qed.

(** [add_virtual_machine], step by step. *)
Lemma add_virtual_machine_run self obj :
  add_virtual_machine obj self =
  let name := vm_name self obj in
  let status := if bool_decide (sv_status obj = Some "ACTIVE") then "active" else "offline" in
  let parsing := LogRecord DEBUG ("Parsing OpenStack VM: " +:+ name) in
  match (if strip_host_domain_name (settings self)
         then split_first "." <$> availability_zone obj
         else availability_zone obj) with
  | None =>
      (Returned tt,
       with_more_log self
         [parsing;
          LogRecord ERROR ("Requesting cluster for Virtual Machine '" +:+ name
                           +:+ "' failed. Skipping.")])
  | Some cluster_name =>
      match permitted_clusters self !! cluster_name with
      | None =>
          (Returned tt,
           with_more_log self
             [parsing;
              LogRecord DEBUG ("Virtual machine '" +:+ name
                               +:+ "' is not part of a permitted cluster. Skipping")])
      | Some _ =>
          if registry_has cluster_name name (processed_vm_names self) then
            (Returned tt,
             with_more_log self
               [parsing;
                LogRecord WARNING
                  ("Virtual machine '" +:+ name +:+ "' for cluster '" +:+ cluster_name
                   +:+ "' already parsed. Make sure to use unique VM names. Skipping")])
          else
            on_store (vm_pipeline self obj name status cluster_name
                                  (get_object_from_cache (object_cache self) cluster_name))
                     (with_processed_vm_names
                        (with_more_log self [parsing])
                        (registry_append cluster_name name (processed_vm_names self)))
      end
  end.
Proof.
  unfold add_virtual_machine, vm_name.
  cbv [mbind M_bind get_state on_store write_log logged modify_self mret M_ret].
  destruct (if strip_host_domain_name (settings self) then _ else _) as [cluster_name|];
    [|by handler_eq].
  destruct (permitted_clusters self !! cluster_name); [|by handler_eq].
  destruct (registry_has _ _ _); by handler_eq.
Qed.

Lemma add_virtual_machine_duplicate self obj cluster :
  vm_scope self obj = Some cluster ->
  registry_has cluster (vm_name self obj) (processed_vm_names self) = true ->
  exists lg msg,
    add_virtual_machine obj self
    = (Returned tt, with_more_log self (lg ++ [LogRecord WARNING msg])).
Proof.
  unfold vm_scope. intros Hscope Hdup.
  rewrite add_virtual_machine_run. cbv zeta.
  destruct (if strip_host_domain_name (settings self) then _ else _) as [cluster_name|];
    simpl in Hscope; [|done].
  destruct (permitted_clusters self !! cluster_name); simpl in Hscope; [|done].
  injection Hscope as ->. rewrite Hdup.
  by eexists [LogRecord DEBUG ("Parsing OpenStack VM: " +:+ vm_name self obj)], _.
Qed.

(** The pipelines stop at a name the filter rejects. *)
Lemma host_pipeline_rejected self obj name site cluster_object st :
  fst (passes_filter name (host_include_filter (settings self))
                     (host_exclude_filter (settings self))) = false ->
  host_pipeline self obj name site cluster_object st =
  (Returned tt,
   MkStore (inventory st)
           (log st ++ snd (passes_filter name (host_include_filter (settings self))
                                         (host_exclude_filter (settings self))))).
Proof.
  intros Hno. unfold host_pipeline.
  cbv [mbind M_bind logged mret M_ret]. by rewrite Hno.
Qed.

Lemma vm_pipeline_rejected self obj name status cluster cluster_object st :
  fst (passes_filter name (vm_include_filter (settings self))
                     (vm_exclude_filter (settings self))) = false ->
  vm_pipeline self obj name status cluster cluster_object st =
  (Returned tt,
   MkStore (inventory st)
           (log st ++ snd (passes_filter name (vm_include_filter (settings self))
                                         (vm_exclude_filter (settings self))))).
Proof.
  intros Hno. unfold vm_pipeline.
  cbv [mbind M_bind logged mret M_ret]. by rewrite Hno.
Qed.

(** What a method run through [on_store] leaves of [self]. *)
Lemma on_store_frame {A} (m : M Store A) self :
  let after := snd (on_store m self) in
  settings after = settings self /\ site_name after = site_name self
  /\ permitted_clusters after = permitted_clusters self
  /\ cluster_host_map after = cluster_host_map self
  /\ processed_host_names after = processed_host_names self
  /\ processed_vm_names after = processed_vm_names self.
Proof. unfold on_store. by destruct (m (store self)). Qed.

(** After [add_host], a host of a permitted cluster is in the registry of
    its site, and what scopes are computed from is as before. *)
Lemma add_host_after self obj :
  let after := snd (add_host obj self) in
  settings after = settings self /\ site_name after = site_name self
  /\ permitted_clusters after = permitted_clusters self
  /\ cluster_host_map after = cluster_host_map self
  /\ processed_vm_names after = processed_vm_names self
  /\ forall site, host_scope self obj = Some site ->
       registry_has site (host_name self obj) (processed_host_names after) = true.
Proof.
  cbv zeta. rewrite add_host_run. cbv zeta. unfold host_scope, host_cluster.
  destruct (get_cluster_for_host _ _) as [cluster_name|]; simpl; [|done].
  destruct (permitted_clusters self !! cluster_name); simpl; [|done].
  destruct (registry_has _ _ _) eqn:Hdup; simpl.
  { repeat split; [done..|]. by intros site [= <-]. }
  match goal with |- context [on_store ?m ?s] => pose proof (on_store_frame m s) as Hframe end.
  cbv zeta in Hframe. destruct Hframe as (-> & -> & -> & -> & -> & ->).
  repeat split; [done..|]. intros site [= <-]. simpl. apply registry_has_append.
Qed.

Lemma add_virtual_machine_after self obj :
  let after := snd (add_virtual_machine obj self) in
  settings after = settings self /\ site_name after = site_name self
  /\ permitted_clusters after = permitted_clusters self
  /\ cluster_host_map after = cluster_host_map self
  /\ processed_host_names after = processed_host_names self
  /\ forall cluster, vm_scope self obj = Some cluster ->
       registry_has cluster (vm_name self obj) (processed_vm_names after) = true.
Proof.
  cbv zeta. rewrite add_virtual_machine_run. cbv zeta. unfold vm_scope.
  destruct (if strip_host_domain_name (settings self) then _ else _) as [cluster_name|];
    simpl; [|done].
  destruct (permitted_clusters self !! cluster_name); simpl; [|done].
  destruct (registry_has _ _ _) eqn:Hdup; simpl.
  { repeat split; [done..|]. by intros cluster [= <-]. }
  match goal with |- context [on_store ?m ?s] => pose proof (on_store_frame m s) as Hframe end.
  cbv zeta in Hframe. destruct Hframe as (-> & -> & -> & -> & -> & ->).
  repeat split; [done..|]. intros cluster [= <-]. simpl. apply registry_has_append.
Qed.

Lemma host_scope_after self self' obj :
  settings self' = settings self -> site_name self' = site_name self ->
  permitted_clusters self' = permitted_clusters self ->
  cluster_host_map self' = cluster_host_map self ->
  host_scope self' obj = host_scope self obj /\ host_name self' obj = host_name self obj.
Proof.
  intros Hs Hd Hp Hc. unfold host_scope, host_cluster, host_name.
  by rewrite Hs, Hd, Hp, Hc.
Qed.

Lemma vm_scope_after self self' obj :
  settings self' = settings self ->
  permitted_clusters self' = permitted_clusters self ->
  vm_scope self' obj = vm_scope self obj /\ vm_name self' obj = vm_name self obj.
Proof. intros Hs Hp. unfold vm_scope, vm_name. by rewrite Hs, Hp. Qed.

(** C8 (as the code has it). The name is recorded right after the
    duplicate check, before the name filter: every record of a permitted
    cluster is in the registry of its scope after the method, whatever the
    filter says and however the method ends; and for a new name that the
    filter rejects, the registry entry and the log are all that changes. *)
Theorem name_is_recorded_before_the_filter :
  (forall self (obj : Hypervisor) site,
     host_scope self obj = Some site ->
     registry_has site (host_name self obj) (processed_host_names (snd (add_host obj self))) = true
     /\ (registry_has site (host_name self obj) (processed_host_names self) = false ->
         fst (passes_filter (host_name self obj) (host_include_filter (settings self))
                            (host_exclude_filter (settings self))) = false ->
         exists lg,
           add_host obj self
           = (Returned tt,
              with_processed_host_names (with_more_log self lg)
                (registry_append site (host_name self obj) (processed_host_names self)))))
  /\
  (forall self (obj : Server) cluster,
     vm_scope self obj = Some cluster ->
     registry_has cluster (vm_name self obj)
                  (processed_vm_names (snd (add_virtual_machine obj self))) = true
     /\ (registry_has cluster (vm_name self obj) (processed_vm_names self) = false ->
         fst (passes_filter (vm_name self obj) (vm_include_filter (settings self))
                            (vm_exclude_filter (settings self))) = false ->
         exists lg,
           add_virtual_machine obj self
           = (Returned tt,
              with_processed_vm_names (with_more_log self lg)
                (registry_append cluster (vm_name self obj) (processed_vm_names self))))).
Proof.
  split.
  - intros self obj site Hscope. split.
    { destruct (add_host_after self obj) as (_ & _ & _ & _ & _ & Hrecorded). by apply Hrecorded. }
    intros Hnew Hrejected. rewrite add_host_run. cbv zeta.
    unfold host_scope, host_cluster in Hscope.
    destruct (get_cluster_for_host _ _) as [cluster_name|]; simpl in Hscope; [|done].
    destruct (permitted_clusters self !! cluster_name); simpl in Hscope; [|done].
    injection Hscope as Hsite. rewrite Hsite, Hnew.
    unfold on_store. rewrite host_pipeline_rejected by done.
    eexists. by handler_eq.
  - intros self obj cluster Hscope. split.
    { destruct (add_virtual_machine_after self obj) as (_ & _ & _ & _ & _ & Hrecorded).
      by apply Hrecorded. }
    intros Hnew Hrejected. rewrite add_virtual_machine_run. cbv zeta.
    unfold vm_scope in Hscope.
    destruct (if strip_host_domain_name (settings self) then _ else _) as [cluster_name|];
      simpl in Hscope; [|done].
    destruct (permitted_clusters self !! cluster_name); simpl in Hscope; [|done].
    injection Hscope as ->. rewrite Hnew.
    unfold on_store. rewrite vm_pipeline_rejected by done.
    eexists. by handler_eq.
Qed.

End Registries.

(** The first step of a sequence that returns. *)
Lemma mbind_run {S A B} (m : M S A) (f : A -> M S B) (s s' : S) (a : A) :
  m s = (Returned a, s') -> (m ≫= f) s = f a s'.
Proof. intros Hm. unfold mbind, M_bind. by rewrite Hm. Qed.

(** ** Dictionaries *)

Section Dictionaries.
Context {V : Type}.
Implicit Types (d : dict V) (key : string) (v : V).

Lemma dict_get_set_eq key v d : dict_get key (dict_set key v d) = Some v.
Proof.
  induction d as [|[k w] d IH]; simpl.
  - by rewrite bool_decide_eq_true_2.
  - destruct (decide (k = key)) as [->|Hne].
    + rewrite (bool_decide_eq_true_2 (key = key)) by done. simpl.
      by rewrite bool_decide_eq_true_2.
    + rewrite (bool_decide_eq_false_2 (k = key)) by done. simpl.
      by rewrite (bool_decide_eq_false_2 (k = key)) by done.
Qed.

Lemma dict_set_set key v1 v2 d : dict_set key v2 (dict_set key v1 d) = dict_set key v2 d.
Proof.
  induction d as [|[k w] d IH]; simpl.
  - by rewrite bool_decide_eq_true_2.
  - destruct (decide (k = key)) as [->|Hne].
    + rewrite (bool_decide_eq_true_2 (key = key)) by done. simpl.
      by rewrite bool_decide_eq_true_2.
    + rewrite (bool_decide_eq_false_2 (k = key)) by done. simpl.
      rewrite (bool_decide_eq_false_2 (k = key)) by done. by rewrite IH.
Qed.

Lemma dict_set_same key v d : dict_get key d = Some v -> dict_set key v d = d.
Proof.
  induction d as [|[k w] d IH]; simpl; [done|].
  destruct (decide (k = key)) as [->|Hne].
  - rewrite (bool_decide_eq_true_2 (key = key)) by done. by intros [= ->].
  - rewrite (bool_decide_eq_false_2 (k = key)) by done. intros Hget. by rewrite IH.
Qed.

Lemma dict_set_fresh key v d : key ∉ d.*1 -> dict_set key v d = d ++ [(key, v)].
Proof.
  induction d as [|[k w] d IH]; simpl; [done|].
  rewrite not_elem_of_cons. intros [Hne Hfresh].
  rewrite bool_decide_eq_false_2 by done. by rewrite IH.
Qed.

End Dictionaries.

(** ** The addresses of a server *)

Section ServerAddresses.
Context {R : Type} `{RegexObject R} `{Collaborators}.
Implicit Types (loc : vm_locals) (st : Store) (address : Address).

(** One address that parses: what the step leaves in the local variables. *)
Lemma address_step_returns name site network loc address st :
  parses address ->
  let ip_addr := formatted_address (inventory st) site address in
  exists loc' lg,
    address_step name site network loc address st
    = (Returned loc', MkStore (inventory st) (log st ++ lg))
    /\ vm_primary_ip4 loc'
       = (if bool_decide (version address = 4%Z) then Some ip_addr else vm_primary_ip4 loc)
    /\ vm_primary_ip6 loc'
       = (if bool_decide (version address = 6%Z) then Some ip_addr else vm_primary_ip6 loc)
    /\ vm_nic_ips loc'
       = dict_set network (default [] (dict_get network (vm_nic_ips loc)) ++ [ip_addr])
                  (vm_nic_ips loc)
    /\ vm_count loc' = vm_count loc.
Proof.
  intros [parsed Hparsed] ip_addr. subst ip_addr.
  unfold address_step, formatted_address. rewrite Hparsed.
  cbv [mbind M_bind get_inventory write_log mret M_ret]. cbn [inventory log].
  destruct (permitted _ _).
  - eexists _, []. rewrite app_nil_r. destruct st. by repeat split.
  - eexists _, _. by repeat split.
Qed.

Lemma last_of_version_cons v inv site address declared current :
  from_option Some
    (if bool_decide (version address = v) then Some (formatted_address inv site address)
     else current)
    (last_of_version v inv site declared)
  = from_option Some current (last_of_version v inv site (address :: declared)).
Proof.
  unfold last_of_version. cbn [List.filter].
  destruct (bool_decide (version address = v)); [|done].
  rewrite fmap_cons, last_cons. by destruct (last _).
Qed.

(** The addresses of one network. *)
Lemma addresses_loop name site network addresses loc st :
  Forall parses addresses ->
  exists loc' lg,
    for_each (address_step name site network) addresses loc st
    = (Returned loc', MkStore (inventory st) (log st ++ lg))
    /\ vm_primary_ip4 loc'
       = from_option Some (vm_primary_ip4 loc) (last_of_version 4 (inventory st) site addresses)
    /\ vm_primary_ip6 loc'
       = from_option Some (vm_primary_ip6 loc) (last_of_version 6 (inventory st) site addresses)
    /\ vm_count loc' = vm_count loc
    /\ forall current, dict_get network (vm_nic_ips loc) = Some current ->
         vm_nic_ips loc'
         = dict_set network (current ++ (formatted_address (inventory st) site <$> addresses))
                    (vm_nic_ips loc).
Proof.
  intros Hall. revert loc st.
  induction Hall as [|address addresses Hparse _ IH]; intros loc st.
  { exists loc, []. rewrite app_nil_r. destruct st. repeat split.
    intros current Hcurrent. simpl. rewrite app_nil_r. symmetry. by apply dict_set_same. }
  destruct (address_step_returns name site network loc address st Hparse)
    as (loc1 & lg1 & Hstep & H4 & H6 & Hips & Hcount).
  destruct (IH loc1 (MkStore (inventory st) (log st ++ lg1)))
    as (loc' & lg & Hrest & H4' & H6' & Hcount' & Hips').
  exists loc', (lg1 ++ lg). cbn [for_each]. erewrite mbind_run by exact Hstep. rewrite Hrest.
  cbn [inventory log] in *. rewrite app_assoc. split; [done|].
  rewrite H4', H6', H4, H6, !last_of_version_cons. rewrite Hcount', Hcount.
  repeat split. intros current Hcurrent.
  rewrite (Hips' (current ++ [formatted_address (inventory st) site address])).
  - rewrite Hips, Hcurrent. cbn [default]. rewrite dict_set_set, fmap_cons.
    by rewrite <- app_assoc.
  - rewrite Hips, Hcurrent. cbn [default]. apply dict_get_set_eq.
Qed.

Lemma last_of_version_app v inv site declared1 declared2 current :
  from_option Some (from_option Some current (last_of_version v inv site declared1))
              (last_of_version v inv site declared2)
  = from_option Some current (last_of_version v inv site (declared1 ++ declared2)).
Proof.
  unfold last_of_version. rewrite List.filter_app, fmap_app, last_app.
  by destruct (last (_ <$> List.filter _ declared2)).
Qed.

(** All networks. *)
Lemma networks_loop name site (addresses : dict (list Address)) loc st :
  Forall parses (declared_addresses addresses) ->
  exists loc' lg,
    for_each (network_step name site) addresses loc st
    = (Returned loc', MkStore (inventory st) (log st ++ lg))
    /\ vm_primary_ip4 loc'
       = from_option Some (vm_primary_ip4 loc)
                     (last_of_version 4 (inventory st) site (declared_addresses addresses))
    /\ vm_primary_ip6 loc'
       = from_option Some (vm_primary_ip6 loc)
                     (last_of_version 6 (inventory st) site (declared_addresses addresses))
    /\ vm_nic_ips loc'
       = fold_left (nic_ips_after (inventory st) site) addresses (vm_nic_ips loc).
Proof.
  revert loc st. induction addresses as [|[network addrs] addresses IH]; intros loc st Hall.
  { exists loc, []. rewrite app_nil_r. by destruct st. }
  change (declared_addresses ((network, addrs) :: addresses))
    with (addrs ++ declared_addresses addresses) in Hall.
  apply Forall_app in Hall as [Hhere Hrest].
  cbn [for_each].
  destruct (addresses_loop name site network addrs
              (VmLocals (vm_primary_ip4 loc) (vm_primary_ip6 loc) (vm_nic_dict loc)
                        (dict_set network [] (vm_nic_ips loc)) (vm_count loc + 1)) st Hhere)
    as (loc1 & lg1 & Hstep & H4 & H6 & _ & Hips).
  erewrite mbind_run by (unfold network_step; exact Hstep).
  destruct (IH loc1 (MkStore (inventory st) (log st ++ lg1)) Hrest)
    as (loc' & lg & Hloop & H4' & H6' & Hips').
  exists loc', (lg1 ++ lg). cbv beta. rewrite Hloop.
  cbn [inventory log vm_primary_ip4 vm_primary_ip6 vm_nic_ips] in *.
  rewrite app_assoc. split; [done|].
  rewrite H4', H6', H4, H6.
  change (declared_addresses ((network, addrs) :: addresses))
    with (addrs ++ declared_addresses addresses).
  rewrite <- !last_of_version_app. repeat split.
  rewrite Hips'. cbn [fold_left]. f_equal.
  rewrite (Hips []) by apply dict_get_set_eq.
  unfold nic_ips_after. cbn [fst snd app]. apply dict_set_set.
Qed.

Lemma nic_ips_of_fresh_networks inv site (addresses : dict (list Address))
    (nic_ips : dict (list string)) :
  NoDup (nic_ips.*1 ++ addresses.*1) ->
  fold_left (nic_ips_after inv site) addresses nic_ips
  = nic_ips ++ ((fun entry : string * list Address =>
                   (fst entry, formatted_address inv site <$> snd entry)) <$> addresses).
Proof.
  revert nic_ips. induction addresses as [|[network addrs] addresses IH]; intros nic_ips Hnodup.
  { simpl. by rewrite app_nil_r. }
  cbn [fold_left]. unfold nic_ips_after at 2. cbn [fst snd].
  rewrite fmap_cons in Hnodup. cbn [fst] in Hnodup.
  rewrite dict_set_fresh.
  - rewrite IH.
    + rewrite fmap_cons. cbn [fst snd]. by rewrite <- app_assoc.
    + rewrite fmap_app. cbn [fmap list_fmap fst]. by rewrite <- app_assoc.
  - apply NoDup_app in Hnodup as (_ & Hdisjoint & _). intros Hin.
    apply (Hdisjoint network Hin). left.
Qed.

(** The addresses handed to interface reconciliation. When every declared
    address parses and the networks have distinct names, [nic_ips] ends as
    the networks in their order, each with all of its declared addresses,
    as formatted: the subnet policy decides about none of them. *)
Theorem nic_ips_hold_every_declared_address name site (addresses : dict (list Address)) st :
  Forall parses (declared_addresses addresses) ->
  NoDup addresses.*1 ->
  exists loc lg,
    collect_addresses name site addresses st
    = (Returned loc, MkStore (inventory st) (log st ++ lg))
    /\ vm_nic_ips loc
       = (fun entry : string * list Address =>
            (fst entry, formatted_address (inventory st) site <$> snd entry)) <$> addresses.
Proof.
  intros Hparse Hnodup. unfold collect_addresses.
  destruct (networks_loop name site addresses (VmLocals None None [] [] 0) st Hparse)
    as (loc & lg & Hloop & _ & _ & Hips).
  exists loc, lg. split; [done|]. rewrite Hips. cbn [vm_nic_ips].
  by rewrite nic_ips_of_fresh_networks.
Qed.

Lemma attached_disk_returns (volumes_known : gmap string Z) (volumes : list string) :
  Forall (fun volid => is_Some (volumes_known !! volid)) volumes ->
  exists disk, forall st, attached_disk volumes_known volumes st = (Returned disk, st).
Proof.
  unfold attached_disk. intros Hknown. generalize 0%Z.
  induction Hknown as [|volid volumes [size Hsize] _ IH]; intros sofar.
  { by exists sofar. }
  destruct (IH (sofar + size)%Z) as [disk Hdisk]. exists disk. intros st.
  cbn [for_each]. rewrite Hsize. by erewrite mbind_run by reflexivity.
Qed.

(** C10. When every declared address parses, the loop over
    [obj.addresses] returns, and leaves as primary IPv4 (IPv6) the last
    declared address of version 4 (6), as formatted; the subnet policy has
    no part in it. For a server that passes the name filter and whose
    volumes are known, [add_device_vm_to_inventory] is then called with
    exactly these two as [p_ipv4] and [p_ipv6], the addresses it matches on
    in tier 3 and arbitrates. *)
Theorem vm_primary_ips_are_the_last_declared (self : OpenStackHandler R) (obj : Server)
    (name status cluster_name : string) (nb_cluster_object : option nat) st :
  Forall parses (declared_addresses (addresses obj)) ->
  (forall site,
     exists loc lg,
       collect_addresses name site (addresses obj) st
       = (Returned loc, MkStore (inventory st) (log st ++ lg))
       /\ vm_primary_ip4 loc
          = last_of_version 4 (inventory st) site (declared_addresses (addresses obj))
       /\ vm_primary_ip6 loc
          = last_of_version 6 (inventory st) site (declared_addresses (addresses obj)))
  /\
  (fst (passes_filter name (vm_include_filter (settings self))
                      (vm_exclude_filter (settings self))) = true ->
   Forall (fun volid => is_Some (volume_map self !! volid)) (attached_volumes obj) ->
   let site := fst (get_site_name (settings self) (site_name self) SiteNBCluster cluster_name "") in
   exists vm_data vnic_data nic_ips st',
     vm_pipeline self obj name status cluster_name nb_cluster_object st
     = add_device_vm_to_inventory (settings self) NBVM vm_data [] vnic_data nic_ips
         (last_of_version 4 (inventory st') site (declared_addresses (addresses obj)))
         (last_of_version 6 (inventory st') site (declared_addresses (addresses obj))) st').
Proof.
  intros Hparse.
  assert (Hcollect : forall site st,
     exists loc lg,
       collect_addresses name site (addresses obj) st
       = (Returned loc, MkStore (inventory st) (log st ++ lg))
       /\ vm_primary_ip4 loc
          = last_of_version 4 (inventory st) site (declared_addresses (addresses obj))
       /\ vm_primary_ip6 loc
          = last_of_version 6 (inventory st) site (declared_addresses (addresses obj))).
  { intros site st0. unfold collect_addresses.
    destruct (networks_loop name site (addresses obj) (VmLocals None None [] [] 0) st0 Hparse)
      as (loc & lg & Hloop & H4 & H6 & _).
    exists loc, lg. cbn [vm_primary_ip4 vm_primary_ip6] in H4, H6.
    split; [done|]. rewrite H4, H6. clear H4 H6.
    split; by destruct (last_of_version _ _ _ _). }
  split; [intros site; apply Hcollect|].
  intros Hpasses Hvolumes site. unfold vm_pipeline.
  destruct (attached_disk_returns (volume_map self) (attached_volumes obj) Hvolumes)
    as [disk Hdisk].
  erewrite mbind_run by reflexivity. cbv beta. rewrite Hpasses. cbn [negb].
  erewrite mbind_run by reflexivity. cbv beta. fold site.
  destruct (skip_vm_platform (settings self)); [|destruct (flavor_original_name obj)];
    (erewrite mbind_run by reflexivity); cbv beta;
    (erewrite mbind_run by apply Hdisk); cbv beta;
    do 2 (erewrite mbind_run by reflexivity; cbv beta);
    (destruct (set_vm_name_to_uuid (settings self));
     [destruct (add_update_custom_field _ _) as [inv field]|]);
    (erewrite mbind_run by reflexivity); cbv beta;
    match goal with
    | |- context [mbind _ (collect_addresses ?n ?s ?a) ?s0] =>
        destruct (Hcollect s s0) as (loc & lg & Hloc & H4 & H6)
    end;
    (erewrite mbind_run by exact Hloc); cbv beta; rewrite H4, H6;
    cbn [inventory log];
    eexists _, _, _, (MkStore _ _); cbn [inventory]; reflexivity.
Qed.

End ServerAddresses.

(** ** Runs of the sample handler *)

Section SampleRuns.
#[local] Existing Instance literal_regex.
#[local] Existing Instance Samples.small_collaborators.

(** C8 (as the claim states it) fails: the exclude filter rejects the host
    [test9], nothing is created, and still its name is in the registry of
    its site, so that a second record of that name is skipped as a
    duplicate, with the warning. *)
Lemma rejected_host_is_recorded :
  host_scope Samples.lab Samples.test9 = Some "OpenStack: lab"
  /\ fst (passes_filter (host_name Samples.lab Samples.test9) (host_include_filter (settings Samples.lab))
                        (host_exclude_filter (settings Samples.lab))) = false
  /\ inventory (store (snd (add_host Samples.test9 Samples.lab))) = inventory (store Samples.lab)
  /\ processed_host_names (snd (add_host Samples.test9 Samples.lab)) !! "OpenStack: lab" = Some ["test9"]
  /\ level <$> last (log (store (snd (add_host Samples.test9 (snd (add_host Samples.test9 Samples.lab))))))
     = Some WARNING.
Proof. repeat split; by vm_compute. Qed.

Lemma name_is_recorded_before_the_filter_witness :
  host_scope Samples.lab Samples.test9 = Some "OpenStack: lab"
  /\ registry_has "OpenStack: lab" (host_name Samples.lab Samples.test9)
                  (processed_host_names (snd (add_host Samples.test9 Samples.lab))) = true.
Proof.
  split; [reflexivity|].
  apply (proj1 name_is_recorded_before_the_filter Samples.lab Samples.test9 "OpenStack: lab").
  reflexivity.
Defined.

(** C7, where the code departs from it. The server [app1] has one network
    with the address 10.0.0.5, which the subnet policy permits, and
    192.168.7.9, which it rejects. The loop logs that the rejected address
    is skipped, but has appended it to [nic_ips] before asking the policy,
    and the network has an interface because of the permitted address: both
    addresses are handed to [add_update_interface] and attached. *)
Lemma rejected_address_is_attached :
  permitted "192.168.7.9" (vnic_name 1 "private") = false
  /\ LogRecord DEBUG "Virtual machine 'app1' address '192.168.7.9' is not valid to add. Skipping"
       ∈ log (store (snd (add_virtual_machine Samples.app1 Samples.lab)))
  /\ fst (collect_addresses "app1" "OpenStack: lab" (addresses Samples.app1) (store Samples.lab))
     = Returned (VmLocals (Some "192.168.7.9") None
                   [("private", [("name", VStr "vNIC1 (private)");
                                 ("virtual_machine", VNone);
                                 ("mac_address", VStr "FA:16:3E:00:00:01");
                                 ("description", VStr "vNIC1 (private)");
                                 ("enabled", VBool true)])]
                   [("private", ["10.0.0.5/24"; "192.168.7.9"])] 1)
  /\ ip_address <$> ip_addresses (inventory (store (snd (add_virtual_machine Samples.app1 Samples.lab))))
     = [Some "10.0.0.5/24"; Some "192.168.7.9"].
Proof.
  repeat split; try by vm_compute.
  apply (bool_decide_unpack _). by vm_compute.
Qed.

Lemma nic_ips_hold_every_declared_address_witness :
  Forall parses (declared_addresses (addresses Samples.app1))
  /\ NoDup (addresses Samples.app1).*1
  /\ exists loc lg,
       collect_addresses "app1" "OpenStack: lab" (addresses Samples.app1) (store Samples.lab)
       = (Returned loc, MkStore (inventory (store Samples.lab)) (log (store Samples.lab) ++ lg))
       /\ vm_nic_ips loc = [("private", ["10.0.0.5/24"; "192.168.7.9"])].
Proof.
  assert (Hparse : Forall parses (declared_addresses (addresses Samples.app1))).
  { repeat constructor; by eexists. }
  assert (Hnodup : NoDup (addresses Samples.app1).*1).
  { apply (bool_decide_unpack _). by vm_compute. }
  split; [exact Hparse|]. split; [exact Hnodup|].
  destruct (nic_ips_hold_every_declared_address "app1" "OpenStack: lab" (addresses Samples.app1)
              (store Samples.lab) Hparse Hnodup) as (loc & lg & Hrun & Hips).
  exists loc, lg. split; [exact Hrun|]. rewrite Hips. reflexivity.
Defined.

(** The same server for C10: its last IPv4 address is the rejected one, and
    it is the primary IPv4 the VM ends with. *)
Lemma vm_primary_ips_are_the_last_declared_witness :
  Forall parses (declared_addresses (addresses Samples.app1))
  /\ (exists loc lg,
        collect_addresses "app1" "OpenStack: lab" (addresses Samples.app1) (store Samples.lab)
        = (Returned loc, MkStore (inventory (store Samples.lab)) (log (store Samples.lab) ++ lg))
        /\ vm_primary_ip4 loc = Some "192.168.7.9"
        /\ vm_primary_ip6 loc = None)
  /\ data_primary_ip4 <$> vms (inventory (store (snd (add_virtual_machine Samples.app1 Samples.lab))))
     = [Some (PipObject 4)]
  /\ (List.find (fun ip => bool_decide (ip_oid ip = 4))
        (ip_addresses (inventory (store (snd (add_virtual_machine Samples.app1 Samples.lab)))))
      ≫= ip_address)
     = Some "192.168.7.9".
Proof.
  assert (Hparse : Forall parses (declared_addresses (addresses Samples.app1))).
  { repeat constructor; by eexists. }
  split; [exact Hparse|]. split; [|split; reflexivity].
  destruct (proj1 (vm_primary_ips_are_the_last_declared Samples.lab Samples.app1 "app1" "active" "nova"
                     None (store Samples.lab) Hparse) "OpenStack: lab")
    as (loc & lg & Hrun & H4 & H6).
  exists loc, lg. by rewrite H4, H6.
Defined.

End SampleRuns.

(** ** Names: [str.split] and [str.join] as the methods use them *)

Section Names.
Implicit Types (s : string) (sep : ascii).

Lemma split_not_nil sep s : split sep s <> [].
Proof.
  destruct s as [|c rest]; [done|]. simpl.
  destruct (Ascii.eqb c sep); [done|]. by destruct (split sep rest).
Qed.

Lemma join_split sep s : join (String sep "") (split sep s) = s.
Proof.
  induction s as [|c rest IH]; [done|]. simpl.
  pose proof (split_not_nil sep rest) as Hne.
  destruct (Ascii.eqb c sep) eqn:Hc.
  - apply Ascii.eqb_eq in Hc as ->.
    destruct (split sep rest) as [|piece pieces]; [done|].
    change (join (String sep "") ("" :: piece :: pieces))
      with (String sep (join (String sep "") (piece :: pieces))).
    by rewrite IH.
  - destruct (split sep rest) as [|piece pieces]; [done|].
    destruct pieces as [|next pieces]; simpl in *; by rewrite <- IH.
Qed.

Lemma split_without sep s : sep ∉ String.list_ascii_of_string s -> split sep s = [s].
Proof.
  induction s as [|c rest IH]; [done|]. simpl.
  rewrite not_elem_of_cons. intros [Hne Hrest].
  destruct (Ascii.eqb c sep) eqn:Hc; [by apply Ascii.eqb_eq in Hc|].
  by rewrite IH.
Qed.

Lemma split_segment sep s rest :
  sep ∉ String.list_ascii_of_string s -> split sep (s +:+ String sep rest) = s :: split sep rest.
Proof.
  induction s as [|c s IH]; simpl.
  - intros _. by rewrite Ascii.eqb_refl.
  - rewrite not_elem_of_cons. intros [Hne Hrest].
    destruct (Ascii.eqb c sep) eqn:Hc; [by apply Ascii.eqb_eq in Hc|].
    by rewrite IH.
Qed.

Lemma split_first_spec sep s :
  (sep ∉ String.list_ascii_of_string (split_first sep s))
  /\ (exists rest, s = split_first sep s +:+ rest /\ (rest = "" \/ exists more, rest = String sep more)).
Proof.
  unfold split_first. induction s as [|c s [IHno (rest & IHeq & IHrest)]]; simpl.
  - split; [by apply not_elem_of_nil|]. exists "". by split; [|left].
  - destruct (Ascii.eqb c sep) eqn:Hc.
    + apply Ascii.eqb_eq in Hc as ->. simpl. split; [by apply not_elem_of_nil|].
      exists (String sep s). split; [done|right; by eexists].
    + pose proof (split_not_nil sep s) as Hne.
      destruct (split sep s) as [|piece pieces]; [done|]. simpl in *.
      split.
      * rewrite not_elem_of_cons. split; [|done]. intros ->. by rewrite Ascii.eqb_refl in Hc.
      * exists rest. split; [by rewrite IHeq at 1|done].
Qed.

(** The special cluster condition retries a rule on
    ["/".join(name.split("/")[1:])]: the name after its first slash, and the
    empty string for a name without a slash. *)
Theorem stripped_name_is_the_rest_after_the_first_slash :
  (forall segment rest, "/"%char ∉ String.list_ascii_of_string segment ->
     stripped_name (segment +:+ "/" +:+ rest) = rest)
  /\ (forall name, "/"%char ∉ String.list_ascii_of_string name -> stripped_name name = "").
Proof.
  unfold stripped_name. split.
  - intros segment rest Hno. change ("/" +:+ rest) with (String "/" rest).
    rewrite split_segment by done. simpl. apply (join_split "/").
  - intros name Hno. by rewrite split_without.
Qed.

End Names.

Section NamesOfRecords.
Context {R : Type} `{RegexObject R}.

(** Lines 836-837 and 989-990: with the strip setting the name of a record
    is its part before the first dot, which holds no dot; without it the
    name is kept. A server named by its id keeps the id whole. *)
Theorem names_are_cut_at_the_first_dot (self : OpenStackHandler R) :
  (forall obj : Hypervisor,
     if strip_host_domain_name (settings self)
     then ("."%char ∉ String.list_ascii_of_string (host_name self obj))
          /\ (exists domain, hv_name obj = host_name self obj +:+ domain
                             /\ (domain = "" \/ exists more, domain = String "." more))
     else host_name self obj = hv_name obj)
  /\ (forall obj : Server,
        if set_vm_name_to_uuid (settings self) then vm_name self obj = sv_id obj
        else if strip_vm_domain_name (settings self)
             then ("."%char ∉ String.list_ascii_of_string (vm_name self obj))
                  /\ (exists domain, sv_name obj = vm_name self obj +:+ domain
                                     /\ (domain = "" \/ exists more, domain = String "." more))
             else vm_name self obj = sv_name obj).
Proof.
  split; intros obj.
  - unfold host_name. destruct (strip_host_domain_name (settings self)); [|done].
    apply split_first_spec.
  - unfold vm_name. destruct (set_vm_name_to_uuid (settings self)); [done|].
    destruct (strip_vm_domain_name (settings self)); [|done].
    apply split_first_spec.
Qed.

(** The special cluster condition is tried rule by rule: for a relation
    whose first word is [cluster], every rule whose pattern matches the name
    without its first path segment counts as a match, whatever the other
    rules do with the full name. Its value is among the tags returned, and a
    relation that returns one name does not fall back. *)
Theorem cluster_rules_match_the_name_after_the_first_slash
    (relations : gmap string (list (relation_rule R)))
    (name relation : string) (fallback : option string) (rule : relation_rule R) :
  is_cluster_relation relation = true ->
  rule ∈ default [] (relations !! relation) ->
  re_match (object_regex rule) (stripped_name name) = true ->
  match fst (get_object_relation relations name relation fallback) with
  | RelList names => assigned_name rule ∈ names
  | RelName resolved =>
      exists first, first ∈ default [] (relations !! relation)
                    /\ resolved = Some (assigned_name first)
  end.
Proof.
  intros Hcluster Hin Hmatch.
  assert (Hrule : rule_matches name relation rule = true).
  { unfold rule_matches. rewrite Hcluster, Hmatch. apply orb_true_r. }
  destruct (get_object_relation_returns relations name relation fallback) as (Htag & Hname & _).
  destruct (is_tag_relation relation).
  - rewrite Htag by done.
    apply list_elem_of_fmap. exists rule. split; [done|].
    apply list_elem_of_In, List.filter_In. split; [by apply list_elem_of_In|done].
  - rewrite Hname by done.
    destruct (List.find _ _) as [first|] eqn:Hfind.
    + apply List.find_some in Hfind as [Hfirst _].
      exists first. split; [by apply list_elem_of_In|done].
    + exfalso. apply list_elem_of_In in Hin.
      pose proof (List.find_none _ _ Hfind rule Hin) as Hno. congruence.
Qed.

End NamesOfRecords.

Section RelationRuns.
#[local] Existing Instance literal_regex.

Lemma cluster_rules_match_the_name_after_the_first_slash_witness :
  is_cluster_relation "cluster_tag_relation" = true
  /\ re_match "region" "region/az1" = true
  /\ re_match "az1" "region/az1" = false
  /\ fst (get_object_relation Samples.sample_relations "region/az1" "cluster_tag_relation" None)
     = RelList ["regional"; "zone-1"]
  /\ match fst (get_object_relation Samples.sample_relations "region/az1"
                                     "cluster_tag_relation" None) with
     | RelList names => "zone-1" ∈ names
     | RelName resolved =>
         exists first, first ∈ default [] (Samples.sample_relations !! "cluster_tag_relation")
                       /\ resolved = Some (assigned_name first)
     end.
Proof.
  split; [reflexivity|]. split; [reflexivity|]. split; [reflexivity|]. split; [reflexivity|].
  apply (cluster_rules_match_the_name_after_the_first_slash
           Samples.sample_relations "region/az1" "cluster_tag_relation" None
           (RelationRule "az1" "zone-1")); [reflexivity| |reflexivity].
  apply list_elem_of_In. vm_compute. right; left; reflexivity.
Defined.

End RelationRuns.

(** ** ObjectMatcher, tier 3: what a match means *)

Section PrimaryIPMatchSound.
Implicit Types (inv : NetBoxInventory) (device : managed_object).

Lemma _matches_stored inv value needle :
  _matches_device_primary_ip inv value needle = true <->
  exists stored wanted, stored_address inv value = Some stored /\ needle = Some wanted
                        /\ split_first "/" stored = wanted.
Proof.
  unfold _matches_device_primary_ip, stored_address.
  destruct value as [[address|nb_id|ip]|], needle as [wanted|];
    try (split; [done|by intros (? & ? & ? & ? & ?)]).
  - destruct address as [stored|]; [|split; [done|by intros (? & ? & ? & ? & ?)]].
    rewrite bool_decide_eq_true. split.
    + intros <-. by eexists _, _.
    + by intros (? & ? & [= <-] & [= <-] & ?).
  - destruct (get_by_id inv nb_id ≫= ip_address) as [stored|];
      [|split; [done|by intros (? & ? & ? & ? & ?)]].
    rewrite bool_decide_eq_true. split.
    + intros <-. by eexists _, _.
    + by intros (? & ? & [= <-] & [= <-] & ?).
Qed.

(** The object found by its primary IP is an object of the requested class
    whose stored primary IPv4, or primary IPv6, has the address of the given
    one, the prefix lengths of both left aside. The stored address is read
    from an embedded value or through a NetBox id: a slot that holds an
    [NBIPAddress] object, as arbitration leaves it, matches nothing. *)
Theorem primary_ip_match_is_sound inv t (p4 p6 : option string) device :
  get_object_based_on_primary_ip inv t p4 p6 = Some device ->
  device ∈ get_all_items inv t /\
  ((exists stored given,
      stored_address inv (data_primary_ip4 device) = Some stored /\ p4 = Some given
      /\ split_first "/" stored = split_first "/" given) \/
   (exists stored given,
      stored_address inv (data_primary_ip6 device) = Some stored /\ p6 = Some given
      /\ split_first "/" stored = split_first "/" given)).
Proof.
  unfold get_object_based_on_primary_ip. intros Hfound.
  assert (Hscan : primary_ip_scan inv (split_first "/" <$> p4) (split_first "/" <$> p6)
                    (get_all_items inv t) = Some device).
  { by destruct p4, p6. }
  clear Hfound. rewrite primary_ip_scan_find in Hscan.
  apply List.find_some in Hscan as [Hin Hmatch].
  split; [by apply list_elem_of_In|].
  apply orb_true_iff in Hmatch as [Hmatch|Hmatch];
    apply _matches_stored in Hmatch as (stored & wanted & Hstored & Hneedle & Hsame);
    [left; destruct p4 as [given|]|right; destruct p6 as [given|]];
    try done; injection Hneedle as <-; by eexists _, _.
Qed.

(** The device [web02] is stored with 10.0.0.5/24 and found by 10.0.0.5/16. *)
Lemma primary_ip_match_is_sound_witness :
  get_object_based_on_primary_ip Samples.two_devices NBDevice (Some "10.0.0.5/16") None
  = Some Samples.web02
  /\ Samples.web02 ∈ get_all_items Samples.two_devices NBDevice.
Proof.
  split; [reflexivity|].
  exact (proj1 (primary_ip_match_is_sound Samples.two_devices NBDevice (Some "10.0.0.5/16") None
                  Samples.web02 eq_refl)).
Defined.

End PrimaryIPMatchSound.

(** ** PrimaryIPArbiter: what a step leaves alone, and a step taken twice *)

Section PrimaryIPArbiterMore.
Implicit Types (inv : NetBoxInventory) (ip_object : ip_address_object) (v : ip_version)
  (entity : nat) (obj : managed_object).

(** Every policy rewrites the managed objects one by one. *)
Lemma arbitrate_pointwise policy inv entity ip_object v :
  exists f : managed_object -> managed_object,
    (f = id \/ f = assign_outcome v ip_object entity \/ f = always_outcome v ip_object entity)
    /\ fst (arbitrate_primary_ip policy inv entity ip_object v)
       = Inventory (f <$> devices inv) (f <$> vms inv)
                   (interfaces inv) (vm_interfaces inv) (ip_addresses inv).
Proof.
  destruct (decide (policy = "always")) as [->|Ha].
  { eexists. split; [right; right; done|]. apply arbitrate_always. }
  destruct (decide (policy = "never")) as [->|Hn].
  { exists id. split; [by left|]. simpl. rewrite !list_fmap_id. by destruct inv. }
  rewrite arbitrate_when_undefined by done.
  destruct (get_object inv entity ≫= primary_ip v).
  - exists id. split; [by left|]. rewrite !list_fmap_id. by destruct inv.
  - eexists. split; [right; left; done|]. done.
Qed.

Lemma outcome_frame v ip_object entity (f : managed_object -> managed_object) obj :
  f = id \/ f = assign_outcome v ip_object entity \/ f = always_outcome v ip_object entity ->
  oid (f obj) = oid obj /\ name_of (f obj) = name_of obj
  /\ (forall v', v' <> v -> primary_ip v' (f obj) = primary_ip v' obj)
  /\ (oid obj <> entity -> holds_primary_ip v (ip_oid ip_object) obj = false -> f obj = obj)
  /\ (primary_ip v (f obj) = primary_ip v obj \/ primary_ip v (f obj) = None
      \/ primary_ip v (f obj) = Some (PipObject (ip_oid ip_object))).
Proof.
  intros [-> | [-> | ->]]; [by repeat split; auto|..];
    unfold assign_outcome, always_outcome;
    destruct (decide (oid obj = entity)) as [Heq|Hne];
    rewrite ?(bool_decide_eq_true_2 _ Heq), ?(bool_decide_eq_false_2 _ Hne).
  - repeat split; [by destruct v..| |done|].
    + intros v' Hv. by apply primary_ip_set_other.
    + right; right. apply primary_ip_set_same.
  - by repeat split; auto.
  - repeat split; [by destruct v..| |done|].
    + intros v' Hv. by apply primary_ip_set_other.
    + right; right. apply primary_ip_set_same.
  - destruct (negb (is_new ip_object) && holds_primary_ip v (ip_oid ip_object) obj) eqn:Hclear.
    + apply andb_true_iff in Hclear as [_ Hheld].
      repeat split; [by destruct v..| | |].
      * intros v' Hv. by apply primary_ip_set_other.
      * intros _ Hnot. congruence.
      * right; left. apply primary_ip_set_same.
    + by repeat split; auto.
Qed.

(** Arbitration for one IP version keeps the managed objects, their
    identities, their names and their primary IP of the other version; an
    object other than the entity that does not hold the IP object is left as
    it is; and a slot changes only by being cleared or by taking the IP
    object. *)
Theorem arbitration_leaves_the_rest_alone (policy : string) inv entity ip_object v
    (t : object_type) :
  Forall2 (fun before after =>
             oid after = oid before /\ name_of after = name_of before
             /\ (forall v', v' <> v -> primary_ip v' after = primary_ip v' before)
             /\ (oid before <> entity ->
                 holds_primary_ip v (ip_oid ip_object) before = false -> after = before)
             /\ (primary_ip v after = primary_ip v before \/ primary_ip v after = None
                 \/ primary_ip v after = Some (PipObject (ip_oid ip_object))))
          (get_all_items inv t)
          (get_all_items (fst (arbitrate_primary_ip policy inv entity ip_object v)) t).
Proof.
  destruct (arbitrate_pointwise policy inv entity ip_object v) as (f & Hf & ->).
  assert (Hitems : get_all_items
                     (Inventory (f <$> devices inv) (f <$> vms inv) (interfaces inv)
                                (vm_interfaces inv) (ip_addresses inv)) t
                   = f <$> get_all_items inv t) by by destruct t.
  rewrite Hitems. apply Forall2_fmap_r, Forall_Forall2_diag, Forall_forall.
  intros obj _. by apply outcome_frame.
Qed.

Lemma assign_outcome_twice v ip_object entity obj :
  assign_outcome v ip_object entity (assign_outcome v ip_object entity obj)
  = assign_outcome v ip_object entity obj.
Proof.
  unfold assign_outcome. destruct (decide (oid obj = entity)) as [Heq|Hne].
  - rewrite !(bool_decide_eq_true_2 (oid obj = entity) Heq).
    rewrite oid_set_primary_ip_field, (bool_decide_eq_true_2 (oid obj = entity) Heq).
    by destruct v.
  - by rewrite !(bool_decide_eq_false_2 (oid obj = entity) Hne).
Qed.

Lemma always_outcome_twice v ip_object entity obj :
  always_outcome v ip_object entity (always_outcome v ip_object entity obj)
  = always_outcome v ip_object entity obj.
Proof.
  unfold always_outcome. destruct (decide (oid obj = entity)) as [Heq|Hne].
  - rewrite !(bool_decide_eq_true_2 (oid obj = entity) Heq).
    rewrite oid_set_primary_ip_field, (bool_decide_eq_true_2 (oid obj = entity) Heq).
    by destruct v.
  - rewrite !(bool_decide_eq_false_2 (oid obj = entity) Hne).
    destruct (negb (is_new ip_object) && holds_primary_ip v (ip_oid ip_object) obj) eqn:Hclear.
    + rewrite oid_set_primary_ip_field, (bool_decide_eq_false_2 (oid obj = entity) Hne).
      unfold holds_primary_ip at 1. rewrite primary_ip_set_same.
      rewrite (bool_decide_eq_false_2 (None = Some (PipObject (ip_oid ip_object)))) by done.
      by rewrite andb_false_r.
    + by rewrite (bool_decide_eq_false_2 (oid obj = entity) Hne), Hclear.
Qed.

(** Arbitration is idempotent: the same step taken again, on the inventory
    it left, changes nothing, under every policy. *)
Theorem arbitration_is_idempotent (policy : string) inv entity ip_object v :
  let once := fst (arbitrate_primary_ip policy inv entity ip_object v) in
  fst (arbitrate_primary_ip policy once entity ip_object v) = once.
Proof.
  cbv zeta.
  destruct (decide (policy = "always")) as [->|Ha].
  { rewrite !arbitrate_always. cbn [devices vms interfaces vm_interfaces ip_addresses].
    rewrite <- !list_fmap_compose.
    f_equal; apply list_fmap_ext; intros i obj _; apply always_outcome_twice. }
  destruct (decide (policy = "never")) as [->|Hn]; [done|].
  rewrite (arbitrate_when_undefined policy inv) by done.
  destruct (get_object inv entity ≫= primary_ip v) eqn:Hslot.
  { rewrite arbitrate_when_undefined by done. by rewrite Hslot. }
  rewrite arbitrate_when_undefined by done.
  match goal with |- match ?slot with _ => _ end = _ => destruct slot end; [done|].
  cbn [devices vms interfaces vm_interfaces ip_addresses].
  rewrite <- !list_fmap_compose.
  f_equal; apply list_fmap_ext; intros i obj _; apply assign_outcome_twice.
Qed.

End PrimaryIPArbiterMore.

(** ** The IP addresses of one interface (lines 643-688) *)

Section PrimaryIPLoop.
Context {R : Type} `{Collaborators}.
Implicit Types (settings : Settings R) (st : Store) (ip_object : ip_address_object).

Lemma store_with_no_more_log st : MkStore (inventory st) (log st ++ []) = st.
Proof. destruct st. simpl. by rewrite app_nil_r. Qed.

(** One turn of the loop, for an IP address object that is a primary IP. *)
Lemma set_primary_ips_cons settings (entity : nat) p4 p6 ip ips st :
  set_primary_ips settings entity p4 p6 (ip :: ips) st =
  match ip with
  | None => set_primary_ips settings entity p4 p6 ips st
  | Some ip_object =>
      match ip_address ip_object ≫= ip_interface with
      | None => (Raised (ValueError (default "None" (ip_address ip_object))), st)
      | Some parsed =>
          if bool_decide (Some parsed = p4 \/ Some parsed = p6) then
            let step := arbitrate_primary_ip (set_primary_ip settings) (inventory st) entity
                                             ip_object (interface_version parsed) in
            set_primary_ips settings entity p4 p6 ips (MkStore (fst step) (log st ++ snd step))
          else set_primary_ips settings entity p4 p6 ips st
      end
  end.
Proof.
  unfold set_primary_ips. cbn [for_each].
  destruct ip as [ip_object|]; [|done].
  destruct (ip_address ip_object ≫= ip_interface) as [parsed|] eqn:Hparsed;
    cbv [mbind M_bind raise]; [|done].
  destruct (bool_decide (Some parsed = p4 \/ Some parsed = p6)); [|done].
  cbv [get_inventory put_inventory logged]. cbn [fst snd inventory log].
  by destruct (arbitrate_primary_ip _ _ _ _ _).
Qed.

(** No primary IP is touched under the policy [never], nor when none of the
    addresses of the interface is the primary IPv4 or IPv6 handed in: the
    loop leaves the inventory and the log as they are, also when it ends
    with the [ValueError] of an address that does not parse. *)
Theorem primary_ips_are_left_alone settings (entity : nat) (p4 p6 : option IPInterface)
    (ips : list (option ip_address_object)) st :
  (set_primary_ip settings = "never"
   \/ forall ip_object parsed,
        Some ip_object ∈ ips -> ip_address ip_object ≫= ip_interface = Some parsed ->
        Some parsed <> p4 /\ Some parsed <> p6) ->
  snd (set_primary_ips settings entity p4 p6 ips st) = st.
Proof.
  intros Hcase. induction ips as [|ip ips IH]; [done|].
  assert (Hrest : set_primary_ip settings = "never"
                  \/ forall ip_object parsed,
                       Some ip_object ∈ ips -> ip_address ip_object ≫= ip_interface = Some parsed ->
                       Some parsed <> p4 /\ Some parsed <> p6).
  { destruct Hcase as [?|Hcase]; [by left|right].
    intros ip_object parsed Hin. apply Hcase. by right. }
  rewrite set_primary_ips_cons.
  destruct ip as [ip_object|]; [|by apply IH].
  destruct (ip_address ip_object ≫= ip_interface) as [parsed|] eqn:Hparsed; [|done].
  case_bool_decide as Hprimary; [|by apply IH].
  destruct Hcase as [Hnever|Hcase].
  - cbv zeta. rewrite Hnever, arbitrate_never. cbn [fst snd].
    rewrite store_with_no_more_log. by apply IH.
  - destruct (Hcase ip_object parsed) as [H4 H6]; [left|done|]. by destruct Hprimary.
Qed.

Lemma always_outcome_others_hold_objects inv (entity : nat) ip_object v
    (ips : list (option ip_address_object)) :
  others_hold_objects entity ips inv ->
  others_hold_objects entity ips (fst (arbitrate_primary_ip "always" inv entity ip_object v)).
Proof.
  intros Hothers obj' v' ip' Hin Hoid Hip. rewrite arbitrate_always in Hin |- *.
  rewrite (references_same_addresses inv) by done.
  unfold all_objects in Hin. cbn [devices vms] in Hin. rewrite <- fmap_app in Hin.
  apply list_elem_of_fmap in Hin as (obj & -> & Hin).
  rewrite always_outcome_oid in Hoid. revert Hoid. unfold always_outcome.
  intros Hoid. rewrite (bool_decide_eq_false_2 _ Hoid).
  destruct (negb (is_new ip_object) && holds_primary_ip v (ip_oid ip_object) obj);
    [|by apply Hothers].
  unfold references_primary_ip, holds_primary_ip.
  destruct (decide (v = v')) as [->|Hv].
  - rewrite primary_ip_set_same. by intros ?%bool_decide_eq_true.
  - rewrite primary_ip_set_other by done. by apply Hothers.
Qed.

(** A step under [always] for an IP object that is not new keeps the
    identities distinct and the ownership exclusive. *)
Lemma always_step_keeps_exclusive inv (entity : nat) ip_object v :
  is_new ip_object = false ->
  (forall obj, obj ∈ all_objects inv -> oid obj <> entity ->
     references_primary_ip inv v (ip_oid ip_object) obj = true ->
     holds_primary_ip v (ip_oid ip_object) obj = true) ->
  NoDup (oid <$> all_objects inv) -> exclusive_primary_ips inv ->
  let after := fst (arbitrate_primary_ip "always" inv entity ip_object v) in
  NoDup (oid <$> all_objects after) /\ exclusive_primary_ips after.
Proof.
  intros Hold Hothers Hnodup Hexcl after. subst after. split.
  - rewrite arbitrate_always.
    unfold all_objects. cbn [devices vms]. rewrite <- fmap_app, <- list_fmap_compose.
    erewrite list_fmap_ext; [exact Hnodup|]. intros i obj _. apply always_outcome_oid.
  - apply arbitrate_keeps_exclusive; [done|done|]. right; left. by repeat split.
Qed.

(** Under [always], the loop over the IP address objects of an interface
    keeps the ownership of primary IPs exclusive, whatever the form of the
    references, when none of the objects is new and the other managed
    objects that reference one of them hold the object itself; however the
    loop ends. *)
Theorem primary_ips_stay_exclusive_under_always settings (entity : nat)
    (p4 p6 : option IPInterface) (ips : list (option ip_address_object)) st :
  set_primary_ip settings = "always" ->
  (forall ip_object, Some ip_object ∈ ips -> is_new ip_object = false) ->
  others_hold_objects entity ips (inventory st) ->
  NoDup (oid <$> all_objects (inventory st)) ->
  exclusive_primary_ips (inventory st) ->
  let after := inventory (snd (set_primary_ips settings entity p4 p6 ips st)) in
  NoDup (oid <$> all_objects after) /\ exclusive_primary_ips after.
Proof.
  intros Halways Hold. revert st.
  induction ips as [|ip ips IH]; intros st Hothers Hnodup Hexcl; [done|].
  assert (Hrest : forall ip_object, Some ip_object ∈ ips -> is_new ip_object = false).
  { intros ip_object Hin. apply Hold. by right. }
  assert (Hothers_rest : forall inv, others_hold_objects entity (ip :: ips) inv ->
                                     others_hold_objects entity ips inv).
  { intros inv Hinv obj v ip_object Hin Hoid Hip. apply Hinv; [done|done|by right]. }
  cbv zeta. rewrite set_primary_ips_cons.
  destruct ip as [ip_object|]; [|by apply IH; [|apply Hothers_rest|..]].
  destruct (ip_address ip_object ≫= ip_interface) as [parsed|]; [|done].
  case_bool_decide as Hprimary; [|by apply IH; [|apply Hothers_rest|..]].
  cbv zeta. rewrite Halways.
  destruct (always_step_keeps_exclusive (inventory st) entity ip_object
              (interface_version parsed)) as [Hnodup' Hexcl']; [apply Hold; left| |done|done|].
  { intros obj Hin Hoid. apply Hothers; [done|done|left]. }
  apply IH; [done| |done|done]. cbn [inventory].
  apply Hothers_rest. by apply always_outcome_others_hold_objects.
Qed.

End PrimaryIPLoop.

(** ** The site of a record *)

Section SiteNames.
Context {R : Type} `{RegexObject R}.

Lemma find_ext {A} (f g : A -> bool) (l : list A) :
  (forall a, f a = g a) -> List.find f l = List.find g l.
Proof. intros Hfg. induction l as [|a l IH]; [done|]. simpl. by rewrite Hfg, IH. Qed.

Lemma site_relations_return_names :
  is_tag_relation "cluster_site_relation" = false
  /\ is_tag_relation "host_site_relation" = false
  /\ is_cluster_relation "cluster_site_relation" = true
  /\ is_cluster_relation "host_site_relation" = false.
Proof. repeat split; reflexivity. Qed.

(** [get_site_name] always gives a site. For a cluster it is the value of
    the first rule of [cluster_site_relation] that matches the cluster name,
    or the name after its first slash, and the default site of the source
    when none does. For a host it is the value of the first rule of
    [host_site_relation] that matches the host name, and the site of its
    cluster otherwise; and then the last thing logged is that a matching
    cluster site was found, also when that site is the default one. *)
Theorem site_name_falls_back_to_cluster_and_default (settings : Settings R)
    (default_site object_name cluster_name : string) :
  let rules relation := default [] (relations settings !! relation) in
  let cluster_site cluster :=
    match List.find (fun rule => re_match (object_regex rule) cluster
                                 || re_match (object_regex rule) (stripped_name cluster))
                    (rules "cluster_site_relation") with
    | Some rule => assigned_name rule
    | None => default_site
    end in
  let for_host := get_site_name settings default_site SiteNBDevice object_name cluster_name in
  fst (get_site_name settings default_site SiteNBCluster object_name cluster_name)
  = cluster_site object_name
  /\ fst for_host
     = match List.find (fun rule => re_match (object_regex rule) object_name)
                       (rules "host_site_relation") with
       | Some rule => assigned_name rule
       | None => cluster_site cluster_name
       end
  /\ (List.find (fun rule => re_match (object_regex rule) object_name)
                (rules "host_site_relation") = None ->
      last (snd for_host)
      = Some (LogRecord DEBUG2 ("Found a matching cluster site for " +:+ object_name
                                +:+ ", using site '" +:+ cluster_site cluster_name +:+ "'"))).
Proof.
  intros rules cluster_site for_host.
  destruct site_relations_return_names as (Hct & Hht & Hcc & Hhc).
  assert (Hcluster : forall cluster,
            fst (get_site_name settings default_site SiteNBCluster cluster cluster_name)
            = cluster_site cluster).
  { intros cluster. unfold get_site_name.
    destruct (get_object_relation_returns (relations settings) cluster
                "cluster_site_relation" None) as (_ & Hname & _).
    specialize (Hname Hct).
    destruct (get_object_relation (relations settings) cluster "cluster_site_relation" None)
      as [value lg].
    simpl in Hname. subst value. subst cluster_site. cbv beta.
    erewrite find_ext; [|intros rule; unfold rule_matches; by rewrite Hcc].
    fold (rules "cluster_site_relation").
    by destruct (List.find _ (rules "cluster_site_relation")). }
  split; [apply Hcluster|].
  subst for_host. unfold get_site_name at 1 2.
  destruct (get_object_relation_returns (relations settings) object_name
              "host_site_relation" None) as (_ & Hname & _).
  specialize (Hname Hht).
  destruct (get_object_relation (relations settings) object_name "host_site_relation" None)
    as [value lg].
  simpl in Hname. subst value.
  erewrite find_ext; [|intros rule; by apply rule_matches_plain].
  fold (rules "host_site_relation").
  destruct (List.find _ (rules "host_site_relation")) as [rule|]; [by split|].
  cbn [as_name].
  specialize (Hcluster cluster_name). unfold get_site_name in Hcluster.
  destruct (get_object_relation (relations settings) cluster_name "cluster_site_relation" None)
    as [value lgc].
  destruct (as_name value) as [site|]; simpl in Hcluster; rewrite <- Hcluster;
    (split; [done|]); intros _; cbn [snd];
    by rewrite app_comm_cons, app_assoc, last_snoc.
Qed.

End SiteNames.

(** ** Volumes and disks *)

Section Volumes.

(** [attached_disk] adds up the sizes of the attached volumes as the volume
    map has them, and raises the [KeyError] of the first volume the map does
    not know; it touches neither the inventory nor the log. *)
Lemma attached_disk_run (volume_map : gmap string Z) (volumes : list string) (st : Store) :
  attached_disk volume_map volumes st =
  match unknown_volume volume_map volumes with
  | Some volid => (Raised (KeyError volid), st)
  | None => (Returned (volumes_size volume_map volumes), st)
  end.
Proof.
  unfold attached_disk, unknown_volume.
  assert (Hloop : forall sofar,
    for_each (fun (disk : Z) volid =>
                match volume_map !! volid with
                | Some size => mret (disk + size)%Z
                | None => raise (KeyError volid)
                end) volumes sofar st =
    match List.find (fun volid => bool_decide (volume_map !! volid = None)) volumes with
    | Some volid => (Raised (KeyError volid), st)
    | None => (Returned (sofar + volumes_size volume_map volumes)%Z, st)
    end).
  { induction volumes as [|volid volumes IH]; intros sofar.
    { simpl. by rewrite Z.add_0_r. }
    cbn [for_each List.find volumes_size foldr].
    destruct (volume_map !! volid) as [size|] eqn:Hsize.
    - rewrite bool_decide_eq_false_2 by done.
      erewrite mbind_run by reflexivity. rewrite IH.
      destruct (List.find _ volumes); [done|].
      cbn [default]. fold (volumes_size volume_map volumes). by rewrite Z.add_assoc.
    - by rewrite bool_decide_eq_true_2. }
  rewrite Hloop. by destruct (List.find _ volumes).
Qed.

End Volumes.

(** ** What the methods change of the handler *)

Section HandlerState.
Context {R : Type} `{RegexObject R} `{Collaborators}.
Implicit Types (self : OpenStackHandler R) (registry : gmap string (list string)).

Lemma on_store_keeps {A} (m : M Store A) self :
  same_configuration self (snd (on_store m self))
  /\ processed_host_names (snd (on_store m self)) = processed_host_names self
  /\ processed_vm_names (snd (on_store m self)) = processed_vm_names self.
Proof. unfold on_store, same_configuration. by destruct (m (store self)). Qed.

Lemma registry_append_distinct key name registry :
  registry_distinct registry ->
  registry_has key name registry = false ->
  registry_distinct (registry_append key name registry).
Proof.
  intros Hdistinct Hnew other names. unfold registry_append.
  destruct (decide (key = other)) as [<-|Hne].
  - rewrite lookup_insert_eq. intros [= <-].
    apply bool_decide_eq_false in Hnew.
    apply NoDup_app. split; [|split].
    + destruct (registry !! key) as [known|] eqn:Hknown; [|constructor].
      by apply (Hdistinct key).
    + intros x Hx ->%list_elem_of_singleton. done.
    + apply NoDup_singleton.
  - rewrite lookup_insert_ne by done. apply Hdistinct.
Qed.

Lemma registry_append_keeps key name registry other known :
  registry_has other known registry = true ->
  registry_has other known (registry_append key name registry) = true.
Proof.
  unfold registry_has, registry_append. intros Hknown%bool_decide_eq_true.
  apply bool_decide_eq_true.
  destruct (decide (key = other)) as [<-|Hne].
  - rewrite lookup_insert_eq. simpl. apply elem_of_app. by left.
  - by rewrite lookup_insert_ne.
Qed.

Lemma add_host_registry self (obj : Hypervisor) :
  let after := snd (add_host obj self) in
  (registry_distinct (processed_host_names self) ->
   registry_distinct (processed_host_names after))
  /\ forall site name, registry_has site name (processed_host_names self) = true ->
                       registry_has site name (processed_host_names after) = true.
Proof.
  cbv zeta. rewrite add_host_run. cbv zeta.
  destruct (get_cluster_for_host _ _) as [cluster_name|]; [|done].
  destruct (permitted_clusters self !! cluster_name); [|done].
  destruct (registry_has _ _ _) eqn:Hdup; [done|].
  match goal with |- context [on_store ?m ?s] => destruct (on_store_keeps m s) as (_ & -> & _) end.
  cbn [processed_host_names with_processed_host_names].
  split; [intros Hdistinct; by apply registry_append_distinct|].
  intros site name. apply registry_append_keeps.
Qed.

Lemma add_virtual_machine_registry self (obj : Server) :
  let after := snd (add_virtual_machine obj self) in
  (registry_distinct (processed_vm_names self) ->
   registry_distinct (processed_vm_names after))
  /\ forall cluster name, registry_has cluster name (processed_vm_names self) = true ->
                          registry_has cluster name (processed_vm_names after) = true.
Proof.
  cbv zeta. rewrite add_virtual_machine_run. cbv zeta.
  destruct (if strip_host_domain_name (settings self) then _ else _) as [cluster_name|]; [|done].
  destruct (permitted_clusters self !! cluster_name); [|done].
  destruct (registry_has _ _ _) eqn:Hdup; [done|].
  match goal with |- context [on_store ?m ?s] => destruct (on_store_keeps m s) as (_ & _ & ->) end.
  cbn [processed_vm_names with_processed_vm_names].
  split; [intros Hdistinct; by apply registry_append_distinct|].
  intros cluster name. apply registry_append_keeps.
Qed.

Lemma add_host_keeps self (obj : Hypervisor) :
  let after := snd (add_host obj self) in
  same_configuration self after /\ processed_vm_names after = processed_vm_names self.
Proof.
  cbv zeta. rewrite add_host_run. cbv zeta.
  destruct (get_cluster_for_host _ _) as [cluster_name|]; [|done].
  destruct (permitted_clusters self !! cluster_name); [|done].
  destruct (registry_has _ _ _) eqn:Hdup; [done|].
  match goal with |- context [on_store ?m ?s] => destruct (on_store_keeps m s) as (? & _ & ->) end.
  done.
Qed.

Lemma add_virtual_machine_keeps self (obj : Server) :
  let after := snd (add_virtual_machine obj self) in
  same_configuration self after /\ processed_host_names after = processed_host_names self.
Proof.
  cbv zeta. rewrite add_virtual_machine_run. cbv zeta.
  destruct (if strip_host_domain_name (settings self) then _ else _) as [cluster_name|]; [|done].
  destruct (permitted_clusters self !! cluster_name); [|done].
  destruct (registry_has _ _ _) eqn:Hdup; [done|].
  match goal with |- context [on_store ?m ?s] => destruct (on_store_keeps m s) as (? & -> & _) end.
  done.
Qed.

(** The processed-name registries hold each name once per scope, and only
    grow: [add_host] and [add_virtual_machine] keep both, however they end. *)
Theorem registries_hold_each_name_once :
  (forall self (obj : Hypervisor),
     let after := snd (add_host obj self) in
     (registry_distinct (processed_host_names self) ->
      registry_distinct (processed_host_names after))
     /\ forall site name, registry_has site name (processed_host_names self) = true ->
                          registry_has site name (processed_host_names after) = true)
  /\ (forall self (obj : Server),
        let after := snd (add_virtual_machine obj self) in
        (registry_distinct (processed_vm_names self) ->
         registry_distinct (processed_vm_names after))
        /\ forall cluster name, registry_has cluster name (processed_vm_names self) = true ->
                                registry_has cluster name (processed_vm_names after) = true).
Proof. split; intros self obj; [apply add_host_registry|apply add_virtual_machine_registry]. Qed.

(** Each method keeps to its own part of the handler. [add_host] changes
    the inventory, the log and the registry of hosts only;
    [add_virtual_machine] the inventory, the log and the registry of VMs
    only; [add_volume] the volume map only. *)
Theorem methods_keep_to_their_part_of_the_handler :
  (forall self (obj : Hypervisor),
     let after := snd (add_host obj self) in
     same_configuration self after /\ processed_vm_names after = processed_vm_names self)
  /\ (forall self (obj : Server),
        let after := snd (add_virtual_machine obj self) in
        same_configuration self after /\ processed_host_names after = processed_host_names self)
  /\ (forall self (obj : Volume),
        add_volume obj self
        = (Returned tt, with_volume_map self (<[vol_id obj := vol_size obj]> (volume_map self)))).
Proof.
  split; [|split]; intros self obj; [apply add_host_keeps|apply add_virtual_machine_keeps|done].
Qed.

(** A record outside the permitted clusters is skipped before the registry
    is looked at: a host no cluster lists, a host or a server of a cluster
    that is not permitted, and a server without an availability zone leave
    the handler as it is, but for the log, so its name is not recorded
    either. The log gets the record of the parsing and the record of the
    skip; between them, for a host whose cluster is listed, what level
    [DEBUG3] logs of the cluster data. *)
Theorem records_outside_permitted_clusters_change_only_the_log :
  (forall self (obj : Hypervisor),
     host_cluster self obj = None ->
     exists skipping,
       add_host obj self
       = (Returned tt,
          with_more_log self
            (LogRecord DEBUG ("Parsing Openstack host: " +:+ host_name self obj)
             :: match get_cluster_for_host (cluster_host_map self) (hv_service_host obj) with
                | Some _ => cluster_data_log obj
                | None => []
                end
             ++ [skipping]))
       /\ (log_level_is_DEBUG3 = false ->
           add_host obj self
           = (Returned tt,
              with_more_log self
                [LogRecord DEBUG ("Parsing Openstack host: " +:+ host_name self obj);
                 skipping])))
  /\ (forall self (obj : Server),
        vm_scope self obj = None ->
        exists skipping,
          add_virtual_machine obj self
          = (Returned tt,
             with_more_log self [LogRecord DEBUG ("Parsing OpenStack VM: " +:+ vm_name self obj);
                                 skipping])).
Proof.
  split; intros self obj Hscope.
  - rewrite add_host_run. cbv zeta. unfold host_cluster in Hscope.
    destruct (get_cluster_for_host _ _) as [cluster_name|]; simpl in Hscope;
      [|by eexists].
    destruct (permitted_clusters self !! cluster_name); simpl in Hscope; [done|].
    eexists. split; [done|]. intros Hlevel. unfold cluster_data_log. by rewrite Hlevel.
  - rewrite add_virtual_machine_run. cbv zeta. unfold vm_scope in Hscope.
    destruct (if strip_host_domain_name (settings self) then _ else _) as [cluster_name|];
      simpl in Hscope; [|by eexists].
    destruct (permitted_clusters self !! cluster_name); simpl in Hscope; [done|by eexists].
Qed.

End HandlerState.

(** ** What is handed to [add_device_vm_to_inventory] *)

Section HandedOver.
Context {R : Type} `{RegexObject R} `{Collaborators}.
Implicit Types (self : OpenStackHandler R) (st : Store).

Lemma host_relations_kinds :
  is_tag_relation "host_tenant_relation" = false
  /\ is_tag_relation "host_tag_relation" = true
  /\ is_cluster_relation "host_tenant_relation" = false
  /\ is_cluster_relation "host_tag_relation" = false.
Proof. repeat split; reflexivity. Qed.

(** What [host_pipeline] hands over. *)
Lemma host_pipeline_data self (obj : Hypervisor) (name site : string)
    (cluster_object : option nat) st (parsed : IPInterface) :
  fst (passes_filter name (host_include_filter (settings self))
                     (host_exclude_filter (settings self))) = true ->
  ip_interface (host_ip obj) = Some parsed ->
  let rules relation := default [] (relations (settings self) !! relation) in
  let ip_addr := with_prefix_length (inventory st) (host_ip obj) parsed [None] in
  let tenant := List.find (fun rule => re_match (object_regex rule) name)
                          (rules "host_tenant_relation") in
  let tags := assigned_name <$> List.filter (fun rule => re_match (object_regex rule) name)
                                            (rules "host_tag_relation") in
  exists host_data lg,
    host_pipeline self obj name site cluster_object st
    = add_device_vm_to_inventory (settings self) NBDevice host_data
        [("eth0", [("name", VStr "eth0"); ("device", VNone); ("enabled", VBool true);
                   ("type", VStr "10gbase-t")])]
        [] [("eth0", [ip_addr])] (Some ip_addr) None
        (MkStore (inventory st) (log st ++ lg))
    /\ dict_get "name" host_data = Some (VStr name)
    /\ dict_get "site" host_data = Some (named site)
    /\ dict_get "cluster" host_data = Some (from_option VObject VNone cluster_object)
    /\ dict_get "status" host_data
       = Some (VStr (if bool_decide (hv_status obj = Some "enabled") then "active" else "offline"))
    /\ dict_get "platform" host_data
       = Some (named (default "None" (hypervisor_type obj) +:+ " "
                      +:+ default "None" (hypervisor_version obj)))
    /\ dict_get "tenant" host_data = (fun rule => named (assigned_name rule)) <$> tenant
    /\ dict_get "tags" host_data
       = match tags with [] => None | _ => Some (VList (VStr <$> tags)) end.
Proof.
  intros Hpasses Hparsed rules ip_addr tenant tags.
  destruct host_relations_kinds as (Htn & Htg & Hcn & Hcg).
  destruct (get_object_relation_returns (relations (settings self)) name
              "host_tenant_relation" None) as (_ & Htenant & _).
  destruct (get_object_relation_returns (relations (settings self)) name
              "host_tag_relation" None) as (Htags & _ & _).
  specialize (Htenant Htn). specialize (Htags Htg).
  erewrite find_ext in Htenant; [|intros rule; by apply rule_matches_plain].
  erewrite filter_ext_bool in Htags; [|intros rule; by apply rule_matches_plain].
  fold (rules "host_tenant_relation") in Htenant. fold tenant in Htenant.
  fold (rules "host_tag_relation") in Htags. fold tags in Htags.
  unfold host_pipeline.
  erewrite mbind_run by reflexivity. cbv beta. rewrite Hpasses. cbn [negb].
  erewrite mbind_run by reflexivity. cbv beta.
  erewrite mbind_run by reflexivity. cbv beta.
  rewrite Hparsed.
  erewrite mbind_run by reflexivity. cbv beta.
  rewrite Htenant, Htags. cbn [fst snd inventory log as_name as_list].
  fold ip_addr. rewrite <- !app_assoc.
  eexists _, _. split; [reflexivity|].
  destruct tenant as [rule|], tags as [|tag tags']; by repeat split.
Qed.

(** A host that passes the name filter and whose [host_ip] parses is handed
    over as an [NBDevice] with one physical interface [eth0], no virtual
    interface, and [host_ip] as the only address of [eth0] and as primary
    IPv4, with the length of the longest matching prefix when there is one;
    a host never has a primary IPv6. Nothing of the inventory is touched
    before. The platform is always set, to the hypervisor type and version
    with [None] written out for a missing one; the tenant is that of the
    first matching rule, the tags those of all matching rules, and no
    [tags] entry when there is none. *)
Theorem host_is_handed_over_with_one_interface self (obj : Hypervisor) (name site : string)
    (cluster_object : option nat) st (parsed : IPInterface) :
  fst (passes_filter name (host_include_filter (settings self))
                     (host_exclude_filter (settings self))) = true ->
  ip_interface (host_ip obj) = Some parsed ->
  let rules relation := default [] (relations (settings self) !! relation) in
  let ip_addr := with_prefix_length (inventory st) (host_ip obj) parsed [None] in
  let tenant := List.find (fun rule => re_match (object_regex rule) name)
                          (rules "host_tenant_relation") in
  let tags := assigned_name <$> List.filter (fun rule => re_match (object_regex rule) name)
                                            (rules "host_tag_relation") in
  exists host_data lg,
    host_pipeline self obj name site cluster_object st
    = add_device_vm_to_inventory (settings self) NBDevice host_data
        [("eth0", [("name", VStr "eth0"); ("device", VNone); ("enabled", VBool true);
                   ("type", VStr "10gbase-t")])]
        [] [("eth0", [ip_addr])] (Some ip_addr) None
        (MkStore (inventory st) (log st ++ lg))
    /\ dict_get "name" host_data = Some (VStr name)
    /\ dict_get "site" host_data = Some (named site)
    /\ dict_get "cluster" host_data = Some (from_option VObject VNone cluster_object)
    /\ dict_get "status" host_data
       = Some (VStr (if bool_decide (hv_status obj = Some "enabled") then "active" else "offline"))
    /\ dict_get "platform" host_data
       = Some (named (default "None" (hypervisor_type obj) +:+ " "
                      +:+ default "None" (hypervisor_version obj)))
    /\ dict_get "tenant" host_data = (fun rule => named (assigned_name rule)) <$> tenant
    /\ dict_get "tags" host_data
       = match tags with [] => None | _ => Some (VList (VStr <$> tags)) end.
Proof. apply host_pipeline_data. Qed.

(** A host of a permitted cluster whose name is new and passes the filter,
    but whose [host_ip] does not parse, ends [add_host] with the
    [ValueError] of [ip_interface]: the name is recorded, the inventory is
    as before. *)
Theorem host_ip_that_does_not_parse_raises self (obj : Hypervisor) (site : string) :
  host_scope self obj = Some site ->
  registry_has site (host_name self obj) (processed_host_names self) = false ->
  fst (passes_filter (host_name self obj) (host_include_filter (settings self))
                     (host_exclude_filter (settings self))) = true ->
  ip_interface (host_ip obj) = None ->
  exists lg,
    add_host obj self
    = (Raised (ValueError (host_ip obj)),
       with_processed_host_names (with_more_log self lg)
         (registry_append site (host_name self obj) (processed_host_names self))).
Proof.
  intros Hscope Hnew Hpasses Hparsed. rewrite add_host_run. cbv zeta.
  unfold host_scope, host_cluster in Hscope.
  destruct (get_cluster_for_host _ _) as [cluster_name|]; simpl in Hscope; [|done].
  destruct (permitted_clusters self !! cluster_name); simpl in Hscope; [|done].
  injection Hscope as Hsite. rewrite Hsite, Hnew.
  unfold on_store, host_pipeline.
  erewrite mbind_run by reflexivity. cbv beta. rewrite Hpasses. cbn [negb].
  erewrite mbind_run by reflexivity. cbv beta.
  erewrite mbind_run by reflexivity. cbv beta.
  rewrite Hparsed. unfold raise.
  eexists. unfold with_more_log, with_store, with_processed_host_names.
  cbn [store inventory log settings source_name site_name permitted_clusters cluster_host_map
       volume_map processed_host_names processed_vm_names object_cache fst snd].
  rewrite <- !app_assoc. reflexivity.
Qed.

End HandedOver.

(** ** Servers: what stops them, and what is handed over *)

Section Servers.
Context {R : Type} `{RegexObject R} `{Collaborators}.
Implicit Types (self : OpenStackHandler R) (st : Store) (loc : vm_locals).

Lemma find_app {A} (f : A -> bool) (l1 l2 : list A) :
  List.find f (l1 ++ l2) = match List.find f l1 with
                           | Some a => Some a
                           | None => List.find f l2
                           end.
Proof. induction l1 as [|a l1 IH]; [done|]. simpl. by destruct (f a). Qed.

Lemma all_parse (declared : list Address) :
  unparsable_address declared = None <-> Forall parses declared.
Proof.
  unfold unparsable_address, parses. induction declared as [|address declared IH]; simpl.
  { split; [constructor|done]. }
  rewrite Forall_cons. destruct (ip_interface (addr address)) as [parsed|] eqn:Hparsed.
  - rewrite bool_decide_eq_false_2 by done. rewrite IH. split; [|by intros [_ ?]].
    intros Hrest. split; [by eexists|done].
  - rewrite bool_decide_eq_true_2 by done. split; [done|]. by intros [[? ?] _].
Qed.

Lemma addresses_loop_raises name site network (addresses : list Address) loc st address :
  unparsable_address addresses = Some address ->
  exists lg,
    for_each (address_step name site network) addresses loc st
    = (Raised (ValueError (addr address)), MkStore (inventory st) (log st ++ lg)).
Proof.
  unfold unparsable_address. revert loc st.
  induction addresses as [|first addresses IH]; intros loc st Hfind; [done|].
  simpl in Hfind. cbn [for_each].
  destruct (ip_interface (addr first)) as [parsed|] eqn:Hparsed.
  - rewrite bool_decide_eq_false_2 in Hfind by done.
    destruct (address_step_returns name site network loc first st) as (loc1 & lg1 & Hstep & _);
      [by eexists|].
    erewrite mbind_run by exact Hstep.
    destruct (IH loc1 (MkStore (inventory st) (log st ++ lg1)) Hfind) as [lg Hraise].
    exists (lg1 ++ lg). rewrite Hraise. cbn [inventory log]. by rewrite app_assoc.
  - rewrite bool_decide_eq_true_2 in Hfind by done. injection Hfind as <-.
    exists []. unfold address_step, mbind, M_bind. rewrite Hparsed. unfold raise.
    by rewrite store_with_no_more_log.
Qed.

Lemma collect_addresses_returns name site (addresses : dict (list Address)) st :
  Forall parses (declared_addresses addresses) ->
  exists loc lg,
    collect_addresses name site addresses st
    = (Returned loc, MkStore (inventory st) (log st ++ lg)).
Proof.
  intros Hparse. unfold collect_addresses.
  destruct (networks_loop name site addresses (VmLocals None None [] [] 0) st Hparse)
    as (loc & lg & Hloop & _).
  by exists loc, lg.
Qed.

Lemma network_step_eq name site loc network (addrs : list Address) :
  network_step name site loc (network, addrs)
  = for_each (address_step name site network) addrs
      (VmLocals (vm_primary_ip4 loc) (vm_primary_ip6 loc) (vm_nic_dict loc)
                (dict_set network [] (vm_nic_ips loc)) (vm_count loc + 1)).
Proof. done. Qed.

Lemma collect_addresses_raises name site (addresses : dict (list Address)) st address :
  unparsable_address (declared_addresses addresses) = Some address ->
  exists lg,
    collect_addresses name site addresses st
    = (Raised (ValueError (addr address)), MkStore (inventory st) (log st ++ lg)).
Proof.
  unfold collect_addresses. generalize (VmLocals None None [] [] 0). revert st.
  induction addresses as [|[network addrs] addresses IH]; intros st loc Hfind; [done|].
  change (declared_addresses ((network, addrs) :: addresses))
    with (addrs ++ declared_addresses addresses) in Hfind.
  unfold unparsable_address in Hfind. rewrite find_app in Hfind.
  cbn [for_each]. rewrite network_step_eq.
  destruct (List.find _ addrs) as [found|] eqn:Hhere.
  - injection Hfind as ->.
    destruct (addresses_loop_raises name site network addrs
                (VmLocals (vm_primary_ip4 loc) (vm_primary_ip6 loc) (vm_nic_dict loc)
                          (dict_set network [] (vm_nic_ips loc)) (vm_count loc + 1)) st address Hhere)
      as [lg Hraise].
    exists lg. unfold mbind, M_bind. by rewrite Hraise.
  - apply all_parse in Hhere.
    destruct (addresses_loop name site network addrs
                (VmLocals (vm_primary_ip4 loc) (vm_primary_ip6 loc) (vm_nic_dict loc)
                          (dict_set network [] (vm_nic_ips loc)) (vm_count loc + 1)) st Hhere)
      as (loc1 & lg1 & Hstep & _).
    erewrite mbind_run by exact Hstep.
    destruct (IH (MkStore (inventory st) (log st ++ lg1)) loc1 Hfind) as [lg Hraise].
    exists (lg1 ++ lg). rewrite Hraise. cbn [inventory log]. by rewrite app_assoc.
Qed.

Lemma mbind_raise {S A B} (m : M S A) (f : A -> M S B) (s s' : S) (e : exception) :
  m s = (Raised e, s') -> (m ≫= f) s = (Raised e, s').
Proof. intros Hm. unfold mbind, M_bind. by rewrite Hm. Qed.

Lemma vm_relations_kinds :
  is_tag_relation "vm_platform_relation" = false
  /\ is_tag_relation "vm_tenant_relation" = false
  /\ is_cluster_relation "vm_platform_relation" = false
  /\ is_cluster_relation "vm_tenant_relation" = false.
Proof. repeat split; reflexivity. Qed.

(** Lines 1038-1044: the platform of a server. *)
Lemma platform_run self (obj : Server) st :
  let rules := default [] (relations (settings self) !! "vm_platform_relation") in
  exists lg,
    (if skip_vm_platform (settings self) then mret None
     else match flavor_original_name obj with
          | None => mret None
          | Some platform =>
              platform ← logged (get_object_relation (relations (settings self)) platform
                                                     "vm_platform_relation" (Some platform));
              mret (as_name platform)
          end) st
    = (Returned (if skip_vm_platform (settings self) then None
                 else (fun platform =>
                         match List.find (fun rule => re_match (object_regex rule) platform) rules with
                         | Some rule => assigned_name rule
                         | None => platform
                         end) <$> flavor_original_name obj),
       MkStore (inventory st) (log st ++ lg)).
Proof.
  intros rules. destruct vm_relations_kinds as (Hpt & _ & Hpc & _).
  destruct (skip_vm_platform (settings self)).
  { exists []. by rewrite store_with_no_more_log. }
  destruct (flavor_original_name obj) as [platform|].
  2: { exists []. by rewrite store_with_no_more_log. }
  destruct (get_object_relation_returns (relations (settings self)) platform
              "vm_platform_relation" (Some platform)) as (_ & Hname & _).
  specialize (Hname Hpt).
  erewrite find_ext in Hname; [|intros rule; by apply rule_matches_plain].
  fold rules in Hname.
  eexists. erewrite mbind_run by reflexivity. cbv beta. rewrite Hname.
  unfold mret, M_ret. cbn [as_name fmap option_fmap option_map].
  by destruct (List.find _ rules).
Qed.

(** A server of a permitted cluster whose name is new and passes the
    filter, with an attached volume that [add_volume] has not seen, ends
    [add_virtual_machine] with the [KeyError] of that volume: the name is
    recorded, the inventory is as before. *)
Theorem server_with_an_unknown_volume_raises self (obj : Server) (cluster volid : string) :
  vm_scope self obj = Some cluster ->
  registry_has cluster (vm_name self obj) (processed_vm_names self) = false ->
  fst (passes_filter (vm_name self obj) (vm_include_filter (settings self))
                     (vm_exclude_filter (settings self))) = true ->
  unknown_volume (volume_map self) (attached_volumes obj) = Some volid ->
  exists lg,
    add_virtual_machine obj self
    = (Raised (KeyError volid),
       with_processed_vm_names (with_more_log self lg)
         (registry_append cluster (vm_name self obj) (processed_vm_names self))).
Proof.
  intros Hscope Hnew Hpasses Hunknown. rewrite add_virtual_machine_run. cbv zeta.
  unfold vm_scope in Hscope.
  destruct (if strip_host_domain_name (settings self) then _ else _) as [cluster_name|];
    simpl in Hscope; [|done].
  destruct (permitted_clusters self !! cluster_name); simpl in Hscope; [|done].
  injection Hscope as ->. rewrite Hnew.
  unfold on_store, vm_pipeline.
  erewrite mbind_run by reflexivity. cbv beta. rewrite Hpasses. cbn [negb].
  erewrite mbind_run by reflexivity. cbv beta.
  match goal with
  | |- context [mbind _ _ ?s0] => destruct (platform_run self obj s0) as [lgp Hplatform]
  end.
  erewrite mbind_run by exact Hplatform. cbv beta.
  erewrite mbind_raise by (rewrite attached_disk_run, Hunknown; reflexivity).
  eexists. unfold with_more_log, with_store, with_processed_vm_names.
  cbn [store inventory log settings source_name site_name permitted_clusters cluster_host_map
       volume_map processed_host_names processed_vm_names object_cache fst snd].
  rewrite <- !app_assoc. reflexivity.
Qed.

(** Lines 1029-1096: a server that passes the name filter and whose
    volumes are known, up to the loop over its addresses. *)
Lemma vm_pipeline_data self (obj : Server) (name status cluster_name : string)
    (cluster_object : option nat) st :
  fst (passes_filter name (vm_include_filter (settings self))
                     (vm_exclude_filter (settings self))) = true ->
  unknown_volume (volume_map self) (attached_volumes obj) = None ->
  let rules relation := default [] (relations (settings self) !! relation) in
  let site := fst (get_site_name (settings self) (site_name self) SiteNBCluster cluster_name "") in
  exists vm_data st1 lg,
    vm_pipeline self obj name status cluster_name cluster_object st
    = (loc ← collect_addresses name site (addresses obj);
       add_device_vm_to_inventory (settings self) NBVM vm_data [] (vm_nic_dict loc)
                                  (vm_nic_ips loc) (vm_primary_ip4 loc) (vm_primary_ip6 loc)) st1
    /\ log st1 = log st ++ lg
    /\ (set_vm_name_to_uuid (settings self) = false -> inventory st1 = inventory st)
    /\ dict_get "name" vm_data = Some (VStr name)
    /\ dict_get "cluster" vm_data = Some (from_option VObject VNone cluster_object)
    /\ dict_get "status" vm_data = Some (VStr status)
    /\ dict_get "memory" vm_data = Some (VInt (flavor_ram obj))
    /\ dict_get "vcpus" vm_data
       = Some (VInt (if bool_decide (flavor_vcpus obj = 0%Z) then 1%Z else flavor_vcpus obj))
    /\ dict_get "disk" vm_data
       = Some (VInt (volumes_size (volume_map self) (attached_volumes obj)))
    /\ dict_get "site" vm_data
       = (if netbox_since_3_3_0 (inventory st) then Some (named site) else None)
    /\ dict_get "platform" vm_data
       = (if skip_vm_platform (settings self) then None
          else (fun platform =>
                  named match List.find (fun rule => re_match (object_regex rule) platform)
                                        (rules "vm_platform_relation") with
                        | Some rule => assigned_name rule
                        | None => platform
                        end) <$> flavor_original_name obj)
    /\ dict_get "comments" vm_data
       = (if skip_vm_comments (settings self) || set_vm_name_to_uuid (settings self) then None
          else Some (VStr (sv_id obj)))
    /\ dict_get "tenant" vm_data
       = (fun rule => named (assigned_name rule))
           <$> List.find (fun rule => re_match (object_regex rule) name) (rules "vm_tenant_relation").
Proof.
  intros Hpasses Hknown rules site.
  destruct vm_relations_kinds as (_ & Htt & _ & Htc).
  destruct (get_object_relation_returns (relations (settings self)) name
              "vm_tenant_relation" None) as (_ & Htenant & _).
  specialize (Htenant Htt).
  erewrite find_ext in Htenant; [|intros rule; by apply rule_matches_plain].
  fold (rules "vm_tenant_relation") in Htenant.
  unfold vm_pipeline.
  erewrite mbind_run by reflexivity. cbv beta. rewrite Hpasses. cbn [negb].
  erewrite mbind_run by reflexivity. cbv beta. fold site.
  match goal with
  | |- context [mbind _ _ ?s0] => destruct (platform_run self obj s0) as [lgp Hplatform]
  end.
  erewrite mbind_run by exact Hplatform. cbv beta.
  erewrite mbind_run by (rewrite attached_disk_run, Hknown; reflexivity). cbv beta.
  erewrite mbind_run by reflexivity. cbv beta. rewrite Htenant.
  erewrite mbind_run by reflexivity. cbv beta. cbn [inventory log fst snd as_name].
  fold (rules "vm_platform_relation").
  destruct (set_vm_name_to_uuid (settings self)) eqn:Huuid.
  - destruct (add_update_custom_field _ _) as [inv field].
    erewrite mbind_run by reflexivity. cbv beta.
    eexists _, _, _. split; [reflexivity|]. cbn [inventory log].
    split; [by rewrite <- !app_assoc|]. split; [done|].
    rewrite orb_true_r.
    destruct (netbox_since_3_3_0 (inventory st)), (skip_vm_platform (settings self)),
      (flavor_original_name obj), (skip_vm_comments (settings self)),
      (List.find _ (rules "vm_tenant_relation")); by repeat split.
  - erewrite mbind_run by reflexivity. cbv beta.
    eexists _, _, _. split; [reflexivity|]. cbn [inventory log].
    split; [by rewrite <- !app_assoc|]. split; [done|].
    rewrite orb_false_r.
    destruct (netbox_since_3_3_0 (inventory st)), (skip_vm_platform (settings self)),
      (flavor_original_name obj), (skip_vm_comments (settings self)),
      (List.find _ (rules "vm_tenant_relation")); by repeat split.
Qed.

(** A server that passes the name filter, whose volumes are known and whose
    addresses parse is handed over as an [NBVM] with the entries below: a
    flavor without vCPUs counts as one vCPU, the disk is the sum of the
    sizes of the attached volumes, the platform is the name of the flavor
    unless a rule of [vm_platform_relation] gives another, the id of the
    server is its comment unless it is its name already, and the site is
    given to NetBox from 3.3.0 on. *)
Theorem server_is_handed_over_with_its_resources self (obj : Server)
    (name status cluster_name : string) (cluster_object : option nat) st :
  fst (passes_filter name (vm_include_filter (settings self))
                     (vm_exclude_filter (settings self))) = true ->
  unknown_volume (volume_map self) (attached_volumes obj) = None ->
  unparsable_address (declared_addresses (addresses obj)) = None ->
  let rules relation := default [] (relations (settings self) !! relation) in
  let site := fst (get_site_name (settings self) (site_name self) SiteNBCluster cluster_name "") in
  exists vm_data vnic_data nic_ips p_ipv4 p_ipv6 st',
    vm_pipeline self obj name status cluster_name cluster_object st
    = add_device_vm_to_inventory (settings self) NBVM vm_data [] vnic_data nic_ips
                                 p_ipv4 p_ipv6 st'
    /\ (set_vm_name_to_uuid (settings self) = false -> inventory st' = inventory st)
    /\ dict_get "name" vm_data = Some (VStr name)
    /\ dict_get "cluster" vm_data = Some (from_option VObject VNone cluster_object)
    /\ dict_get "status" vm_data = Some (VStr status)
    /\ dict_get "memory" vm_data = Some (VInt (flavor_ram obj))
    /\ dict_get "vcpus" vm_data
       = Some (VInt (if bool_decide (flavor_vcpus obj = 0%Z) then 1%Z else flavor_vcpus obj))
    /\ dict_get "disk" vm_data
       = Some (VInt (volumes_size (volume_map self) (attached_volumes obj)))
    /\ dict_get "site" vm_data
       = (if netbox_since_3_3_0 (inventory st) then Some (named site) else None)
    /\ dict_get "platform" vm_data
       = (if skip_vm_platform (settings self) then None
          else (fun platform =>
                  named match List.find (fun rule => re_match (object_regex rule) platform)
                                        (rules "vm_platform_relation") with
                        | Some rule => assigned_name rule
                        | None => platform
                        end) <$> flavor_original_name obj)
    /\ dict_get "comments" vm_data
       = (if skip_vm_comments (settings self) || set_vm_name_to_uuid (settings self) then None
          else Some (VStr (sv_id obj)))
    /\ dict_get "tenant" vm_data
       = (fun rule => named (assigned_name rule))
           <$> List.find (fun rule => re_match (object_regex rule) name) (rules "vm_tenant_relation").
Proof.
  intros Hpasses Hknown Hparse rules site. apply all_parse in Hparse.
  destruct (vm_pipeline_data self obj name status cluster_name cluster_object st Hpasses Hknown)
    as (vm_data & st1 & lg & Hrun & Hlog & Hinv & Hdata).
  fold site in Hrun.
  destruct (collect_addresses_returns name site (addresses obj) st1 Hparse)
    as (loc & lg' & Hloc).
  rewrite Hrun. erewrite mbind_run by exact Hloc.
  eexists vm_data, _, _, _, _, _. split; [reflexivity|]. cbn [inventory].
  split; [exact Hinv|exact Hdata].
Qed.

(** A server of a permitted cluster whose name is new and passes the
    filter, whose volumes are known, but with a declared address that does
    not parse, ends [add_virtual_machine] with the [ValueError] of
    [ip_interface] for the first such address: the name is recorded, and
    the inventory is as before unless the server is named by its id. *)
Theorem server_address_that_does_not_parse_raises self (obj : Server) (cluster : string)
    (address : Address) :
  vm_scope self obj = Some cluster ->
  registry_has cluster (vm_name self obj) (processed_vm_names self) = false ->
  fst (passes_filter (vm_name self obj) (vm_include_filter (settings self))
                     (vm_exclude_filter (settings self))) = true ->
  unknown_volume (volume_map self) (attached_volumes obj) = None ->
  unparsable_address (declared_addresses (addresses obj)) = Some address ->
  exists after,
    add_virtual_machine obj self = (Raised (ValueError (addr address)), after)
    /\ processed_vm_names after
       = registry_append cluster (vm_name self obj) (processed_vm_names self)
    /\ (set_vm_name_to_uuid (settings self) = false ->
        inventory (store after) = inventory (store self)).
Proof.
  intros Hscope Hnew Hpasses Hknown Hbad. rewrite add_virtual_machine_run. cbv zeta.
  unfold vm_scope in Hscope.
  destruct (if strip_host_domain_name (settings self) then _ else _) as [cluster_name|];
    simpl in Hscope; [|done].
  destruct (permitted_clusters self !! cluster_name); simpl in Hscope; [|done].
  injection Hscope as ->. rewrite Hnew.
  unfold on_store.
  match goal with
  | |- context [vm_pipeline ?s ?o ?n ?status ?c ?co ?s0] =>
      destruct (vm_pipeline_data s o n status c co s0 Hpasses Hknown)
        as (vm_data & st1 & lg & Hrun & Hlog & Hinv & _)
  end.
  rewrite Hrun.
  match goal with
  | |- context [collect_addresses ?n ?site ?a] =>
      destruct (collect_addresses_raises n site a st1 address Hbad) as [lg' Hraise]
  end.
  erewrite mbind_raise by exact Hraise.
  eexists. split; [reflexivity|]. split; [done|].
  intros Huuid. cbn [store with_store inventory]. by rewrite Hinv.
Qed.

End Servers.

(** ** The interfaces of a server *)

Section ServerInterfacesProperties.
Context {R : Type} `{RegexObject R} `{Collaborators}.
Implicit Types (st : Store) (loc : vm_locals) (address : Address).

Lemma dict_get_set_ne {V} (key other : string) (v : V) (d : dict V) :
  key <> other -> dict_get other (dict_set key v d) = dict_get other d.
Proof.
  intros Hne. induction d as [|[k w] d IH]; simpl.
  - by rewrite bool_decide_eq_false_2.
  - destruct (decide (k = key)) as [->|Hk].
    + rewrite (bool_decide_eq_true_2 (key = key)) by done. simpl.
      by rewrite !(bool_decide_eq_false_2 (key = other)).
    + rewrite (bool_decide_eq_false_2 (k = key)) by done. simpl.
      by rewrite IH.
Qed.

Lemma address_step_interface name site network loc address st :
  parses address ->
  exists loc' lg,
    address_step name site network loc address st
    = (Returned loc', MkStore (inventory st) (log st ++ lg))
    /\ vm_count loc' = vm_count loc
    /\ vm_nic_dict loc'
       = (if permitted (formatted_address (inventory st) site address)
                       (vnic_name (vm_count loc) network)
          then dict_set network (vm_nic_data_of (vm_count loc) network address) (vm_nic_dict loc)
          else vm_nic_dict loc).
Proof.
  intros [parsed Hparsed].
  unfold address_step, formatted_address, vnic_name, vm_nic_data_of. rewrite Hparsed.
  cbv [mbind M_bind get_inventory write_log mret M_ret]. cbn [inventory log].
  destruct (permitted _ _).
  - eexists _, []. rewrite app_nil_r. destruct st. by repeat split.
  - eexists _, _. by repeat split.
Qed.

Lemma addresses_loop_interface name site network (addresses : list Address) loc st :
  Forall parses addresses ->
  exists loc' lg,
    for_each (address_step name site network) addresses loc st
    = (Returned loc', MkStore (inventory st) (log st ++ lg))
    /\ vm_count loc' = vm_count loc
    /\ (forall other, other <> network ->
          dict_get other (vm_nic_dict loc') = dict_get other (vm_nic_dict loc))
    /\ dict_get network (vm_nic_dict loc')
       = match last (permitted_addresses (inventory st) site (vm_count loc) network addresses) with
         | Some address => Some (vm_nic_data_of (vm_count loc) network address)
         | None => dict_get network (vm_nic_dict loc)
         end.
Proof.
  intros Hall. revert loc st.
  induction Hall as [|address addresses Hparse _ IH]; intros loc st.
  { exists loc, []. rewrite app_nil_r. destruct st. by repeat split. }
  destruct (address_step_interface name site network loc address st Hparse)
    as (loc1 & lg1 & Hstep & Hcount & Hdict).
  destruct (IH loc1 (MkStore (inventory st) (log st ++ lg1)))
    as (loc' & lg & Hrest & Hcount' & Hothers & Hhere).
  exists loc', (lg1 ++ lg). cbn [for_each]. erewrite mbind_run by exact Hstep. rewrite Hrest.
  cbn [inventory log] in *. rewrite app_assoc. split; [done|].
  rewrite Hcount' , Hcount. split; [done|]. split.
  - intros other Hother. rewrite Hothers by done. rewrite Hdict.
    destruct (permitted _ _); [|done]. by apply dict_get_set_ne.
  - rewrite Hhere, Hcount. unfold permitted_addresses. cbn [List.filter].
    destruct (permitted (formatted_address (inventory st) site address) _) eqn:Hpermitted.
    + rewrite last_cons, Hdict. clear Hhere.
      destruct (last (List.filter _ addresses)); [done|]. apply dict_get_set_eq.
    + by rewrite Hdict.
Qed.

Lemma networks_loop_interface name site (addresses : dict (list Address)) loc st :
  Forall parses (declared_addresses addresses) ->
  NoDup addresses.*1 ->
  exists loc' lg,
    for_each (network_step name site) addresses loc st
    = (Returned loc', MkStore (inventory st) (log st ++ lg))
    /\ (forall other, other ∉ addresses.*1 ->
          dict_get other (vm_nic_dict loc') = dict_get other (vm_nic_dict loc))
    /\ forall i network addrs,
         addresses !! i = Some (network, addrs) ->
         dict_get network (vm_nic_dict loc')
         = match last (permitted_addresses (inventory st) site (vm_count loc + S i) network addrs) with
           | Some address => Some (vm_nic_data_of (vm_count loc + S i) network address)
           | None => dict_get network (vm_nic_dict loc)
           end.
Proof.
  revert loc st. induction addresses as [|[network addrs] addresses IH];
    intros loc st Hall Hnodup.
  { exists loc, []. rewrite app_nil_r. destruct st. by repeat split. }
  change (declared_addresses ((network, addrs) :: addresses))
    with (addrs ++ declared_addresses addresses) in Hall.
  apply Forall_app in Hall as [Hhere Hrest].
  rewrite fmap_cons in Hnodup. cbn [fst] in Hnodup.
  apply NoDup_cons in Hnodup as [Hfresh Hnodup].
  cbn [for_each]. rewrite network_step_eq.
  destruct (addresses_loop_interface name site network addrs
              (VmLocals (vm_primary_ip4 loc) (vm_primary_ip6 loc) (vm_nic_dict loc)
                        (dict_set network [] (vm_nic_ips loc)) (vm_count loc + 1)) st Hhere)
    as (loc1 & lg1 & Hstep & Hcount & Hothers & Hnet).
  erewrite mbind_run by exact Hstep.
  destruct (IH loc1 (MkStore (inventory st) (log st ++ lg1)) Hrest Hnodup)
    as (loc' & lg & Hloop & Hkeep & Hlater).
  exists loc', (lg1 ++ lg). rewrite Hloop.
  cbn [inventory log vm_nic_dict vm_count] in *. rewrite app_assoc. split; [done|]. split.
  - intros other Hother. rewrite fmap_cons in Hother. cbn [fst] in Hother.
    apply not_elem_of_cons in Hother as [Hne Hother].
    rewrite Hkeep by done. by apply Hothers.
  - intros [|i] network' addrs' Hlookup; simpl in Hlookup.
    + injection Hlookup as <- <-. rewrite Hkeep by done. by rewrite Hnet.
    + rewrite (Hlater i network' addrs' Hlookup), Hcount.
      replace (vm_count loc + 1 + S i) with (vm_count loc + S (S i)) by lia.
      clear Hlater Hnet.
      destruct (last (permitted_addresses _ _ _ network' addrs')); [done|].
      apply Hothers. intros ->. apply Hfresh.
      apply list_elem_of_fmap. exists (network, addrs'). split; [done|].
      by apply list_elem_of_lookup_2 in Hlookup.
Qed.

(** The interface of a network of a server, when every declared address
    parses and the networks have distinct names. The [i]-th network has an
    interface exactly when the subnet policy permits one of its addresses;
    the interface is named [vNIC i (network)] and carries the MAC address
    of the last permitted address. A network without a permitted address
    has no interface, and so none of its addresses is looked at again. *)
Theorem server_interfaces_come_from_permitted_addresses name site
    (addresses : dict (list Address)) st :
  Forall parses (declared_addresses addresses) ->
  NoDup addresses.*1 ->
  exists loc lg,
    collect_addresses name site addresses st
    = (Returned loc, MkStore (inventory st) (log st ++ lg))
    /\ (forall i network addrs,
          addresses !! i = Some (network, addrs) ->
          dict_get network (vm_nic_dict loc)
          = vm_nic_data_of (S i) network
              <$> last (permitted_addresses (inventory st) site (S i) network addrs))
    /\ forall other, other ∉ addresses.*1 -> dict_get other (vm_nic_dict loc) = None.
Proof.
  intros Hparse Hnodup. unfold collect_addresses.
  destruct (networks_loop_interface name site addresses (VmLocals None None [] [] 0) st
              Hparse Hnodup) as (loc & lg & Hloop & Hkeep & Hnet).
  exists loc, lg. split; [done|]. split.
  - intros i network addrs Hlookup. rewrite (Hnet i network addrs Hlookup).
    cbn [vm_count vm_nic_dict]. by destruct (last _).
  - intros other Hother. by rewrite Hkeep.
Qed.

End ServerInterfacesProperties.

(** ** ObjectMatcher, tier 2, on every inventory *)

Section MacMatchingGeneral.
Implicit Types (inv : NetBoxInventory) (mac_list : list string)
  (scanned : list interface_object).

(** The scan without the assumption that matching interfaces are owned:
    the tallies count the owned matches, and [matching_object] is what the
    last matching interface has as its owner. *)
Lemma mac_scan_general mac_list scanned (st : mac_scan) (counted : nat -> nat) :
  NoDup (objects_with_matching_macs st).*1 ->
  Forall (fun entry => 0 < snd entry) (objects_with_matching_macs st) ->
  (forall obj, tally_get obj (objects_with_matching_macs st) = counted obj) ->
  let final := fold_left (mac_step mac_list) scanned st in
  NoDup (objects_with_matching_macs final).*1
  /\ Forall (fun entry => 0 < snd entry) (objects_with_matching_macs final)
  /\ (forall obj, tally_get obj (objects_with_matching_macs final)
                  = counted obj + mac_tally mac_list scanned obj)
  /\ matching_object final
     = match last (matching_interfaces mac_list scanned) with
       | Some interface => owner interface
       | None => matching_object st
       end.
Proof.
  revert st counted.
  induction scanned as [|interface scanned IH]; intros st counted Hnodup Hpos Hget.
  { simpl. repeat split; [done..|]. intros obj. rewrite Hget. unfold mac_tally. simpl. lia. }
  cbn [fold_left]. unfold matching_interfaces. cbn [List.filter].
  destruct (mac_in_list (mac_address interface) mac_list) eqn:Hmac.
  - destruct (owner interface) as [obj|] eqn:Hobj.
    + assert (Hstep : mac_step mac_list st interface
                      = MacScan (tally_add obj (objects_with_matching_macs st)) (Some obj)).
      { unfold mac_step. by rewrite Hmac, Hobj. }
      rewrite Hstep.
      destruct (IH (MacScan (tally_add obj (objects_with_matching_macs st)) (Some obj))
                   (fun o => counted o + (if bool_decide (o = obj) then 1 else 0)))
        as (Hn & Hp & Hg & Hl); cbn [objects_with_matching_macs matching_object].
      * by apply tally_add_NoDup.
      * by apply tally_add_positive.
      * intros o. rewrite tally_get_add, Hget. case_bool_decide; lia.
      * repeat split; [done..| |].
        -- intros o. rewrite Hg, mac_tally_cons, Hmac, Hobj. cbn [andb].
           destruct (decide (o = obj)) as [->|Hne].
           ++ rewrite !bool_decide_eq_true_2 by done. lia.
           ++ rewrite (bool_decide_eq_false_2 (o = obj)) by done.
              rewrite bool_decide_eq_false_2 by congruence. lia.
        -- rewrite Hl, last_cons. fold (matching_interfaces mac_list scanned).
           cbn [matching_object]. destruct (last (matching_interfaces mac_list scanned)); [done|].
           by rewrite Hobj.
    + assert (Hstep : mac_step mac_list st interface
                      = MacScan (objects_with_matching_macs st) None).
      { unfold mac_step. by rewrite Hmac, Hobj. }
      rewrite Hstep.
      destruct (IH (MacScan (objects_with_matching_macs st) None) counted)
        as (Hn & Hp & Hg & Hl); cbn [objects_with_matching_macs matching_object]; [done..|].
      repeat split; [done..| |].
      * intros o. rewrite Hg, mac_tally_cons, Hmac, Hobj. cbn [andb].
        rewrite bool_decide_eq_false_2 by done. lia.
      * rewrite Hl, last_cons. fold (matching_interfaces mac_list scanned).
        cbn [matching_object]. destruct (last (matching_interfaces mac_list scanned)); [done|].
        by rewrite Hobj.
  - assert (Hstep : mac_step mac_list st interface = st).
    { unfold mac_step. by rewrite Hmac. }
    rewrite Hstep.
    destruct (IH st counted Hnodup Hpos Hget) as (Hn & Hp & Hg & Hl).
    repeat split; [done..| |done]. intros o. rewrite Hg, mac_tally_cons, Hmac. simpl. lia.
Qed.

Lemma mac_scan_result_general inv t mac_list :
  let scanned := get_all_interfaces inv (interface_typ t) in
  let final := mac_scan_result inv t mac_list in
  let tally := mac_tally mac_list scanned in
  NoDup (objects_with_matching_macs final).*1
  /\ (forall obj count, (obj, count) ∈ objects_with_matching_macs final
                        -> count = tally obj /\ 0 < count)
  /\ (forall obj, 0 < tally obj -> (obj, tally obj) ∈ objects_with_matching_macs final)
  /\ matching_object final = last (matching_interfaces mac_list scanned) ≫= owner.
Proof.
  intros scanned final tally. subst scanned.
  destruct (mac_scan_general mac_list (get_all_interfaces inv (interface_typ t))
              (MacScan [] None) (fun _ => 0))
    as (Hnodup & Hpos & Hget & Hlast); [constructor|constructor|done|].
  fold (mac_scan_result inv t mac_list) in Hnodup, Hpos, Hget, Hlast.
  fold final in Hnodup, Hpos, Hget, Hlast.
  split; [done|]. split; [|split].
  - intros obj count Hentry. split.
    + rewrite <- (tally_get_elem obj count (objects_with_matching_macs final)) by done.
      by rewrite Hget.
    + rewrite Forall_forall in Hpos. by apply (Hpos (obj, count)).
  - intros obj Hobj. specialize (Hget obj). simpl in Hget. fold tally in Hget.
    rewrite <- Hget. apply tally_elem_get. by rewrite Hget.
  - rewrite Hlast. cbn [matching_object]. by destruct (last _).
Qed.

(** Tier 2 on every inventory. An object is found by its MAC addresses
    exactly when it owns a matching interface, owns at least twice as many
    as every other object, and, when it is the only object that owns one,
    the last matching interface of the scan is owned by an object as well:
    a single owner is given up when an interface without an owner object is
    scanned after its own. *)
Theorem macs_find_the_dominant_owner_unless_the_last_match_has_no_owner inv t
    (mac_list : list string) (obj : nat) :
  mac_list <> [] ->
  let scanned := get_all_interfaces inv (interface_typ t) in
  let tally := mac_tally mac_list scanned in
  get_object_based_on_macs inv t mac_list = Some obj
  <-> 0 < tally obj
      /\ (forall other, other <> obj -> 2 * tally other <= tally obj)
      /\ ((forall other, other <> obj -> tally other = 0) ->
          is_Some (last (matching_interfaces mac_list scanned) ≫= owner)).
Proof.
  intros Hmacs scanned tally. subst scanned.
  destruct (mac_scan_result_general inv t mac_list) as (Hnodup & Hin & Hall & Hlast).
  fold tally in Hin, Hall.
  unfold get_object_based_on_macs. destruct mac_list as [|mac mac_list]; [done|].
  set (final := mac_scan_result inv t (mac :: mac_list)) in *.
  cbv zeta.
  pose proof (sorted_desc_perm (objects_with_matching_macs final)) as Hperm.
  pose proof (sorted_desc_sorted (objects_with_matching_macs final)) as Hsorted.
  destruct (objects_with_matching_macs final) as [|[top c1] [|[second c2] rest]] eqn:Htally.
  - (* nothing tallied *)
    simpl. split; [done|]. intros [Hpos _]. apply Hall in Hpos. by apply elem_of_nil in Hpos.
  - (* one owner *)
    rewrite (bool_decide_eq_true_2 (length [(top, c1)] = 1)) by done.
    destruct (Hin top c1) as [Hc1 Hpos1]; [left|].
    assert (Honly : forall other, other <> top -> tally other = 0).
    { intros other Hother.
      destruct (decide (0 < tally other)) as [Hpos|]; [|lia].
      apply Hall, list_elem_of_singleton in Hpos. by simplify_eq. }
    rewrite Hlast. simpl.
    destruct (last (matching_interfaces (mac :: mac_list) _) ≫= owner) as [owned|] eqn:Howner.
    + rewrite (bool_decide_eq_true_2 (is_Some (Some owned))) by by eexists.
      simpl. split.
      * intros [= <-]. split; [lia|]. split; [|by intros _; eexists].
        intros other Hother. rewrite Honly by done. lia.
      * intros [Hpos _]. apply Hall, list_elem_of_singleton in Hpos. by simplify_eq.
    + rewrite (bool_decide_eq_false_2 (is_Some None)) by by intros [? ?].
      simpl. split; [done|]. intros (Hpos & _ & Hgiven). exfalso.
      apply Hall, list_elem_of_singleton in Hpos. simplify_eq.
      destruct (Hgiven Honly) as [? ?]. done.
  - (* two or more owners *)
    rewrite (bool_decide_eq_false_2 (length ((top, c1) :: (second, c2) :: rest) = 1))
      by (simpl; lia).
    rewrite (bool_decide_eq_true_2 (1 < length ((top, c1) :: (second, c2) :: rest)))
      by (simpl; lia).
    cbn [andb].
    destruct (sorted_desc ((top, c1) :: (second, c2) :: rest))
      as [|[first_choice m1] [|[second_choice m2] others]] eqn:Hsort.
    { by apply Permutation_nil_l in Hperm. }
    { apply Permutation_length in Hperm. simpl in Hperm. lia. }
    assert (Hfirst : m1 = tally first_choice /\ 0 < m1).
    { apply Hin. rewrite <- Hperm. left. }
    assert (Hsecond : m2 = tally second_choice /\ 0 < m2).
    { apply Hin. rewrite <- Hperm. right; left. }
    assert (Hdistinct : first_choice <> second_choice).
    { assert (Hn : NoDup ((first_choice, m1) :: (second_choice, m2) :: others).*1)
        by by rewrite Hperm.
      rewrite !fmap_cons, !NoDup_cons in Hn. destruct Hn as [Hn _].
      intros ->. apply Hn. left. }
    apply StronglySorted_cons in Hsorted as [Hbelow1 Hsorted].
    apply StronglySorted_cons in Hsorted as [Hbelow2 _].
    rewrite Forall_cons in Hbelow1. destruct Hbelow1 as [Hle12 Hbelow1]. simpl in Hle12.
    assert (Hothers : forall other, other <> first_choice -> tally other <= m2).
    { intros other Hother.
      destruct (decide (0 < tally other)) as [Hpos|]; [|lia].
      apply Hall in Hpos. rewrite <- Hperm in Hpos.
      apply elem_of_cons in Hpos as [?|Hpos]; [by simplify_eq|].
      apply elem_of_cons in Hpos as [?|Hpos]; [by simplify_eq|].
      rewrite Forall_forall in Hbelow2. by apply (Hbelow2 (other, tally other)). }
    destruct (Qle_bool 2 (matching_ration m1 m2)) eqn:Hratio.
    + apply matching_ration_ge_2 in Hratio; [|lia]. split.
      * intros [= <-]. split; [lia|]. split.
        -- intros other Hother. specialize (Hothers other Hother). lia.
        -- intros Honly. specialize (Honly second_choice ltac:(done)). lia.
      * intros (Hpos & Hdominant & _). f_equal.
        destruct (decide (first_choice = obj)) as [|Hne]; [done|].
        specialize (Hdominant first_choice Hne). specialize (Hothers obj ltac:(done)). lia.
    + split; [done|]. intros (Hpos & Hdominant & _). exfalso.
      assert (Hno : ~ 2 * m2 <= m1).
      { intros Hle. apply matching_ration_ge_2 in Hle; [|lia]. congruence. }
      destruct (decide (first_choice = obj)) as [<-|Hne].
      * specialize (Hdominant second_choice ltac:(done)). lia.
      * specialize (Hdominant first_choice Hne). specialize (Hothers obj ltac:(done)). lia.
Qed.

(** Device 1 owns the only owned match and is found when its interface is
    scanned last; scanned first, it is not. *)
Lemma macs_find_the_dominant_owner_unless_the_last_match_has_no_owner_witness :
  Samples.host_macs <> []
  /\ get_object_based_on_macs Samples.orphan_then_owner NBDevice Samples.host_macs = Some 1
  /\ get_object_based_on_macs Samples.owner_then_orphan NBDevice Samples.host_macs = None
  /\ 0 < mac_tally Samples.host_macs (interfaces Samples.orphan_then_owner) 1.
Proof.
  split; [done|]. split; [reflexivity|]. split; [reflexivity|].
  apply (proj1 (macs_find_the_dominant_owner_unless_the_last_match_has_no_owner
                  Samples.orphan_then_owner NBDevice Samples.host_macs 1 ltac:(done))).
  reflexivity.
Defined.

End MacMatchingGeneral.

(** ** The object cache *)

Section ObjectCache.
Implicit Types (cache : gmap string (gmap string nat)) (key : string) (o : nat).

(** What is put into the object cache under a key is what is found under
    it, the last object put for a key replaces the one before, and the other
    keys keep what they have; without a key or without an object nothing is
    put. *)
Theorem object_cache_gives_back_what_was_put cache key o :
  (forall other,
     get_object_from_cache (add_object_to_cache cache (Some key) (Some o)) other
     = if bool_decide (other = key) then Some o else get_object_from_cache cache other)
  /\ add_object_to_cache cache None (Some o) = cache
  /\ add_object_to_cache cache (Some key) None = cache.
Proof.
  split; [|done]. intros other. unfold get_object_from_cache, add_object_to_cache.
  rewrite lookup_insert_eq. simpl.
  destruct (cache !! vm_class_name) as [objects|] eqn:Hobjects; simpl.
  - rewrite Hobjects. simpl. case_bool_decide as Hkey.
    + subst. by rewrite lookup_insert_eq.
    + by rewrite lookup_insert_ne.
  - rewrite lookup_insert_eq. simpl. case_bool_decide as Hkey.
    + subst. by rewrite lookup_insert_eq.
    + rewrite lookup_insert_ne by done. by rewrite lookup_empty.
Qed.

End ObjectCache.

(** ** Clusters *)

Section ClusterSelection.
Implicit Types (candidates : list cluster_object) (group_name tenant_name : option string).

Lemma cluster_scan_result name site_name group_name tenant_name candidates fallback :
  let matches c := has_name name c
                   && (site_matches site_name c || group_matches group_name c
                       || tenant_matches tenant_name c) in
  let '(cluster_object, fallback_cluster_object, _) :=
    cluster_scan name site_name group_name tenant_name candidates fallback in
  cluster_object = List.find matches candidates
  /\ (cluster_object = None ->
      fallback_cluster_object
      = match fallback with
        | Some first => Some first
        | None => List.find (has_name name) candidates
        end).
Proof.
  intros matches. subst matches. revert fallback.
  induction candidates as [|c candidates IH]; intros fallback; simpl.
  { split; [done|]. intros _. by destruct fallback. }
  unfold has_name at 1 3. destruct (bool_decide (cluster_name c = Some name)); simpl.
  2: { apply IH. }
  destruct (site_matches site_name c); simpl; [by split|].
  destruct (group_matches group_name c); simpl; [by split|].
  destruct (tenant_matches tenant_name c); simpl; [by split|].
  specialize (IH (match fallback with None => Some c | Some first => Some first end)).
  destruct (cluster_scan _ _ _ _ candidates _) as [[cluster_object fallback'] lg].
  destruct IH as [Hfound Hfallback]. split; [done|].
  intros Hnone. rewrite (Hfallback Hnone). by destruct fallback.
Qed.

(** The existing cluster that [add_cluster] updates is found in one scan in
    inventory order: the first candidate with the name that also matches on
    its site, on its cluster group or on its tenant, whichever of the three;
    and the first candidate with the name when no candidate matches on any.
    So a candidate that matches on the group only is taken before a later
    one that matches on the site. *)
Theorem cluster_is_selected_in_one_scan name site_name group_name tenant_name candidates :
  fst (select_cluster name site_name group_name tenant_name candidates)
  = match List.find (fun c => has_name name c
                              && (site_matches site_name c || group_matches group_name c
                                  || tenant_matches tenant_name c)) candidates with
    | Some cluster_candidate => Some cluster_candidate
    | None => List.find (has_name name) candidates
    end.
Proof.
  unfold select_cluster.
  pose proof (cluster_scan_result name site_name group_name tenant_name candidates None) as Hscan.
  cbv zeta in Hscan.
  destruct (cluster_scan _ _ _ _ candidates None) as [[cluster_object fallback] lg].
  destruct Hscan as [<- Hfallback].
  destruct cluster_object as [found|]; [done|].
  rewrite (Hfallback eq_refl). by destruct (List.find (has_name name) candidates).
Qed.

End ClusterSelection.

Section ClusterRuns.
Context {R : Type} `{RegexObject R} `{Collaborators} {I : Type} `{ClusterStore I}.
Implicit Types (self : OpenStackHandler R) (inv : I) (source_settings : SourceSettings R).

Lemma handler_eta self :
  MkHandler (settings self) (source_name self) (site_name self) (permitted_clusters self)
            (cluster_host_map self) (volume_map self) (processed_host_names self)
            (processed_vm_names self) (object_cache self) (store self) = self.
Proof. by destruct self. Qed.

Lemma with_no_more_log self : with_more_log self [] = self.
Proof.
  unfold with_more_log, with_store. rewrite store_with_no_more_log. apply handler_eta.
Qed.

Lemma host_map_appends (name : string) (hosts current : list string) (m : dict (list string)) :
  dict_get name m = Some current ->
  fold_left (fun m host => host_map_append name host m) hosts m
  = dict_set name (current ++ hosts) m.
Proof.
  revert current m. induction hosts as [|host hosts IH]; intros current m Hcurrent.
  { simpl. rewrite app_nil_r. symmetry. by apply dict_set_same. }
  cbn [fold_left]. unfold host_map_append at 2. rewrite Hcurrent. cbn [default].
  rewrite (IH (current ++ [host])) by apply dict_get_set_eq.
  by rewrite dict_set_set, <- app_assoc.
Qed.

Lemma host_map_loop (name : string) (hosts : list string) self inv :
  for_each (fun _ host =>
              on_handler (I:=I) (modify_self (fun self =>
                with_cluster_host_map self (host_map_append name host (cluster_host_map self)))))
           hosts tt (self, inv)
  = (Returned tt,
     (with_cluster_host_map self
        (fold_left (fun m host => host_map_append name host m) hosts (cluster_host_map self)),
      inv)).
Proof.
  revert self. induction hosts as [|host hosts IH]; intros self; cbn [for_each fold_left].
  { unfold mret, M_ret, with_cluster_host_map. by rewrite handler_eta. }
  erewrite mbind_run by reflexivity. by rewrite IH.
Qed.

Lemma on_handler_logged {A} (r : A * list log_record) self inv :
  on_handler (I:=I) (on_store (logged r)) (self, inv)
  = (Returned (fst r), (with_more_log self (snd r), inv)).
Proof. reflexivity. Qed.

Lemma on_handler_write_log (l : log_level) (msg : string) self inv :
  on_handler (I:=I) (on_store (write_log l msg)) (self, inv)
  = (Returned tt, (with_more_log self [LogRecord l msg], inv)).
Proof. reflexivity. Qed.

(** [add_cluster], step by step. *)
Lemma add_cluster_run source_settings (obj : AvailabilityZone) self inv :
  add_cluster source_settings obj (self, inv) =
  match az_name obj, get_cluster_group inv (group_name source_settings) with
  | Some name, Some (group, name_of_group) =>
      let parsing := LogRecord DEBUG ("Parsing OpenStack AZ: " +:+ name) in
      let filter := passes_filter name (cluster_include_filter source_settings)
                                  (cluster_exclude_filter source_settings) in
      if fst filter then
        let site := get_site_name (settings self) (site_name self) SiteNBCluster name "" in
        let tenant := get_object_relation (relations (settings self)) name
                                          "cluster_tenant_relation" None in
        let data := cluster_data name group (fst site) (as_name (fst tenant)) in
        let selected := select_cluster name (fst site) name_of_group (as_name (fst tenant))
                                       (get_all_clusters inv) in
        let lg := parsing :: snd filter ++ snd site ++ snd tenant
                  ++ LogRecord DEBUG2 "Trying to find a matching existing cluster" :: snd selected in
        let updated :=
          match fst selected with
          | Some cluster_object =>
              (update_cluster inv (cluster_oid cluster_object) data,
               Some (cluster_oid cluster_object))
          | None => add_update_cluster inv data
          end in
        (Returned tt,
         (with_permitted_clusters
            (with_cluster_host_map
               (with_object_cache (with_more_log self lg)
                  (add_object_to_cache (object_cache self) (Some name) (snd updated)))
               (dict_set name (az_hosts obj) (cluster_host_map self)))
            (<[name := fst site]> (permitted_clusters self)),
          fst updated))
      else (Returned tt, (with_more_log self (parsing :: snd filter), inv))
  | _, _ => (Returned tt, (self, inv))
  end.
Proof.
  unfold add_cluster.
  erewrite mbind_run by reflexivity. cbv beta. cbn [snd].
  destruct (az_name obj) as [name|]; [|done].
  destruct (get_cluster_group inv (group_name source_settings)) as [[group name_of_group]|];
    [|done].
  erewrite mbind_run by reflexivity. cbv beta. cbn [fst].
  erewrite mbind_run by apply on_handler_write_log. cbv beta.
  erewrite mbind_run by apply on_handler_logged. cbv beta.
  rewrite with_more_log_app. cbn [app].
  destruct (passes_filter name _ _) as [passes lg_filter]. cbn [fst snd].
  destruct passes; cbn [negb]; [|done].
  erewrite mbind_run by apply on_handler_logged. cbv beta. rewrite with_more_log_app.
  erewrite mbind_run by apply on_handler_logged. cbv beta. rewrite with_more_log_app.
  erewrite mbind_run by apply on_handler_write_log. cbv beta. rewrite with_more_log_app.
  erewrite mbind_run by apply on_handler_logged. cbv beta. rewrite with_more_log_app.
  fold (cluster_data name group
          (fst (get_site_name (settings self) (site_name self) SiteNBCluster name ""))
          (as_name (fst (get_object_relation (relations (settings self)) name
                           "cluster_tenant_relation" None)))).
  cbv zeta.
  set (selected := select_cluster _ _ _ _ _).
  set (data := cluster_data _ _ _ _).
  set (site := fst (get_site_name (settings self) (site_name self) SiteNBCluster name "")).
  rewrite <- !app_assoc. cbn [app].
  set (after_log := with_more_log self _).
  assert (Hhosts : forall (self0 : OpenStackHandler R) (inv0 : I) (cluster_object : option nat),
    (on_handler (modify_self (fun self =>
       with_object_cache self (add_object_to_cache (object_cache self) (Some name) cluster_object)));;
     on_handler (modify_self (fun self =>
       with_cluster_host_map self (dict_set name [] (cluster_host_map self))));;
     for_each (fun _ host =>
                 on_handler (modify_self (fun self =>
                   with_cluster_host_map self (host_map_append name host (cluster_host_map self)))))
              (az_hosts obj) tt;;
     on_handler (modify_self (fun self =>
       with_permitted_clusters self (<[name := site]> (permitted_clusters self))))) (self0, inv0)
    = (Returned tt,
       (with_permitted_clusters
          (with_cluster_host_map
             (with_object_cache self0
                (add_object_to_cache (object_cache self0) (Some name) cluster_object))
             (dict_set name (az_hosts obj) (cluster_host_map self0)))
          (<[name := site]> (permitted_clusters self0)),
        inv0))).
  { intros self0 inv0 cluster_object.
    erewrite mbind_run by reflexivity. cbv beta.
    erewrite mbind_run by reflexivity. cbv beta.
    erewrite mbind_run by apply host_map_loop. cbv beta.
    cbn [fst snd cluster_host_map with_cluster_host_map with_object_cache].
    rewrite (host_map_appends name (az_hosts obj) []) by apply dict_get_set_eq.
    rewrite dict_set_set. reflexivity. }
  destruct (fst selected) as [cluster_object|] eqn:Hselected.
  - erewrite mbind_run by reflexivity. cbv beta. rewrite Hhosts. reflexivity.
  - destruct (add_update_cluster inv data) as [inv' created] eqn:Hcreated.
    erewrite mbind_run by reflexivity. cbv beta. rewrite Hhosts. reflexivity.
Qed.

(** An availability zone without a name, one met while the cluster group
    is not in the inventory, and one whose name the cluster filter rejects
    leave everything as it is but for the log: no cluster is created or
    updated, none is permitted, and the hosts of the zone are not recorded. *)
Theorem availability_zone_outside_the_filter_changes_only_the_log source_settings
    (obj : AvailabilityZone) self inv :
  (az_name obj = None
   \/ get_cluster_group inv (group_name source_settings) = None
   \/ exists name, az_name obj = Some name
                   /\ fst (passes_filter name (cluster_include_filter source_settings)
                                         (cluster_exclude_filter source_settings)) = false) ->
  exists lg, add_cluster source_settings obj (self, inv) = (Returned tt, (with_more_log self lg, inv)).
Proof.
  intros Hcase. rewrite add_cluster_run.
  destruct (az_name obj) as [name|] eqn:Hname.
  2: { exists []. by rewrite with_no_more_log. }
  destruct (get_cluster_group inv (group_name source_settings)) as [[group name_of_group]|].
  2: { exists []. by rewrite with_no_more_log. }
  destruct Hcase as [?|[?|(name' & [= <-] & Hrejected)]]; [done|done|].
  cbv zeta. rewrite Hrejected. by eexists.
Qed.

(** An availability zone with a name that passes the cluster filter, met
    while the cluster group is in the inventory, becomes a permitted
    cluster: it is permitted with its site, the host map lists its hosts
    under its name, the object cache gives its cluster object, and the
    existing cluster selected is updated, or a cluster is created when there
    is none. The registries, the volume map and the devices, VMs,
    interfaces and IP addresses of the inventory are as before. *)
Theorem availability_zone_becomes_a_permitted_cluster source_settings
    (obj : AvailabilityZone) self inv (name : string) (group : nat)
    (name_of_group : option string) :
  az_name obj = Some name ->
  get_cluster_group inv (group_name source_settings) = Some (group, name_of_group) ->
  fst (passes_filter name (cluster_include_filter source_settings)
                     (cluster_exclude_filter source_settings)) = true ->
  let site := fst (get_site_name (settings self) (site_name self) SiteNBCluster name "") in
  let tenant := as_name (fst (get_object_relation (relations (settings self)) name
                                "cluster_tenant_relation" None)) in
  let data := cluster_data name group site tenant in
  let updated :=
    match fst (select_cluster name site name_of_group tenant (get_all_clusters inv)) with
    | Some cluster_object =>
        (update_cluster inv (cluster_oid cluster_object) data, Some (cluster_oid cluster_object))
    | None => add_update_cluster inv data
    end in
  exists after,
    add_cluster source_settings obj (self, inv) = (Returned tt, (after, fst updated))
    /\ permitted_clusters after = <[name := site]> (permitted_clusters self)
    /\ cluster_host_map after = dict_set name (az_hosts obj) (cluster_host_map self)
    /\ object_cache after = add_object_to_cache (object_cache self) (Some name) (snd updated)
    /\ settings after = settings self /\ site_name after = site_name self
    /\ volume_map after = volume_map self
    /\ processed_host_names after = processed_host_names self
    /\ processed_vm_names after = processed_vm_names self
    /\ inventory (store after) = inventory (store self).
Proof.
  intros Hname Hgroup Hpasses site tenant data updated.
  rewrite add_cluster_run, Hname, Hgroup. cbv zeta. rewrite Hpasses.
  eexists. split; [reflexivity|]. by repeat split.
Qed.

Lemma add_cluster_keeps_the_invariant source_settings (obj : AvailabilityZone) self inv :
  run_invariant source_settings self ->
  run_invariant source_settings (fst (snd (add_cluster source_settings obj (self, inv)))).
Proof.
  intros (Hconsistent & Hfilter & Hhosts & Hvms). rewrite add_cluster_run.
  destruct (az_name obj) as [name|]; [|done].
  destruct (get_cluster_group inv (group_name source_settings)) as [[group name_of_group]|];
    [|done].
  cbv zeta.
  destruct (fst (passes_filter name _ _)) eqn:Hpasses; [|done].
  cbn [fst snd]. repeat split; [| |done|done].
  - intros cluster Hcluster.
    cbn [cluster_host_map permitted_clusters with_permitted_clusters with_cluster_host_map
         with_object_cache with_more_log with_store] in *.
    destruct (decide (cluster = name)) as [->|Hne].
    { rewrite lookup_insert_eq. by eexists. }
    rewrite lookup_insert_ne by done. apply Hconsistent.
    clear -Hcluster Hne. induction (cluster_host_map self) as [|[k l] m IH]; simpl in *.
    + apply list_elem_of_singleton in Hcluster. done.
    + destruct (decide (k = name)) as [->|Hk].
      * rewrite (bool_decide_eq_true_2 (name = name)) in Hcluster by done.
        simpl in Hcluster. apply elem_of_cons in Hcluster as [?|Hin]; [done|]. by right.
      * rewrite (bool_decide_eq_false_2 (k = name)) in Hcluster by done.
        simpl in Hcluster. apply elem_of_cons in Hcluster as [->|Hin]; [left|right; by apply IH].
  - intros cluster site.
    cbn [permitted_clusters with_permitted_clusters]. 
    destruct (decide (cluster = name)) as [->|Hne].
    { intros _. exact Hpasses. }
    rewrite lookup_insert_ne by done. apply Hfilter.
Qed.

Lemma for_each_keeps {S A B} (P : S -> Prop) (body : B -> A -> M S B) (items : list A) :
  (forall acc item s, P s -> P (snd (body acc item s))) ->
  forall acc s, P s -> P (snd (for_each body items acc s)).
Proof.
  intros Hbody. induction items as [|item items IH]; intros acc s Hs; [done|].
  cbn [for_each]. unfold mbind, M_bind.
  specialize (Hbody acc item s Hs).
  destruct (body acc item s) as [[acc'|e] s']; simpl in *; [by apply IH|done].
Qed.

Lemma on_handler_state {A} (m : M (OpenStackHandler R) A) self inv :
  fst (snd (on_handler (I:=I) m (self, inv))) = snd (m self).
Proof. unfold on_handler. simpl. by destruct (m self). Qed.

Lemma same_configuration_keeps_the_invariant source_settings self after :
  same_configuration self after ->
  registry_distinct (processed_host_names after) ->
  registry_distinct (processed_vm_names after) ->
  run_invariant source_settings self ->
  run_invariant source_settings after.
Proof.
  intros (_ & _ & _ & Hp & Hm & _ & _) Hhosts Hvms (Hconsistent & Hfilter & _ & _).
  repeat split; [| |done|done].
  - intros cluster. rewrite Hp, Hm. apply Hconsistent.
  - intros cluster site. rewrite Hp. apply Hfilter.
Qed.

(** The invariant of a run. Whatever the source gives, and however the
    loops of [apply] end, afterwards every cluster of the host map is
    permitted, every permitted cluster has a name that passes the cluster
    filter, and the two registries hold each name once per scope, when that
    was so before, as it is for the handler [__init__] leaves. *)
Theorem apply_keeps_the_invariant_of_the_run source_settings
    (availability_zones : list AvailabilityZone) (hypervisors : list Hypervisor)
    (volumes : list Volume) (servers : list Server) self inv :
  run_invariant source_settings self ->
  run_invariant source_settings
    (fst (snd (apply_records source_settings availability_zones hypervisors volumes servers
                             (self, inv)))).
Proof.
  intros Hinvariant. unfold apply_records.
  set (P := fun s : OpenStackHandler R * I => run_invariant source_settings (fst s)).
  change (P (snd ((on_handler (on_store (write_log INFO ("Query data from OpenStack: '"
                                        +:+ auth_url source_settings +:+ "'")));;
                   inv ← get_cluster_inventory;
                   put_cluster_inventory (add_update_cluster_group inv (group_name source_settings));;
                   for_each (fun _ availability_zone => add_cluster source_settings availability_zone)
                            availability_zones tt;;
                   for_each (fun _ hypervisor => on_handler (add_host hypervisor)) hypervisors tt;;
                   for_each (fun _ volume => on_handler (add_volume volume)) volumes tt;;
                   for_each (fun _ server => on_handler (add_virtual_machine server)) servers tt)
                    (self, inv)))).
  erewrite mbind_run by reflexivity. cbv beta.
  erewrite mbind_run by reflexivity. cbv beta.
  erewrite mbind_run by reflexivity. cbv beta. cbn [fst snd].
  assert (Hstart : P (with_store self
                        (MkStore (inventory (store self))
                                 (log (store self)
                                  ++ [LogRecord INFO ("Query data from OpenStack: '"
                                                      +:+ auth_url source_settings +:+ "'")])),
                      add_update_cluster_group inv (group_name source_settings))).
  { subst P. cbv beta. cbn [fst]. by destruct Hinvariant as (? & ? & ? & ?). }
  revert Hstart. generalize (with_store self
                        (MkStore (inventory (store self))
                                 (log (store self)
                                  ++ [LogRecord INFO ("Query data from OpenStack: '"
                                                      +:+ auth_url source_settings +:+ "'")])),
                      add_update_cluster_group inv (group_name source_settings)).
  intros s0 Hs0.
  assert (Hclusters : forall acc s, P s ->
            P (snd (for_each (fun _ availability_zone => add_cluster source_settings availability_zone)
                             availability_zones acc s))).
  { apply for_each_keeps. intros _ availability_zone [self0 inv0] Hp.
    by apply add_cluster_keeps_the_invariant. }
  assert (Hhosts : forall acc s, P s ->
            P (snd (for_each (fun _ hypervisor => on_handler (I:=I) (add_host hypervisor))
                             hypervisors acc s))).
  { apply for_each_keeps. intros _ hypervisor [self0 inv0] Hp. subst P. cbv beta in *.
    rewrite on_handler_state. cbn [fst] in Hp.
    destruct (add_host_keeps self0 hypervisor) as [Hsame Hvms].
    destruct (add_host_registry self0 hypervisor) as [Hdistinct _].
    apply (same_configuration_keeps_the_invariant source_settings self0); [done| | |done].
    - apply Hdistinct. by destruct Hp as (_ & _ & ? & _).
    - cbv zeta in Hvms. rewrite Hvms. by destruct Hp as (_ & _ & _ & ?). }
  assert (Hvolumes : forall acc s, P s ->
            P (snd (for_each (fun _ volume => on_handler (I:=I) (add_volume volume))
                             volumes acc s))).
  { apply for_each_keeps. intros _ volume [self0 inv0] Hp. subst P. cbv beta in *.
    rewrite on_handler_state. cbn [fst] in Hp. exact Hp. }
  assert (Hservers : forall acc s, P s ->
            P (snd (for_each (fun _ server => on_handler (I:=I) (add_virtual_machine server))
                             servers acc s))).
  { apply for_each_keeps. intros _ server [self0 inv0] Hp. subst P. cbv beta in *.
    rewrite on_handler_state. cbn [fst] in Hp.
    destruct (add_virtual_machine_keeps self0 server) as [Hsame Hhostnames].
    destruct (add_virtual_machine_registry self0 server) as [Hdistinct _].
    apply (same_configuration_keeps_the_invariant source_settings self0); [done| | |done].
    - cbv zeta in Hhostnames. rewrite Hhostnames. by destruct Hp as (_ & _ & ? & _).
    - apply Hdistinct. by destruct Hp as (_ & _ & _ & ?). }
  unfold mbind, M_bind.
  specialize (Hclusters tt s0 Hs0).
  destruct (for_each _ availability_zones tt s0) as [[[]|e] s1]; [|done].
  specialize (Hhosts tt s1 Hclusters).
  destruct (for_each _ hypervisors tt s1) as [[[]|e] s2]; [|done].
  specialize (Hvolumes tt s2 Hhosts).
  destruct (for_each _ volumes tt s2) as [[[]|e] s3]; [|done].
  by apply Hservers.
Qed.

(** The handler that [__init__] leaves has the invariant of a run. *)
Lemma initial_handler_invariant source_settings (handler_settings : Settings R) (name : string)
    (devices_and_vms : NetBoxInventory) :
  run_invariant source_settings (initial_handler handler_settings name devices_and_vms).
Proof.
  repeat split.
  - intros cluster Hcluster. by apply elem_of_nil in Hcluster.
  - intros cluster site Hsite. cbn in Hsite. by rewrite lookup_empty in Hsite.
  - intros key names Hnames. cbn in Hnames. by rewrite lookup_empty in Hnames.
  - intros key names Hnames. cbn in Hnames. by rewrite lookup_empty in Hnames.
Qed.

End ClusterRuns.

(** ** Hosts, servers and the clusters of a run *)

Section RecordsAndClusters.
Context {R : Type} `{RegexObject R} `{Collaborators}.
Implicit Types (self : OpenStackHandler R).

(** The cluster of a host is the first cluster of the host map, in the
    order the clusters were added, that lists the host; a host without a
    service host name has none. *)
Theorem host_belongs_to_the_first_cluster_that_lists_it
    (cluster_host_map : dict (list string)) (hostname cluster : string) :
  get_cluster_for_host cluster_host_map None = None
  /\ (get_cluster_for_host cluster_host_map (Some hostname) = Some cluster
      <-> exists i hosts,
            cluster_host_map !! i = Some (cluster, hosts) /\ hostname ∈ hosts
            /\ forall j other hosts', j < i -> cluster_host_map !! j = Some (other, hosts') ->
                                      hostname ∉ hosts').
Proof.
  unfold get_cluster_for_host. split.
  { by induction cluster_host_map as [|entry m IH]. }
  induction cluster_host_map as [|[c l] m IH]; simpl.
  { split; [done|]. by intros (i & hosts & Hi & _). }
  case_bool_decide as Hin; simpl.
  - split.
    + intros [= <-]. exists 0, l. repeat split; [done|]. intros j other hosts' Hj. lia.
    + intros (i & hosts & Hi & Hhost & Hfirst). destruct i as [|i].
      * simpl in Hi. by injection Hi as -> _.
      * exfalso. by apply (Hfirst 0 c l); [lia| |].
  - rewrite IH. split.
    + intros (i & hosts & Hi & Hhost & Hfirst). exists (S i), hosts. repeat split; [done..|].
      intros [|j] other hosts' Hj Hlookup; simpl in Hlookup.
      * by injection Hlookup as <- <-.
      * apply (Hfirst j other hosts'); [lia|done].
    + intros (i & hosts & Hi & Hhost & Hfirst). destruct i as [|i].
      * simpl in Hi. injection Hi as <- <-. done.
      * exists i, hosts. repeat split; [done..|].
        intros j other hosts' Hj Hlookup. apply (Hfirst (S j) other hosts'); [lia|done].
Qed.

(** While every cluster of the host map is permitted, as [add_cluster]
    keeps it, a host is skipped before the registry for one reason only:
    no cluster lists it, which is logged as an error. The test of lines
    861-863 for a cluster that is not permitted never fires. *)
Theorem host_is_skipped_only_when_no_cluster_lists_it self (obj : Hypervisor) :
  clusters_consistent self ->
  host_cluster self obj = get_cluster_for_host (cluster_host_map self) (hv_service_host obj)
  /\ (host_cluster self obj = None ->
      add_host obj self
      = (Returned tt,
         with_more_log self
           [LogRecord DEBUG ("Parsing Openstack host: " +:+ host_name self obj);
            LogRecord ERROR ("Requesting cluster for host '" +:+ host_name self obj
                             +:+ "' failed. Skipping.")])).
Proof.
  intros Hconsistent.
  assert (Hcluster : host_cluster self obj
                     = get_cluster_for_host (cluster_host_map self) (hv_service_host obj)).
  { unfold host_cluster.
    destruct (get_cluster_for_host _ _) as [cluster|] eqn:Hfound; [|done]. simpl.
    unfold get_cluster_for_host in Hfound.
    destruct (List.find _ _) as [[c hosts]|] eqn:Hfind; [|done].
    injection Hfound as <-. apply List.find_some in Hfind as [Hin _].
    destruct (Hconsistent c) as [site Hsite].
    { apply list_elem_of_fmap. exists (c, hosts). split; [done|]. by apply list_elem_of_In. }
    simpl. by rewrite Hsite. }
  split; [exact Hcluster|]. rewrite Hcluster. intros Hnone.
  rewrite add_host_run. cbv zeta. by rewrite Hnone.
Qed.

(** While every permitted cluster has a name that passes the cluster
    filter, a server of an availability zone whose name the filter rejects
    is skipped as not part of a permitted cluster: nothing changes but the
    log, and its name is not recorded. *)
Theorem server_outside_the_cluster_filter_is_skipped (source_settings : SourceSettings R) self
    (obj : Server) (zone : string) :
  permitted_pass_the_filter source_settings self ->
  availability_zone obj = Some zone ->
  let cluster := if strip_host_domain_name (settings self) then split_first "." zone else zone in
  fst (passes_filter cluster (cluster_include_filter source_settings)
                     (cluster_exclude_filter source_settings)) = false ->
  add_virtual_machine obj self
  = (Returned tt,
     with_more_log self
       [LogRecord DEBUG ("Parsing OpenStack VM: " +:+ vm_name self obj);
        LogRecord DEBUG ("Virtual machine '" +:+ vm_name self obj
                         +:+ "' is not part of a permitted cluster. Skipping")]).
Proof.
  intros Hfilter Hzone cluster Hrejected.
  rewrite add_virtual_machine_run. cbv zeta. rewrite Hzone.
  assert (Hcluster : (if strip_host_domain_name (settings self)
                      then split_first "." <$> Some zone else Some zone) = Some cluster).
  { subst cluster. by destruct (strip_host_domain_name (settings self)). }
  rewrite Hcluster.
  destruct (permitted_clusters self !! cluster) as [site|] eqn:Hsite; [|done].
  specialize (Hfilter cluster site Hsite). congruence.
Qed.

End RecordsAndClusters.

(** ** Records with the same name *)

Section DuplicateNames.
Context {R : Type} `{RegexObject R} `{Collaborators}.
Implicit Types (self : OpenStackHandler R).

Lemma same_configuration_trans self self' self'' :
  same_configuration self self' -> same_configuration self' self'' ->
  same_configuration self self''.
Proof.
  intros (? & ? & ? & ? & ? & ? & ?) (? & ? & ? & ? & ? & ? & ?).
  repeat split; congruence.
Qed.

(** The loop over the hypervisors keeps the configuration and the names the
    registry holds. *)
Lemma hosts_loop_keeps self (hypervisors : list Hypervisor) (site name : string) :
  registry_has site name (processed_host_names self) = true ->
  let after := snd (for_each (fun _ hypervisor => add_host hypervisor) hypervisors tt self) in
  same_configuration self after
  /\ registry_has site name (processed_host_names after) = true.
Proof.
  intros Hknown.
  apply (for_each_keeps
           (fun s => same_configuration self s
                     /\ registry_has site name (processed_host_names s) = true)).
  - intros _ hypervisor s [Hsame Hhas].
    destruct (add_host_keeps s hypervisor) as [Hstep _].
    destruct (add_host_registry s hypervisor) as [_ Hgrows].
    split; [by apply (same_configuration_trans self s)|by apply Hgrows].
  - split; [by repeat split|done].
Qed.

Lemma servers_loop_keeps self (servers : list Server) (cluster name : string) :
  registry_has cluster name (processed_vm_names self) = true ->
  let after := snd (for_each (fun _ server => add_virtual_machine server) servers tt self) in
  same_configuration self after
  /\ registry_has cluster name (processed_vm_names after) = true.
Proof.
  intros Hknown.
  apply (for_each_keeps
           (fun s => same_configuration self s
                     /\ registry_has cluster name (processed_vm_names s) = true)).
  - intros _ server s [Hsame Hhas].
    destruct (add_virtual_machine_keeps s server) as [Hstep _].
    destruct (add_virtual_machine_registry s server) as [_ Hgrows].
    split; [by apply (same_configuration_trans self s)|by apply Hgrows].
  - split; [by repeat split|done].
Qed.

(** A host with a new name that passes the filter, and whose [host_ip]
    parses, is handed to [add_device_vm_to_inventory] under its name, once
    the name is in the registry. *)
Lemma new_host_is_handed_over self (obj : Hypervisor) (site : string) (parsed : IPInterface) :
  host_scope self obj = Some site ->
  registry_has site (host_name self obj) (processed_host_names self) = false ->
  fst (passes_filter (host_name self obj) (host_include_filter (settings self))
                     (host_exclude_filter (settings self))) = true ->
  ip_interface (host_ip obj) = Some parsed ->
  exists host_data pnic_data nic_ips p_ipv4 before,
    add_host obj self
    = on_store (add_device_vm_to_inventory (settings self) NBDevice host_data pnic_data []
                                           nic_ips p_ipv4 None) before
    /\ dict_get "name" host_data = Some (VStr (host_name self obj))
    /\ processed_host_names before
       = registry_append site (host_name self obj) (processed_host_names self)
    /\ inventory (store before) = inventory (store self).
Proof.
  intros Hscope Hnew Hpasses Hparsed. rewrite add_host_run. cbv zeta.
  unfold host_scope, host_cluster in Hscope.
  destruct (get_cluster_for_host _ _) as [cluster_name|]; simpl in Hscope; [|done].
  destruct (permitted_clusters self !! cluster_name); simpl in Hscope; [|done].
  injection Hscope as Hsite. rewrite Hsite, Hnew.
  match goal with |- context [on_store _ ?s] => set (recorded := s) end.
  destruct (host_pipeline_data self obj (host_name self obj) site
              (get_object_from_cache (object_cache self) cluster_name) (store recorded)
              parsed Hpasses Hparsed) as (host_data & lg & Hrun & Hname & _).
  eexists host_data, _, _, _, (with_more_log recorded lg).
  split; [|by repeat split].
  unfold on_store at 1. rewrite Hrun. reflexivity.
Qed.

(** A server with a new name that passes the filter, whose volumes are
    known and whose addresses parse, is handed to
    [add_device_vm_to_inventory] under its name, once the name is in the
    registry. *)
Lemma new_server_is_handed_over self (obj : Server) (cluster : string) :
  vm_scope self obj = Some cluster ->
  registry_has cluster (vm_name self obj) (processed_vm_names self) = false ->
  fst (passes_filter (vm_name self obj) (vm_include_filter (settings self))
                     (vm_exclude_filter (settings self))) = true ->
  unknown_volume (volume_map self) (attached_volumes obj) = None ->
  unparsable_address (declared_addresses (addresses obj)) = None ->
  exists vm_data vnic_data nic_ips p_ipv4 p_ipv6 before,
    add_virtual_machine obj self
    = on_store (add_device_vm_to_inventory (settings self) NBVM vm_data [] vnic_data
                                           nic_ips p_ipv4 p_ipv6) before
    /\ dict_get "name" vm_data = Some (VStr (vm_name self obj))
    /\ processed_vm_names before
       = registry_append cluster (vm_name self obj) (processed_vm_names self)
    /\ (set_vm_name_to_uuid (settings self) = false ->
        inventory (store before) = inventory (store self)).
Proof.
  intros Hscope Hnew Hpasses Hknown Hparse. apply all_parse in Hparse.
  rewrite add_virtual_machine_run. cbv zeta.
  unfold vm_scope in Hscope.
  destruct (if strip_host_domain_name (settings self) then _ else _) as [cluster_name|];
    simpl in Hscope; [|done].
  destruct (permitted_clusters self !! cluster_name); simpl in Hscope; [|done].
  injection Hscope as ->. rewrite Hnew.
  match goal with |- context [on_store (vm_pipeline _ _ _ ?status _ ?cached) ?s] =>
    set (recorded := s);
    destruct (vm_pipeline_data self obj (vm_name self obj) status cluster cached
                (store recorded) Hpasses Hknown)
      as (vm_data & st1 & lg & Hrun & _ & Hinv & Hname & _)
  end.
  cbv zeta in Hrun.
  destruct (collect_addresses_returns (vm_name self obj)
              (fst (get_site_name (settings self) (site_name self) SiteNBCluster cluster ""))
              (addresses obj) st1 Hparse) as (loc & lg' & Hloc).
  erewrite mbind_run in Hrun by exact Hloc.
  eexists vm_data, _, _, _, _, (with_store recorded (MkStore (inventory st1) (log st1 ++ lg'))).
  split; [|split; [exact Hname|split; [reflexivity|exact Hinv]]].
  unfold on_store at 1. rewrite Hrun. reflexivity.
Qed.

(** C5. Of the records of one run with the same name in the same scope (the
    site for hosts, the cluster for VMs), only the first is processed.
    Whatever records are processed in between, the second is skipped:
    processing it returns with a warning as its last log record and leaves
    the inventory, the registries and everything else of the handler as
    they were. The first, when its name is new in the scope, passes the
    name filter and its data can be read, is handed to
    [add_device_vm_to_inventory] under that name, which creates or updates
    it. *)
Theorem second_of_same_name_is_skipped :
  (forall self (first : Hypervisor) (between : list Hypervisor) (second : Hypervisor)
          (site : string) after_first before_second,
     host_scope self first = Some site ->
     host_scope self second = Some site ->
     host_name self first = host_name self second ->
     add_host first self = (Returned tt, after_first) ->
     for_each (fun _ hypervisor => add_host hypervisor) between tt after_first
     = (Returned tt, before_second) ->
     (exists lg msg,
        add_host second before_second
        = (Returned tt, with_more_log before_second (lg ++ [LogRecord WARNING msg])))
     /\ (registry_has site (host_name self first) (processed_host_names self) = false ->
         fst (passes_filter (host_name self first) (host_include_filter (settings self))
                            (host_exclude_filter (settings self))) = true ->
         is_Some (ip_interface (host_ip first)) ->
         exists host_data pnic_data nic_ips p_ipv4 before,
           add_host first self
           = on_store (add_device_vm_to_inventory (settings self) NBDevice host_data pnic_data
                                                  [] nic_ips p_ipv4 None) before
           /\ dict_get "name" host_data = Some (VStr (host_name self first))
           /\ processed_host_names before
              = registry_append site (host_name self first) (processed_host_names self)
           /\ inventory (store before) = inventory (store self)))
  /\
  (forall self (first : Server) (between : list Server) (second : Server)
          (cluster : string) after_first before_second,
     vm_scope self first = Some cluster ->
     vm_scope self second = Some cluster ->
     vm_name self first = vm_name self second ->
     add_virtual_machine first self = (Returned tt, after_first) ->
     for_each (fun _ server => add_virtual_machine server) between tt after_first
     = (Returned tt, before_second) ->
     (exists lg msg,
        add_virtual_machine second before_second
        = (Returned tt, with_more_log before_second (lg ++ [LogRecord WARNING msg])))
     /\ (registry_has cluster (vm_name self first) (processed_vm_names self) = false ->
         fst (passes_filter (vm_name self first) (vm_include_filter (settings self))
                            (vm_exclude_filter (settings self))) = true ->
         unknown_volume (volume_map self) (attached_volumes first) = None ->
         unparsable_address (declared_addresses (addresses first)) = None ->
         exists vm_data vnic_data nic_ips p_ipv4 p_ipv6 before,
           add_virtual_machine first self
           = on_store (add_device_vm_to_inventory (settings self) NBVM vm_data [] vnic_data
                                                  nic_ips p_ipv4 p_ipv6) before
           /\ dict_get "name" vm_data = Some (VStr (vm_name self first))
           /\ processed_vm_names before
              = registry_append cluster (vm_name self first) (processed_vm_names self)
           /\ (set_vm_name_to_uuid (settings self) = false ->
               inventory (store before) = inventory (store self)))).
Proof.
  split.
  - intros self first between second site after_first before_second
           Hfirst Hsecond Hname Hrun Hbetween.
    split.
    + destruct (add_host_after self first) as (_ & _ & _ & _ & _ & Hrecorded).
      destruct (add_host_keeps self first) as [Hsame _].
      rewrite Hrun in Hrecorded, Hsame. cbn [snd] in Hrecorded, Hsame.
      destruct (hosts_loop_keeps after_first between site (host_name self first)
                  (Hrecorded site Hfirst)) as [Hkept Hknown].
      rewrite Hbetween in Hkept, Hknown. cbn [snd] in Hkept, Hknown.
      destruct (same_configuration_trans _ _ _ Hsame Hkept)
        as (Hs & _ & Hd & Hp & Hc & _ & _).
      destruct (host_scope_after self before_second second Hs Hd Hp Hc) as [Hscope Hsame_name].
      apply (add_host_duplicate before_second second site).
      * by rewrite Hscope.
      * by rewrite Hsame_name, <- Hname.
    + intros Hnew Hpasses [parsed Hparsed].
      by apply (new_host_is_handed_over self first site parsed).
  - intros self first between second cluster after_first before_second
           Hfirst Hsecond Hname Hrun Hbetween.
    split.
    + destruct (add_virtual_machine_after self first) as (_ & _ & _ & _ & _ & Hrecorded).
      destruct (add_virtual_machine_keeps self first) as [Hsame _].
      rewrite Hrun in Hrecorded, Hsame. cbn [snd] in Hrecorded, Hsame.
      destruct (servers_loop_keeps after_first between cluster (vm_name self first)
                  (Hrecorded cluster Hfirst)) as [Hkept Hknown].
      rewrite Hbetween in Hkept, Hknown. cbn [snd] in Hkept, Hknown.
      destruct (same_configuration_trans _ _ _ Hsame Hkept)
        as (Hs & _ & _ & Hp & _ & _ & _).
      destruct (vm_scope_after self before_second second Hs Hp) as [Hscope Hsame_name].
      apply (add_virtual_machine_duplicate before_second second cluster).
      * by rewrite Hscope.
      * by rewrite Hsame_name, <- Hname.
    + intros Hnew Hpasses Hknown Hparse.
      by apply (new_server_is_handed_over self first cluster).
Qed.

End DuplicateNames.

(** ** More runs of the sample handler *)

Section MoreSampleRuns.
#[local] Existing Instance literal_regex.
#[local] Existing Instance Samples.small_collaborators.
#[local] Existing Instance RunSamples.sample_cluster_store.

(** The hypervisors [cmp1], [test9] and another [cmp1], and the servers
    [app1], [app4] and another [app1]: the first of each name is created,
    the second changes nothing but the log, which ends with the warning. *)
Lemma second_of_same_name_is_skipped_witness :
  let before_host :=
    snd (for_each (fun _ hypervisor => add_host hypervisor)
                  [Samples.cmp1; Samples.test9] tt Samples.lab) in
  let before_server :=
    snd (for_each (fun _ server => add_virtual_machine server)
                  [Samples.app1; RunSamples.app4] tt Samples.lab) in
  name_of <$> devices (inventory (store before_host)) = ["cmp1"]
  /\ (exists lg msg,
        add_host Samples.cmp1_again before_host
        = (Returned tt, with_more_log before_host (lg ++ [LogRecord WARNING msg])))
  /\ (exists host_data pnic_data nic_ips p_ipv4 before,
        add_host Samples.cmp1 Samples.lab
        = on_store (add_device_vm_to_inventory (settings Samples.lab) NBDevice host_data
                                               pnic_data [] nic_ips p_ipv4 None) before
        /\ dict_get "name" host_data = Some (VStr "cmp1"))
  /\ name_of <$> vms (inventory (store before_server)) = ["app1"]
  /\ (exists lg msg,
        add_virtual_machine RunSamples.app1_again before_server
        = (Returned tt, with_more_log before_server (lg ++ [LogRecord WARNING msg])))
  /\ (exists vm_data vnic_data nic_ips p_ipv4 p_ipv6 before,
        add_virtual_machine Samples.app1 Samples.lab
        = on_store (add_device_vm_to_inventory (settings Samples.lab) NBVM vm_data [] vnic_data
                                               nic_ips p_ipv4 p_ipv6) before
        /\ dict_get "name" vm_data = Some (VStr "app1")).
Proof.
  cbv zeta.
  destruct (proj1 second_of_same_name_is_skipped Samples.lab Samples.cmp1 [Samples.test9]
              Samples.cmp1_again "OpenStack: lab" (snd (add_host Samples.cmp1 Samples.lab))
              (snd (for_each (fun _ hypervisor => add_host hypervisor)
                             [Samples.cmp1; Samples.test9] tt Samples.lab)))
    as [Hskipped Hfirst]; [by vm_compute..|].
  destruct (proj2 second_of_same_name_is_skipped Samples.lab Samples.app1 [RunSamples.app4]
              RunSamples.app1_again "nova" (snd (add_virtual_machine Samples.app1 Samples.lab))
              (snd (for_each (fun _ server => add_virtual_machine server)
                             [Samples.app1; RunSamples.app4] tt Samples.lab)))
    as [Hskipped_vm Hfirst_vm]; [by vm_compute..|].
  split; [by vm_compute|]. split; [exact Hskipped|]. split.
  { destruct Hfirst as (host_data & pnic_data & nic_ips & p_ipv4 & before & Hrun & Hname & _);
      [by vm_compute|by vm_compute|by eexists|].
    exists host_data, pnic_data, nic_ips, p_ipv4, before. split; [exact Hrun|exact Hname]. }
  split; [by vm_compute|]. split; [exact Hskipped_vm|].
  destruct Hfirst_vm
    as (vm_data & vnic_data & nic_ips & p_ipv4 & p_ipv6 & before & Hrun & Hname & _);
    [by vm_compute..|].
  exists vm_data, vnic_data, nic_ips, p_ipv4, p_ipv6, before. split; [exact Hrun|exact Hname].
Defined.

(** Under [never] the IP object 7 is the primary IPv4 handed in, and the VM
    [db02] is not given it. *)
Lemma primary_ips_are_left_alone_witness :
  set_primary_ip (Samples.sample_settings "never") = "never"
  /\ snd (set_primary_ips (Samples.sample_settings "never") 2
            (Some (MkIPInterface IPv4 "192.0.2.7" 24)) None [Some Samples.ip7]
            (MkStore Samples.one_owner []))
     = MkStore Samples.one_owner [].
Proof.
  split; [reflexivity|].
  apply (primary_ips_are_left_alone (Samples.sample_settings "never")).
  left; reflexivity.
Defined.

(** Under [always] the VM [db02] takes the IP object 7 over from [db01]. *)
Lemma primary_ips_stay_exclusive_under_always_witness :
  set_primary_ip (Samples.sample_settings "always") = "always"
  /\ referrers IPv4 7
       (inventory (snd (set_primary_ips (Samples.sample_settings "always") 2
                          (Some (MkIPInterface IPv4 "192.0.2.7" 24)) None [Some Samples.ip7]
                          (MkStore Samples.one_owner [])))) = [2]
  /\ exclusive_primary_ips
       (inventory (snd (set_primary_ips (Samples.sample_settings "always") 2
                          (Some (MkIPInterface IPv4 "192.0.2.7" 24)) None [Some Samples.ip7]
                          (MkStore Samples.one_owner [])))).
Proof.
  split; [reflexivity|]. split; [reflexivity|].
  apply (primary_ips_stay_exclusive_under_always (Samples.sample_settings "always") 2
           (Some (MkIPInterface IPv4 "192.0.2.7" 24)) None [Some Samples.ip7]
           (MkStore Samples.one_owner [])).
  - reflexivity.
  - intros ip_object Hin. apply list_elem_of_singleton in Hin. by injection Hin as ->.
  - intros obj v ip_object Hin Hoid Hip. apply list_elem_of_singleton in Hip.
    injection Hip as ->. by apply (one_owner_holds_objects 2).
  - exact one_owner_NoDup.
  - exact one_owner_exclusive.
Defined.

(** The host [cmp1]: enabled, QEMU, with an address in the known prefix. *)
Lemma host_is_handed_over_with_one_interface_witness :
  fst (passes_filter "cmp1" (host_include_filter (settings Samples.lab))
                     (host_exclude_filter (settings Samples.lab))) = true
  /\ ip_interface (host_ip Samples.cmp1) = Some (MkIPInterface IPv4 "10.0.0.11" 32)
  /\ with_prefix_length (inventory (store Samples.lab)) (host_ip Samples.cmp1)
       (MkIPInterface IPv4 "10.0.0.11" 32) [None] = "10.0.0.11/24"
  /\ exists host_data,
       dict_get "platform" host_data = Some (named "QEMU 6002000")
       /\ dict_get "status" host_data = Some (VStr "active")
       /\ dict_get "tags" host_data = None.
Proof.
  split; [reflexivity|]. split; [reflexivity|]. split; [reflexivity|].
  destruct (host_is_handed_over_with_one_interface Samples.lab Samples.cmp1 "cmp1"
              "OpenStack: lab" None (store Samples.lab) (MkIPInterface IPv4 "10.0.0.11" 32))
    as (host_data & lg & _ & _ & _ & _ & Hstatus & Hplatform & _ & Htags);
    [reflexivity|reflexivity|].
  exists host_data. split; [exact Hplatform|]. split; [exact Hstatus|exact Htags].
Defined.

Lemma host_ip_that_does_not_parse_raises_witness :
  host_scope Samples.lab RunSamples.cmp3 = Some "OpenStack: lab"
  /\ ip_interface (host_ip RunSamples.cmp3) = None
  /\ exists lg,
       add_host RunSamples.cmp3 Samples.lab
       = (Raised (ValueError "n/a/unknown"),
          with_processed_host_names (with_more_log Samples.lab lg)
            (registry_append "OpenStack: lab" "cmp3" (processed_host_names Samples.lab))).
Proof.
  split; [reflexivity|]. split; [reflexivity|].
  exact (host_ip_that_does_not_parse_raises Samples.lab RunSamples.cmp3 "OpenStack: lab"
           eq_refl eq_refl eq_refl eq_refl).
Defined.

Lemma server_with_an_unknown_volume_raises_witness :
  vm_scope Samples.lab RunSamples.app2 = Some "nova"
  /\ unknown_volume (volume_map Samples.lab) (attached_volumes RunSamples.app2) = Some "vol-1"
  /\ exists lg,
       add_virtual_machine RunSamples.app2 Samples.lab
       = (Raised (KeyError "vol-1"),
          with_processed_vm_names (with_more_log Samples.lab lg)
            (registry_append "nova" "app2" (processed_vm_names Samples.lab))).
Proof.
  split; [reflexivity|]. split; [reflexivity|].
  exact (server_with_an_unknown_volume_raises Samples.lab RunSamples.app2 "nova" "vol-1"
           eq_refl eq_refl eq_refl eq_refl).
Defined.

(** The server [app2] once its volume is known: one vCPU for a flavor
    without, and a disk of the size of the volume. *)
Lemma server_is_handed_over_with_its_resources_witness :
  unknown_volume (volume_map RunSamples.lab_with_volume) (attached_volumes RunSamples.app2) = None
  /\ unparsable_address (declared_addresses (addresses RunSamples.app2)) = None
  /\ exists vm_data,
       dict_get "vcpus" vm_data = Some (VInt 1)
       /\ dict_get "disk" vm_data = Some (VInt 20)
       /\ dict_get "site" vm_data = Some (named "OpenStack: lab").
Proof.
  split; [reflexivity|]. split; [reflexivity|].
  destruct (server_is_handed_over_with_its_resources RunSamples.lab_with_volume RunSamples.app2
              "app2" "active" "nova" None (store RunSamples.lab_with_volume))
    as (vm_data & _ & _ & _ & _ & _ & _ & _ & _ & _ & _ & _ & Hcpu & Hdisk & Hsite & _);
    [reflexivity..|].
  exists vm_data. split; [exact Hcpu|]. split; [exact Hdisk|exact Hsite].
Defined.

Lemma server_address_that_does_not_parse_raises_witness :
  vm_scope Samples.lab RunSamples.app3 = Some "nova"
  /\ unparsable_address (declared_addresses (addresses RunSamples.app3))
     = Some (MkAddress "n/a/unknown" 4 "FA:16:3E:00:00:08")
  /\ exists after,
       add_virtual_machine RunSamples.app3 Samples.lab = (Raised (ValueError "n/a/unknown"), after)
       /\ processed_vm_names after
          = registry_append "nova" "app3" (processed_vm_names Samples.lab)
       /\ (set_vm_name_to_uuid (settings Samples.lab) = false ->
           inventory (store after) = inventory (store Samples.lab)).
Proof.
  split; [reflexivity|]. split; [reflexivity|].
  exact (server_address_that_does_not_parse_raises Samples.lab RunSamples.app3 "nova"
           (MkAddress "n/a/unknown" 4 "FA:16:3E:00:00:08")
           eq_refl eq_refl eq_refl eq_refl eq_refl).
Defined.

(** The network [public] has no permitted address and no interface; the
    interface of [private] is the second, with the MAC address of its
    permitted address. *)
Lemma server_interfaces_come_from_permitted_addresses_witness :
  Forall parses (declared_addresses RunSamples.two_networks)
  /\ NoDup RunSamples.two_networks.*1
  /\ exists loc lg,
       collect_addresses "app" "OpenStack: lab" RunSamples.two_networks (store Samples.lab)
       = (Returned loc, MkStore (inventory (store Samples.lab)) (log (store Samples.lab) ++ lg))
       /\ dict_get "public" (vm_nic_dict loc) = None
       /\ dict_get "private" (vm_nic_dict loc)
          = Some (vm_nic_data_of 2 "private" (MkAddress "10.0.0.9" 4 "FA:16:3E:00:00:0C")).
Proof.
  assert (Hparse : Forall parses (declared_addresses RunSamples.two_networks)).
  { repeat constructor; by eexists. }
  assert (Hnodup : NoDup RunSamples.two_networks.*1).
  { apply (bool_decide_unpack _). by vm_compute. }
  split; [exact Hparse|]. split; [exact Hnodup|].
  destruct (server_interfaces_come_from_permitted_addresses "app" "OpenStack: lab"
              RunSamples.two_networks (store Samples.lab) Hparse Hnodup)
    as (loc & lg & Hrun & Hnet & _).
  exists loc, lg. split; [exact Hrun|]. split.
  - exact (Hnet 0 "public" _ eq_refl).
  - exact (Hnet 1 "private" _ eq_refl).
Defined.

(** The availability zone [test-az] is rejected by the cluster filter. *)
Lemma availability_zone_outside_the_filter_changes_only_the_log_witness :
  fst (passes_filter "test-az" (cluster_include_filter RunSamples.source_settings)
                     (cluster_exclude_filter RunSamples.source_settings)) = false
  /\ exists lg,
       add_cluster RunSamples.source_settings RunSamples.test_az (RunSamples.fresh_lab, [])
       = (Returned tt, (with_more_log RunSamples.fresh_lab lg, [])).
Proof.
  split; [reflexivity|].
  apply (availability_zone_outside_the_filter_changes_only_the_log RunSamples.source_settings
           RunSamples.test_az RunSamples.fresh_lab []).
  right; right. exists "test-az". split; reflexivity.
Defined.

(** The availability zone [nova] becomes a permitted cluster of the default
    site; its cluster is created, as object 901, and its hosts belong to it. *)
Lemma availability_zone_becomes_a_permitted_cluster_witness :
  az_name RunSamples.nova = Some "nova"
  /\ exists after,
       fst (snd (add_cluster RunSamples.source_settings RunSamples.nova (RunSamples.fresh_lab, [])))
       = after
       /\ permitted_clusters after !! "nova" = Some "OpenStack: lab"
       /\ get_cluster_for_host (cluster_host_map after) (Some "cmp2") = Some "nova"
       /\ get_object_from_cache (object_cache after) "nova" = Some 901.
Proof.
  split; [reflexivity|].
  destruct (availability_zone_becomes_a_permitted_cluster RunSamples.source_settings
              RunSamples.nova RunSamples.fresh_lab [] "nova" 900 (Some "OpenStack"))
    as (after & Hrun & Hpermitted & Hhosts & Hcache & _); [reflexivity..|].
  exists after. split; [by rewrite Hrun|].
  rewrite Hpermitted, Hhosts, Hcache. by repeat split.
Defined.

(** A run over two availability zones, three hypervisors, a volume and
    three servers, from the handler [__init__] leaves. *)
Lemma apply_keeps_the_invariant_of_the_run_witness :
  run_invariant RunSamples.source_settings RunSamples.fresh_lab
  /\ run_invariant RunSamples.source_settings
       (fst (snd (apply_records RunSamples.source_settings
                    [RunSamples.nova; RunSamples.test_az]
                    [Samples.cmp1; Samples.cmp1_again; Samples.test9]
                    [RunSamples.vol1]
                    [Samples.app1; RunSamples.app2; RunSamples.app4]
                    (RunSamples.fresh_lab, [])))).
Proof.
  split; [apply initial_handler_invariant|].
  apply apply_keeps_the_invariant_of_the_run. apply initial_handler_invariant.
Defined.

(** What that run leaves: one device and two VMs; the second [cmp1], the
    host [test9] that no permitted cluster lists and the server of
    [test-az] are skipped. *)
Example apply_records_sample_run :
  let after := fst (snd (apply_records RunSamples.source_settings
                           [RunSamples.nova; RunSamples.test_az]
                           [Samples.cmp1; Samples.cmp1_again; Samples.test9]
                           [RunSamples.vol1]
                           [Samples.app1; RunSamples.app2; RunSamples.app4]
                           (RunSamples.fresh_lab, []))) in
  name_of <$> devices (inventory (store after)) = ["cmp1"]
  /\ name_of <$> vms (inventory (store after)) = ["app1"; "app2"]
  /\ processed_host_names after !! "OpenStack: lab" = Some ["cmp1"]
  /\ processed_vm_names after !! "nova" = Some ["app1"; "app2"]
  /\ volume_map after !! "vol-1" = Some 20%Z.
Proof. repeat split; by vm_compute. Qed.

Lemma lab_clusters_consistent : clusters_consistent Samples.lab.
Proof.
  intros cluster Hcluster. apply list_elem_of_singleton in Hcluster as ->. by eexists.
Qed.

Lemma lab_permitted_pass_the_filter :
  permitted_pass_the_filter RunSamples.source_settings Samples.lab.
Proof.
  intros cluster site Hsite. cbn in Hsite.
  apply lookup_singleton_Some in Hsite as [<- _]. reflexivity.
Qed.

(** No cluster lists the host [stray]. *)
Lemma host_is_skipped_only_when_no_cluster_lists_it_witness :
  clusters_consistent Samples.lab
  /\ host_cluster Samples.lab RunSamples.stray = None
  /\ add_host RunSamples.stray Samples.lab
     = (Returned tt,
        with_more_log Samples.lab
          [LogRecord DEBUG "Parsing Openstack host: stray";
           LogRecord ERROR "Requesting cluster for host 'stray' failed. Skipping."]).
Proof.
  split; [exact lab_clusters_consistent|]. split; [reflexivity|].
  exact (proj2 (host_is_skipped_only_when_no_cluster_lists_it Samples.lab RunSamples.stray
                  lab_clusters_consistent) eq_refl).
Defined.

(** The server [app4] of the availability zone [test-az]. *)
Lemma server_outside_the_cluster_filter_is_skipped_witness :
  permitted_pass_the_filter RunSamples.source_settings Samples.lab
  /\ availability_zone RunSamples.app4 = Some "test-az"
  /\ add_virtual_machine RunSamples.app4 Samples.lab
     = (Returned tt,
        with_more_log Samples.lab
          [LogRecord DEBUG "Parsing OpenStack VM: app4";
           LogRecord DEBUG "Virtual machine 'app4' is not part of a permitted cluster. Skipping"]).
Proof.
  split; [exact lab_permitted_pass_the_filter|]. split; [reflexivity|].
  exact (server_outside_the_cluster_filter_is_skipped RunSamples.source_settings Samples.lab
           RunSamples.app4 "test-az" lab_permitted_pass_the_filter eq_refl eq_refl).
Defined.

(** Of three clusters named [nova], the one that matches on the cluster
    group is taken, although a later one matches on the site. *)
Example cluster_selection_sample :
  cluster_oid <$> fst (select_cluster "nova" "Berlin" (Some "OpenStack") None
                                      RunSamples.nova_clusters) = Some 2.
Proof. reflexivity. Qed.

End MoreSampleRuns.

(** ** Runs at log level [DEBUG3] *)

Section VerboseRuns.
#[local] Existing Instance literal_regex.
#[local] Existing Instance Samples.verbose_collaborators.

(** At level [DEBUG3] a host whose cluster is listed logs the cluster data,
    and the error of the dump, before the cluster is looked up among the
    permitted ones; a host that no cluster lists does not; and
    [add_device_vm_to_inventory] starts with its two records. *)
Example cluster_data_is_logged_at_DEBUG3 :
  log (store (snd (add_host RunSamples.stray RunSamples.lab_with_old_cluster)))
  = [LogRecord DEBUG "Parsing Openstack host: stray";
     LogRecord INFO "Cluster data";
     LogRecord ERROR "'dict' object has no attribute 'to_dict'";
     LogRecord DEBUG "Host 'stray' is not part of a permitted cluster. Skipping"]
  /\ log (store (snd (add_host RunSamples.stray Samples.lab)))
     = [LogRecord DEBUG "Parsing Openstack host: stray";
        LogRecord ERROR "Requesting cluster for host 'stray' failed. Skipping."]
  /\ List.filter (fun r => bool_decide (level r = DEBUG3 \/ level r = INFO))
                 (log (store (snd (add_host Samples.cmp1 Samples.lab))))
     = [LogRecord INFO "Cluster data";
        LogRecord DEBUG3 "function: add_device_vm_to_inventory";
        LogRecord DEBUG3 "Object type device"].
Proof. repeat split; by vm_compute. Qed.

End VerboseRuns.
